(** * Launching a scheduler and workers over SSH: [distributed/deploy/old_ssh.py]

    A shallow embedding of the module and the properties of its command
    builders, of the connection retry loop of [async_ssh], of the line relay
    and of the [SSHCluster] supervisor.

    The embedding covers [async_ssh], [start_scheduler], [start_worker] and
    the class [SSHCluster] with [__init__], [add_worker], [shutdown],
    [__enter__], [__exit__] and the [nprocs] property; the display loop
    [monitor_remote_processes], [_start] and [scheduler_address] are left
    out.

    Python values are embedded as [pyval] (None, bool, int, str; floats are
    not used by the launch parameters), strings as [string] whose characters
    are code points below 256, dictionaries that keep insertion order as
    association lists, the attribute dictionary of an object as a [gmap], and
    the queue and thread objects as cells of a store addressed by position. *)

From Stdlib Require Import ZArith QArith Ascii String DecimalString.
From stdpp Require Import gmap strings list fin_maps.

(** ** Python values *)

Module Py.

Inductive pyval : Type :=
| PNone
| PBool (b : bool)
| PInt (z : Z)
| PStr (s : string).

(** [str(v)], which is also what [format] and f-strings insert for a field
    without a format specification. *)
Definition py_str (v : pyval) : string :=
  match v with
  | PNone => "None"
  | PBool true => "True"
  | PBool false => "False"
  | PInt z => NilZero.string_of_int (Z.to_int z)
  | PStr s => s
  end.

(** Truth value testing: [if v:], [not v], [a or b]. *)
Definition truthy (v : pyval) : bool :=
  match v with
  | PNone => false
  | PBool b => b
  | PInt z => negb (z =? 0)%Z
  | PStr s => negb (String.eqb s "")
  end.

Definition py_or (a b : pyval) : pyval := if truthy a then a else b.

Definition is_none (v : pyval) : bool :=
  match v with PNone => true | _ => false end.

(** [a == b]; [bool] is a subclass of [int], so [True == 1]. *)
Definition py_eq (a b : pyval) : bool :=
  match a, b with
  | PNone, PNone => true
  | PStr s, PStr t => String.eqb s t
  | PBool x, PBool y => Bool.eqb x y
  | PBool x, PInt z => ((if x then 1 else 0) =? z)%Z
  | PInt z, PBool y => (z =? (if y then 1 else 0))%Z
  | PInt x, PInt y => (x =? y)%Z
  | _, _ => false
  end.

Definition py_ne (a b : pyval) : bool := negb (py_eq a b).

(** Exceptions raised by the embedded code. *)
Inductive exn : Type :=
| TypeError (msg : string)
| ValueError (msg : string)
| KeyError (key : string)
| AttributeError (name : string).

Inductive result (A : Type) : Type :=
| Ok (a : A)
| Raise (e : exn).
Arguments Ok {A} a.
Arguments Raise {A} e.

Definition rmap {A B} (f : A → B) (r : result A) : result B :=
  match r with Ok a => Ok (f a) | Raise e => Raise e end.

(** Keyword arguments, in the order they were written. *)
Definition kwargs := list (string * pyval).

Fixpoint kw_get (k : string) (kw : kwargs) : option pyval :=
  match kw with
  | [] => None
  | (k', v) :: rest => if String.eqb k k' then Some v else kw_get k rest
  end.

Fixpoint kw_del (k : string) (kw : kwargs) : kwargs :=
  match kw with
  | [] => []
  | (k', v) :: rest =>
      if String.eqb k k' then kw_del k rest else (k', v) :: kw_del k rest
  end.

(** [sep.join(parts)]. *)
Fixpoint join (sep : string) (parts : list string) : string :=
  match parts with
  | [] => ""
  | [p] => p
  | p :: rest => p +:+ sep +:+ join sep rest
  end.

Definition lbrace : ascii := "{"%char.
Definition rbrace : ascii := "}"%char.

(** Characters that start a conversion, a format specification, an
    attribute or an index inside a replacement field; the templates of this
    module use none of them, and the embedding rejects them. *)
Definition field_special (c : ascii) : bool :=
  Ascii.eqb c "!" || Ascii.eqb c ":" || Ascii.eqb c "." || Ascii.eqb c "["
  || Ascii.eqb c lbrace.

(** [tmpl.format] with keyword arguments [kw], for templates with plain
    named fields.  [field] is
    [Some name] while the scan is inside a replacement field.  Doubled
    braces are literal braces; the text of an inserted value is not scanned
    again. *)
Fixpoint format_go (kw : kwargs) (tmpl : string) (field : option string)
  : result string :=
  match field, tmpl with
  | None, EmptyString => Ok ""
  | None, String c t =>
      if Ascii.eqb c lbrace then
        match t with
        | String c' t' =>
            if Ascii.eqb c' lbrace then rmap (String lbrace) (format_go kw t' None)
            else format_go kw t (Some "")
        | EmptyString => Raise (ValueError "Single '{' encountered in format string")
        end
      else if Ascii.eqb c rbrace then
        match t with
        | String c' t' =>
            if Ascii.eqb c' rbrace then rmap (String rbrace) (format_go kw t' None)
            else Raise (ValueError "Single '}' encountered in format string")
        | EmptyString => Raise (ValueError "Single '}' encountered in format string")
        end
      else rmap (String c) (format_go kw t None)
  | Some name, EmptyString => Raise (ValueError "expected '}' before end of string")
  | Some name, String c t =>
      if Ascii.eqb c rbrace then
        match kw_get name kw with
        | Some v => rmap (String.append (py_str v)) (format_go kw t None)
        | None => Raise (KeyError name)
        end
      else if field_special c then
        Raise (ValueError "unsupported replacement field")
      else format_go kw t (Some (name +:+ String c ""))
  end.

Definition format (tmpl : string) (kw : kwargs) : result string :=
  format_go kw tmpl None.

(** [str.isspace] on one character, for code points below 256. *)
Definition is_space (c : ascii) : bool :=
  let n := nat_of_ascii c in
  ((9 <=? n) && (n <=? 13)) || ((28 <=? n) && (n <=? 32))
  || (n =? 133) || (n =? 160).

(** [s.rstrip()]. *)
Fixpoint rstrip (s : string) : string :=
  match s with
  | EmptyString => ""
  | String c t =>
      match rstrip t with
      | EmptyString => if is_space c then "" else String c ""
      | t' => String c t'
      end
  end.

(** [s.split(" ")]. *)
Fixpoint split_space (s : string) : list string :=
  match s with
  | EmptyString => [""]
  | String c t =>
      if Ascii.eqb c " " then "" :: split_space t
      else match split_space t with
           | w :: ws => String c w :: ws
           | [] => [String c ""]
           end
  end.

(** [s.startswith(pat)]. *)
Fixpoint startswith (pat s : string) : bool :=
  match pat with
  | EmptyString => true
  | String a pat' =>
      match s with
      | EmptyString => false
      | String b s' => Ascii.eqb a b && startswith pat' s'
      end
  end.

(** [pat in s]. *)
Fixpoint contains (pat s : string) : bool :=
  startswith pat s
  || match s with
     | EmptyString => false
     | String _ t => contains pat t
     end.

End Py.
Export Py.

(** ** Terminal colours *)

Module bcolors.
Definition esc : ascii := ascii_of_nat 27.
Definition HEADER : string := String esc "[95m".
Definition OKBLUE : string := String esc "[94m".
Definition OKGREEN : string := String esc "[92m".
Definition WARNING : string := String esc "[93m".
Definition FAIL : string := String esc "[91m".
Definition ENDC : string := String esc "[0m".
Definition BOLD : string := String esc "[1m".
Definition UNDERLINE : string := String esc "[4m".
End bcolors.

(** ** The store: queues, threads, cluster objects and the observable trace *)

Module Store.

(** The dictionary built by [start_scheduler] and [start_worker].  The key
    ["port"] exists for a scheduler only.  The two queues are references
    into the store. *)
Record cmd_dict : Type := {
  cd_cmd : string;
  cd_label : string;
  cd_address : pyval;
  cd_port : option pyval;
  cd_input_queue : nat;
  cd_output_queue : nat;
  cd_ssh_username : pyval;
  cd_ssh_port : pyval;
  cd_ssh_private_key : pyval }.

(** [merge(cmd_dict, {"thread": thread})]: the handle of a launched
    process. *)
Record process : Type := {
  p_dict : cmd_dict;
  p_thread : nat }.

(** A [Thread(target=async_ssh, args=[cmd_dict])] object. *)
Record thread : Type := {
  th_args : cmd_dict;
  th_daemon : bool;
  th_started : bool;
  th_joined : bool }.

(** An [SSHCluster] object: the attributes holding plain values, and the
    three attributes holding lists and handles. [None] is an attribute
    that has not been assigned. *)
Record cluster : Type := {
  c_attrs : gmap string pyval;
  c_threads : option (list nat);
  c_scheduler : option process;
  c_workers : option (list process) }.

Inductive event : Type :=
| EvPrint (line : string)
| EvWarn (category msg : string)
| EvThreadStart (tid : nat)
| EvQueuePut (qid : nat) (item : string)
| EvThreadJoin (tid : nat).

Record world : Type := {
  w_executable : string;          (* sys.executable *)
  w_now : string;                 (* now().strftime("%Y-%m-%d_%H:%M:%S") *)
  w_queues : list (list string);
  w_threads : list thread;
  w_objects : list cluster;
  w_trace : list event }.

Definition set_queues (f : list (list string) → list (list string)) (w : world) : world :=
  {| w_executable := w_executable w; w_now := w_now w;
     w_queues := f (w_queues w); w_threads := w_threads w;
     w_objects := w_objects w; w_trace := w_trace w |}.

Definition set_threads (f : list thread → list thread) (w : world) : world :=
  {| w_executable := w_executable w; w_now := w_now w;
     w_queues := w_queues w; w_threads := f (w_threads w);
     w_objects := w_objects w; w_trace := w_trace w |}.

Definition set_objects (f : list cluster → list cluster) (w : world) : world :=
  {| w_executable := w_executable w; w_now := w_now w;
     w_queues := w_queues w; w_threads := w_threads w;
     w_objects := f (w_objects w); w_trace := w_trace w |}.

Definition emit (e : event) (w : world) : world :=
  {| w_executable := w_executable w; w_now := w_now w;
     w_queues := w_queues w; w_threads := w_threads w;
     w_objects := w_objects w; w_trace := w_trace w ++ [e] |}.

(** Computations that read and update the store and may raise. *)
Definition M (A : Type) : Type := world → result A * world.

Definition ret {A} (a : A) : M A := λ w, (Ok a, w).
Definition raise {A} (e : exn) : M A := λ w, (Raise e, w).
Definition bind {A B} (m : M A) (k : A → M B) : M B :=
  λ w, match m w with
       | (Ok a, w') => k a w'
       | (Raise e, w') => (Raise e, w')
       end.
Definition lift {A} (r : result A) : M A := λ w, (r, w).
(** Runs [m] and hands its outcome, normal or exceptional, to the caller. *)
Definition catch {A} (m : M A) : M (result A) :=
  λ w, match m w with (r, w') => (Ok r, w') end.
Definition gets {A} (f : world → A) : M A := λ w, (Ok (f w), w).
Definition modify (f : world → world) : M unit := λ w, (Ok tt, f w).

#[export] Instance M_ret : MRet M := @ret.
#[export] Instance M_bind : MBind M := λ A B k m, bind m k.

Definition rbind {A B} (r : result A) (k : A → result B) : result B :=
  match r with Ok a => k a | Raise e => Raise e end.

(** [Queue()] *)
Definition Queue_new : M nat :=
  λ w, (Ok (length (w_queues w)), set_queues (λ qs, qs ++ [[]]) w).

(** [q.put(item)] on an unbounded queue. *)
Definition Queue_put (q : nat) (item : string) : M unit :=
  modify (λ w, emit (EvQueuePut q item)
                 (set_queues (alter (λ items, items ++ [item]) q) w)).

(** [Thread(target=async_ssh, args=[cmd_dict])] *)
Definition Thread_new (args : cmd_dict) : M nat :=
  λ w, (Ok (length (w_threads w)),
        set_threads (λ ts, ts ++ [ {| th_args := args; th_daemon := false;
                                      th_started := false; th_joined := false |} ]) w).

(** [thread.daemon = b] *)
Definition Thread_set_daemon (t : nat) (b : bool) : M unit :=
  modify (set_threads (alter (λ th, {| th_args := th_args th; th_daemon := b;
                                       th_started := th_started th;
                                       th_joined := th_joined th |}) t)).

(** [thread.start()] *)
Definition Thread_start (t : nat) : M unit :=
  modify (λ w, emit (EvThreadStart t)
    (set_threads (alter (λ th, {| th_args := th_args th; th_daemon := th_daemon th;
                                  th_started := true;
                                  th_joined := th_joined th |}) t) w)).

(** [thread.join()]: returns once the thread has terminated. *)
Definition Thread_join (t : nat) : M unit :=
  modify (λ w, emit (EvThreadJoin t)
    (set_threads (alter (λ th, {| th_args := th_args th; th_daemon := th_daemon th;
                                  th_started := th_started th;
                                  th_joined := true |}) t) w)).

Definition print (line : string) : M unit := modify (emit (EvPrint line)).

(** [warnings.warn(msg, category)] *)
Definition warn (msg category : string) : M unit :=
  modify (emit (EvWarn category msg)).

End Store.
Export Store.

(** ** Process launcher: [start_scheduler] and [start_worker] *)

Module Launcher.

(** The command text computed by [start_scheduler]. *)
Definition scheduler_cmd (executable : string)
    (logdir addr port remote_python : pyval) : result string :=
  rbind (format "{python} -m distributed.cli.dask_scheduler --port {port}"
           [("python", py_or remote_python (PStr executable)); ("port", port)])
    (λ cmd,
      if negb (is_none logdir) then
        let cmd := "mkdir -p " +:+ py_str logdir +:+ " && " +:+ cmd in
        rbind (format "&> {logdir}/dask_scheduler_{addr}:{port}.log"
                 [("addr", addr); ("port", port); ("logdir", logdir)])
          (λ redirect, Ok (cmd +:+ redirect))
      else Ok cmd).

Definition start_scheduler
    (logdir addr port ssh_username ssh_port ssh_private_key remote_python : pyval)
  : M process :=
  executable ← gets w_executable;
  cmd ← lift (scheduler_cmd executable logdir addr port remote_python);
  let label := bcolors.BOLD +:+ "scheduler " +:+ py_str addr +:+ ":"
               +:+ py_str port +:+ bcolors.ENDC in
  input_queue ← Queue_new;
  output_queue ← Queue_new;
  let cmd_dict :=
    {| cd_cmd := cmd; cd_label := label; cd_address := addr;
       cd_port := Some port;
       cd_input_queue := input_queue; cd_output_queue := output_queue;
       cd_ssh_username := ssh_username; cd_ssh_port := ssh_port;
       cd_ssh_private_key := ssh_private_key |} in
  thread ← Thread_new cmd_dict;
  Thread_set_daemon thread true ;;
  Thread_start thread ;;
  ret {| p_dict := cmd_dict; p_thread := thread |}.

(** The parameters of [start_worker] that shape the command text. *)
Record worker_params : Type := {
  logdir : pyval;
  scheduler_addr : pyval;
  scheduler_port : pyval;
  worker_addr : pyval;
  nthreads : pyval;
  n_workers : pyval;
  nohost : pyval;
  memory_limit : pyval;
  worker_port : pyval;
  nanny_port : pyval;
  remote_python : pyval;
  remote_dask_worker : pyval;
  local_directory : pyval }.

(** The template of the worker command before [cmd.format]. *)
Definition worker_template (p : worker_params) : string :=
  let cmd :=
    ("{python} -m {remote_dask_worker} "
     +:+ "{scheduler_addr}:{scheduler_port} "
     +:+ "--nthreads {nthreads}")
    +:+ (if py_ne (n_workers p) (PInt 1) then " --nworkers {n_workers}" else "") in
  let cmd := if negb (truthy (nohost p)) then cmd +:+ " --host {worker_addr}" else cmd in
  let cmd := if truthy (memory_limit p) then cmd +:+ " --memory-limit {memory_limit}" else cmd in
  let cmd := if truthy (worker_port p) then cmd +:+ " --worker-port {worker_port}" else cmd in
  let cmd := if truthy (nanny_port p) then cmd +:+ " --nanny-port {nanny_port}" else cmd in
  cmd.

(** The command text computed by [start_worker]. *)
Definition worker_cmd (executable : string) (p : worker_params) : result string :=
  rbind (format (worker_template p)
           [("python", py_or (remote_python p) (PStr executable));
            ("remote_dask_worker", remote_dask_worker p);
            ("scheduler_addr", scheduler_addr p);
            ("scheduler_port", scheduler_port p);
            ("worker_addr", worker_addr p);
            ("nthreads", nthreads p);
            ("n_workers", n_workers p);
            ("memory_limit", memory_limit p);
            ("worker_port", worker_port p);
            ("nanny_port", nanny_port p)])
    (λ cmd,
      rbind (if negb (is_none (local_directory p)) then
               rbind (format " --local-directory {local_directory}"
                        [("local_directory", local_directory p)])
                 (λ flag, Ok (cmd +:+ flag))
             else Ok cmd)
        (λ cmd,
          if negb (is_none (logdir p)) then
            let cmd := "mkdir -p " +:+ py_str (logdir p) +:+ " && " +:+ cmd in
            rbind (format "&> {logdir}/dask_scheduler_{addr}.log"
                     [("addr", worker_addr p); ("logdir", logdir p)])
              (λ redirect, Ok (cmd +:+ redirect))
          else Ok cmd)).

Definition start_worker (p : worker_params)
    (ssh_username ssh_port ssh_private_key : pyval) : M process :=
  executable ← gets w_executable;
  cmd ← lift (worker_cmd executable p);
  let label := "worker " +:+ py_str (worker_addr p) in
  input_queue ← Queue_new;
  output_queue ← Queue_new;
  let cmd_dict :=
    {| cd_cmd := cmd; cd_label := label; cd_address := worker_addr p;
       cd_port := None;
       cd_input_queue := input_queue; cd_output_queue := output_queue;
       cd_ssh_username := ssh_username; cd_ssh_port := ssh_port;
       cd_ssh_private_key := ssh_private_key |} in
  thread ← Thread_new cmd_dict;
  Thread_set_daemon thread true ;;
  Thread_start thread ;;
  ret {| p_dict := cmd_dict; p_thread := thread |}.

End Launcher.
Export Launcher.

(** ** Cluster supervisor: [SSHCluster] *)

Module Cluster.

(** The arguments of [SSHCluster.__init__]; [a_kwargs] are the keyword
    arguments that match no named parameter. *)
Record init_args : Type := {
  a_scheduler_addr : pyval;
  a_scheduler_port : pyval;
  a_worker_addrs : list pyval;
  a_nthreads : pyval;
  a_n_workers : pyval;
  a_ssh_username : pyval;
  a_ssh_port : pyval;
  a_ssh_private_key : pyval;
  a_nohost : pyval;
  a_logdir : pyval;
  a_remote_python : pyval;
  a_memory_limit : pyval;
  a_worker_port : pyval;
  a_nanny_port : pyval;
  a_remote_dask_worker : pyval;
  a_local_directory : pyval;
  a_kwargs : kwargs }.

(** The defaults of the signature, with the three positional arguments. *)
Definition default_args (scheduler_addr scheduler_port : pyval)
    (worker_addrs : list pyval) : init_args :=
  {| a_scheduler_addr := scheduler_addr;
     a_scheduler_port := scheduler_port;
     a_worker_addrs := worker_addrs;
     a_nthreads := PInt 0;
     a_n_workers := PNone;
     a_ssh_username := PNone;
     a_ssh_port := PInt 22;
     a_ssh_private_key := PNone;
     a_nohost := PBool false;
     a_logdir := PNone;
     a_remote_python := PNone;
     a_memory_limit := PNone;
     a_worker_port := PNone;
     a_nanny_port := PNone;
     a_remote_dask_worker := PStr "distributed.cli.dask_worker";
     a_local_directory := PNone;
     a_kwargs := [] |}.

Definition empty_cluster : cluster :=
  {| c_attrs := ∅; c_threads := None; c_scheduler := None; c_workers := None |}.

(** Allocation of the object that [__init__] receives as [self]. *)
Definition object_new : M nat :=
  λ w, (Ok (length (w_objects w)), set_objects (λ os, os ++ [empty_cluster]) w).

Definition on_object (self : nat) (f : cluster → cluster) : M unit :=
  modify (set_objects (alter f self)).

Definition with_attrs (f : gmap string pyval → gmap string pyval) (c : cluster) : cluster :=
  {| c_attrs := f (c_attrs c); c_threads := c_threads c;
     c_scheduler := c_scheduler c; c_workers := c_workers c |}.

Definition with_threads (ts : option (list nat)) (c : cluster) : cluster :=
  {| c_attrs := c_attrs c; c_threads := ts;
     c_scheduler := c_scheduler c; c_workers := c_workers c |}.

Definition with_scheduler (p : option process) (c : cluster) : cluster :=
  {| c_attrs := c_attrs c; c_threads := c_threads c;
     c_scheduler := p; c_workers := c_workers c |}.

Definition with_workers (ps : option (list process)) (c : cluster) : cluster :=
  {| c_attrs := c_attrs c; c_threads := c_threads c;
     c_scheduler := c_scheduler c; c_workers := ps |}.

(** [self.name = v] for the attributes holding plain values. *)
Definition setattr (self : nat) (name : string) (v : pyval) : M unit :=
  on_object self (with_attrs (insert name v)).

Definition set_threads_attr (self : nat) (ts : list nat) : M unit :=
  on_object self (with_threads (Some ts)).

Definition set_scheduler (self : nat) (p : process) : M unit :=
  on_object self (with_scheduler (Some p)).

Definition set_workers (self : nat) (ps : list process) : M unit :=
  on_object self (with_workers (Some ps)).

(** [lst.append(p)] on the list object held by [self.workers]. *)
Definition workers_append (self : nat) (p : process) : M unit :=
  on_object self (λ c, with_workers ((λ ps, ps ++ [p]) <$> c_workers c) c).

Definition read_object {A} (self : nat) (name : string)
    (f : cluster → option A) : M A :=
  λ w, match w_objects w !! self with
       | Some c => match f c with
                   | Some v => (Ok v, w)
                   | None => (Raise (AttributeError name), w)
                   end
       | None => (Raise (AttributeError name), w)
       end.

(** The value of a plain attribute, when it has been assigned. *)
Definition attr (c : cluster) (name : string) : option pyval := c_attrs c !! name.

(** [self.name] *)
Definition getattr (self : nat) (name : string) : M pyval :=
  read_object self name (λ c, attr c name).
Definition get_scheduler (self : nat) : M process :=
  read_object self "scheduler" c_scheduler.
Definition get_workers (self : nat) : M (list process) :=
  read_object self "workers" c_workers.

Fixpoint for_each {A} (l : list A) (body : A → M unit) : M unit :=
  match l with
  | [] => ret tt
  | x :: rest => body x ;; for_each rest body
  end.

Definition ends_with_slash (s : string) : bool :=
  match String.get (String.length s - 1) s with
  | Some c => Ascii.eqb c "/" && negb (String.length s =? 0)
  | None => false
  end.

(** [os.path.join(a, b)] of [posixpath]. *)
Definition path_join (a b : string) : string :=
  if startswith "/" b then b
  else if String.eqb a "" || ends_with_slash a then a +:+ b
  else a +:+ "/" +:+ b.

Definition dquote : string := String (ascii_of_nat 34) "".

Definition nprocs_notice_init : string :=
  "The nprocs argument will be removed in a future release. It has been "
  +:+ "renamed to n_workers.".

Definition nprocs_notice_attr : string :=
  "The nprocs attribute will be removed in a future release. It has been "
  +:+ "renamed to n_workers.".

(** [SSHCluster.add_worker] *)
Definition add_worker (self : nat) (address : pyval) : M unit :=
  _ ← get_workers self;
  logdir ← getattr self "logdir";
  scheduler_addr ← getattr self "scheduler_addr";
  scheduler_port ← getattr self "scheduler_port";
  nthreads ← getattr self "nthreads";
  n_workers ← getattr self "n_workers";
  ssh_username ← getattr self "ssh_username";
  ssh_port ← getattr self "ssh_port";
  ssh_private_key ← getattr self "ssh_private_key";
  nohost ← getattr self "nohost";
  memory_limit ← getattr self "memory_limit";
  worker_port ← getattr self "worker_port";
  nanny_port ← getattr self "nanny_port";
  remote_python ← getattr self "remote_python";
  remote_dask_worker ← getattr self "remote_dask_worker";
  local_directory ← getattr self "local_directory";
  p ← start_worker
        {| logdir := logdir;
           scheduler_addr := scheduler_addr;
           scheduler_port := scheduler_port;
           worker_addr := address;
           nthreads := nthreads;
           n_workers := n_workers;
           nohost := nohost;
           memory_limit := memory_limit;
           worker_port := worker_port;
           nanny_port := nanny_port;
           remote_python := remote_python;
           remote_dask_worker := remote_dask_worker;
           local_directory := local_directory |}
        ssh_username ssh_port ssh_private_key;
  workers_append self p.

(** The renaming of [nprocs] to [n_workers] inside [__init__]. *)
Definition resolve_n_workers (nprocs n_workers : pyval) : M pyval :=
  if negb (is_none nprocs) && negb (is_none n_workers) then
    raise (ValueError "Both nprocs and n_workers were specified. Use n_workers only.")
  else if negb (is_none nprocs) then
    warn nprocs_notice_init "FutureWarning" ;;
    ret nprocs
  else if is_none n_workers then ret (PInt 1)
  else ret n_workers.

(** The timestamped log directory computed inside [__init__]. *)
Definition resolve_logdir (logdir : pyval) : M pyval :=
  match logdir with
  | PNone => ret PNone
  | PStr s =>
      now ← gets w_now;
      let logdir := PStr (path_join s ("dask-ssh_" +:+ now)) in
      notice ← lift (format
                 ("Output will be redirected to logfiles "
                  +:+ "stored locally on individual worker nodes under "
                  +:+ dquote +:+ "{logdir}" +:+ dquote +:+ ".")
                 [("logdir", logdir)]);
      print (bcolors.WARNING +:+ notice +:+ bcolors.ENDC) ;;
      ret logdir
  | _ => raise (TypeError "expected str, bytes or os.PathLike object")
  end.

(** [SSHCluster.__init__] *)
Definition __init__ (self : nat) (a : init_args) : M unit :=
  setattr self "scheduler_addr" (a_scheduler_addr a) ;;
  setattr self "scheduler_port" (a_scheduler_port a) ;;
  setattr self "nthreads" (a_nthreads a) ;;
  let nprocs := default PNone (kw_get "nprocs" (a_kwargs a)) in
  let kwargs := kw_del "nprocs" (a_kwargs a) in
  (match kwargs with
   | [] => ret tt
   | _ :: _ =>
       raise (TypeError ("__init__() got an unexpected keyword argument "
                         +:+ join ", " (map fst kwargs)))
   end) ;;
  n_workers ← resolve_n_workers nprocs (a_n_workers a);
  setattr self "n_workers" n_workers ;;
  setattr self "ssh_username" (a_ssh_username a) ;;
  setattr self "ssh_port" (a_ssh_port a) ;;
  setattr self "ssh_private_key" (a_ssh_private_key a) ;;
  setattr self "nohost" (a_nohost a) ;;
  setattr self "remote_python" (a_remote_python a) ;;
  setattr self "memory_limit" (a_memory_limit a) ;;
  setattr self "worker_port" (a_worker_port a) ;;
  setattr self "nanny_port" (a_nanny_port a) ;;
  setattr self "remote_dask_worker" (a_remote_dask_worker a) ;;
  setattr self "local_directory" (a_local_directory a) ;;
  logdir ← resolve_logdir (a_logdir a);
  setattr self "logdir" logdir ;;
  set_threads_attr self [] ;;
  scheduler ← start_scheduler logdir (a_scheduler_addr a) (a_scheduler_port a)
                (a_ssh_username a) (a_ssh_port a) (a_ssh_private_key a)
                (a_remote_python a);
  set_scheduler self scheduler ;;
  set_workers self [] ;;
  for_each (a_worker_addrs a) (λ addr, add_worker self addr).

(** The call [SSHCluster(...)]: a new object, initialised by [__init__]. *)
Definition SSHCluster (a : init_args) : M nat :=
  self ← object_new;
  __init__ self a ;;
  ret self.

(** The [nprocs] property. *)
Definition nprocs_get (self : nat) : M pyval :=
  warn nprocs_notice_attr "FutureWarning" ;;
  getattr self "n_workers".

Definition nprocs_set (self : nat) (value : pyval) : M unit :=
  warn nprocs_notice_attr "FutureWarning" ;;
  setattr self "n_workers" value.

(** [SSHCluster.shutdown] *)
Definition shutdown (self : nat) : M unit :=
  scheduler ← get_scheduler self;
  workers ← get_workers self;
  let all_processes := [scheduler] ++ workers in
  for_each all_processes (λ process,
    Queue_put (cd_input_queue (p_dict process)) "shutdown" ;;
    Thread_join (p_thread process)).

Definition __enter__ (self : nat) : M nat := ret self.

(** [__exit__(self, *args)]: [args] is [None] for the triple of [None]
    passed on a normal exit, and [Some e] for the triple describing the
    exception [e]. The method returns [None]. *)
Definition __exit__ (self : nat) (args : option exn) : M pyval :=
  shutdown self ;;
  ret PNone.

(** The statement [with mgr as v: body]. *)
Definition with_statement {A} (mgr : nat) (body : nat → M A) : M (option A) :=
  v ← __enter__ mgr;
  outcome ← catch (body v);
  match outcome with
  | Ok a =>
      __exit__ mgr None ;;
      ret (Some a)
  | Raise e =>
      suppress ← __exit__ mgr (Some e);
      if truthy suppress then ret None else raise e
  end.

End Cluster.
Export Cluster.

(** ** Remote command runner: [async_ssh] *)

Module Runner.

(** What one call of [ssh.connect] does. *)
Inductive connect_outcome : Type :=
| ConnectOk
| ConnectSSHError (msg : string)      (* SSHException, PasswordRequiredException *)
| ConnectOtherError (name : string).  (* any other exception *)

(** What the runner does to the SSH client, the console and the clock. *)
Inductive action : Type :=
| ActHostKeyPolicy (policy : string)
| ActLogLevel (logger level : string)
| ActConnect (hostname username port key_filename : pyval)
             (compress : bool) (timeout banner_timeout : Z)
| ActPrint (line : string)
| ActPrintExc
| ActSleep (seconds : Q)
| ActExecCommand (command : string) (get_pty : bool)
| ActSetTimeout (seconds : Q)
| ActSendIgnore
| ActSend (data : string)
| ActChannelClose
| ActSSHClose.

(** How the thread stops other than by returning. *)
Inductive ending : Type :=
| ProcessExit (status : Z)       (* os._exit(status) *)
| Uncaught (name : string).      (* an exception leaves [async_ssh] *)

Inductive outcome (A : Type) : Type :=
| Done (a : A)
| Stop (e : ending)
| OutOfFuel.
Arguments Done {A} a.
Arguments Stop {A} e.
Arguments OutOfFuel {A}.

(** The surroundings of one runner.  The first six fields say what the
    calls to come will answer: [connects] the calls of [ssh.connect],
    [stdout] and [stderr] the calls of [readline] ([None] is a
    [PipeTimeout] or [socket.timeout], [Some ""] the end of the stream,
    and a request past the end of the list times out), [exits] the calls
    of [exit_status_ready] with the status once it is ready, [inputs] the
    calls of [input_queue.empty] and [clock] the calls of [time].  The
    last two fields record what the runner has put on its output queue
    and what it has done. *)
Record remote : Type := {
  connects : nat → connect_outcome;
  stdout : list (option string);
  stderr : list (option string);
  exits : nat → option Z;
  inputs : nat → bool;
  clock : nat → Q;
  output_queue : list string;
  actions : list action }.

Definition R (A : Type) : Type := remote → outcome A * remote.

#[export] Instance R_ret : MRet R := λ A a r, (Done a, r).
#[export] Instance R_bind : MBind R :=
  λ A B k m r, match m r with
               | (Done a, r') => k a r'
               | (Stop e, r') => (Stop e, r')
               | (OutOfFuel, r') => (OutOfFuel, r')
               end.

Definition stop {A} (e : ending) : R A := λ r, (Stop e, r).
Definition out_of_fuel {A} : R A := λ r, (OutOfFuel, r).

(** The changes of the surroundings. *)
Definition log (a : action) (r : remote) : remote :=
  {| connects := connects r; stdout := stdout r; stderr := stderr r;
     exits := exits r; inputs := inputs r; clock := clock r;
     output_queue := output_queue r; actions := actions r ++ [a] |}.

Definition next {A} (f : nat → A) : nat → A := λ n, f (S n).

Definition connect_answered (r : remote) : remote :=
  {| connects := next (connects r); stdout := stdout r; stderr := stderr r;
     exits := exits r; inputs := inputs r; clock := clock r;
     output_queue := output_queue r; actions := actions r |}.

Definition exit_answered (r : remote) : remote :=
  {| connects := connects r; stdout := stdout r; stderr := stderr r;
     exits := next (exits r); inputs := inputs r; clock := clock r;
     output_queue := output_queue r; actions := actions r |}.

Definition input_answered (r : remote) : remote :=
  {| connects := connects r; stdout := stdout r; stderr := stderr r;
     exits := exits r; inputs := next (inputs r); clock := clock r;
     output_queue := output_queue r; actions := actions r |}.

Definition clock_answered (r : remote) : remote :=
  {| connects := connects r; stdout := stdout r; stderr := stderr r;
     exits := exits r; inputs := inputs r; clock := next (clock r);
     output_queue := output_queue r; actions := actions r |}.

Definition enqueued (item : string) (r : remote) : remote :=
  {| connects := connects r; stdout := stdout r; stderr := stderr r;
     exits := exits r; inputs := inputs r; clock := clock r;
     output_queue := output_queue r ++ [item]; actions := actions r |}.

Definition act (a : action) : R unit := λ r, (Done tt, log a r).

Definition connect_answer : R connect_outcome :=
  λ r, (Done (connects r 0), connect_answered r).

(** [ssh.connect(...)] with the arguments of [async_ssh]. *)
Definition ssh_connect (d : cmd_dict) : R connect_outcome :=
  act (ActConnect (cd_address d) (cd_ssh_username d) (cd_ssh_port d)
         (cd_ssh_private_key d) true 30 30) ;;
  connect_answer.

(** [channel.exit_status_ready()] followed, when ready, by
    [channel.recv_exit_status()]. *)
Definition exit_status_ready : R (option Z) :=
  λ r, (Done (exits r 0), exit_answered r).

(** [cmd_dict["input_queue"].empty()] *)
Definition input_queue_empty : R bool :=
  λ r, (Done (inputs r 0), input_answered r).

(** [time()] *)
Definition time : R Q :=
  λ r, (Done (clock r 0), clock_answered r).

(** [cmd_dict["output_queue"].put(item)] *)
Definition put (item : string) : R unit := λ r, (Done tt, enqueued item r).

Definition of_result {A} (x : result A) : R A :=
  match x with
  | Ok a => mret a
  | Raise (TypeError _) => stop (Uncaught "TypeError")
  | Raise (ValueError _) => stop (Uncaught "ValueError")
  | Raise (KeyError _) => stop (Uncaught "KeyError")
  | Raise (AttributeError _) => stop (Uncaught "AttributeError")
  end.

(** The connection loop of [async_ssh]; [retries] is the counter of the
    source. *)
Fixpoint connect_loop (fuel : nat) (d : cmd_dict) (retries : nat) : R unit :=
  match fuel with
  | 0 => out_of_fuel
  | S fuel' =>
      act (ActLogLevel "paramiko" "WARN") ;;
      connected ← ssh_connect d;
      match connected with
      | ConnectOk => mret tt
      | ConnectOtherError name => stop (Uncaught name)
      | ConnectSSHError e =>
          act (ActPrint ("[ dask-ssh ] : " +:+ bcolors.FAIL
                         +:+ "SSH connection error when connecting to "
                         +:+ py_str (cd_address d) +:+ ":" +:+ py_str (cd_ssh_port d)
                         +:+ " to run '" +:+ cd_cmd d +:+ "'"
                         +:+ bcolors.ENDC)) ;;
          act (ActPrint (bcolors.FAIL
                         +:+ "               SSH reported this exception: "
                         +:+ e +:+ bcolors.ENDC)) ;;
          act ActPrintExc ;;
          let retries := retries + 1 in
          if 3 <=? retries then
            act (ActPrint ("[ dask-ssh ] : " +:+ bcolors.FAIL
                           +:+ "SSH connection failed after 3 retries. Exiting."
                           +:+ bcolors.ENDC)) ;;
            stop (ProcessExit 1)
          else
            act (ActPrint ("               " +:+ bcolors.FAIL
                           +:+ "Retrying... (attempt "
                           +:+ py_str (PInt (Z.of_nat retries)) +:+ "/3)"
                           +:+ bcolors.ENDC)) ;;
            act (ActSleep 1) ;;
            connect_loop fuel' d retries
      end
  end.

(** The item put on the output queue for a line of stdout. *)
Definition stdout_entry (d : cmd_dict) (line : string) : result string :=
  format "[ {label} ] : {output}"
    [("label", PStr (cd_label d)); ("output", PStr line)].

(** The item put on the output queue for a line of stderr. *)
Definition stderr_entry (d : cmd_dict) (line : string) : result string :=
  rbind (format "[ {label} ] : " [("label", PStr (cd_label d))])
    (λ tag, Ok (tag +:+ bcolors.FAIL +:+ line +:+ bcolors.ENDC)).

(** The loop shared by [read_from_stdout] and [read_from_stderr]: read
    lines until one is empty or the read times out. *)
Fixpoint read_lines (entry : string → result string)
    (stream : list (option string)) (out : list string)
  : result unit * list (option string) * list string :=
  match stream with
  | [] => (Ok tt, [], out)
  | None :: rest => (Ok tt, rest, out)
  | Some line :: rest =>
      if 0 <? String.length line then
        match entry (rstrip line) with
        | Ok item => read_lines entry rest (out ++ [item])
        | Raise e => (Raise e, rest, out)
        end
      else (Ok tt, rest, out)
  end.

Definition read_from_stdout (d : cmd_dict) : R unit :=
  λ r, match read_lines (stdout_entry d) (stdout r) (output_queue r) with
       | (res, stream, out) =>
           of_result res
             {| connects := connects r; stdout := stream; stderr := stderr r;
                exits := exits r; inputs := inputs r; clock := clock r;
                output_queue := out; actions := actions r |}
       end.

Definition read_from_stderr (d : cmd_dict) : R unit :=
  λ r, match read_lines (stderr_entry d) (stderr r) (output_queue r) with
       | (res, stream, out) =>
           of_result res
             {| connects := connects r; stdout := stdout r; stderr := stream;
                exits := exits r; inputs := inputs r; clock := clock r;
                output_queue := out; actions := actions r |}
       end.

(** The item put on the output queue when the remote command has ended. *)
Definition exit_entry (d : cmd_dict) (exit_status : Z) : result string :=
  rbind (format "[ {label} ] : " [("label", PStr (cd_label d))])
    (λ tag, Ok (tag +:+ bcolors.FAIL
                +:+ "remote process exited with exit status "
                +:+ py_str (PInt exit_status) +:+ bcolors.ENDC)).

(** [communicate()]: true when the command has ended. *)
Definition communicate (d : cmd_dict) : R bool :=
  read_from_stdout d ;;
  read_from_stderr d ;;
  ready ← exit_status_ready;
  match ready with
  | Some exit_status =>
      item ← of_result (exit_entry d exit_status);
      put item ;;
      mret true
  | None => mret false
  end.

(** [while cmd_dict["input_queue"].empty(): ...] *)
Fixpoint wait_loop (fuel : nat) (d : cmd_dict) : R unit :=
  match fuel with
  | 0 => out_of_fuel
  | S fuel' =>
      empty ← input_queue_empty;
      if empty : bool then
        act (ActSleep 1) ;;
        act ActSendIgnore ;;
        ended ← communicate d;
        if ended : bool then mret tt else wait_loop fuel' d
      else mret tt
  end.

(** [while time() < start + 5.0: ...] *)
Fixpoint interrupt_loop (fuel : nat) (d : cmd_dict) (start : Q) : R unit :=
  match fuel with
  | 0 => out_of_fuel
  | S fuel' =>
      now ← time;
      if negb (Qle_bool (start + 5) now) then
        act (ActSend (String (ascii_of_nat 3) "")) ;;
        ended ← communicate d;
        if ended : bool then mret tt
        else act (ActSleep 1) ;; interrupt_loop fuel' d start
      else mret tt
  end.

(** What [async_ssh] does once it is connected. *)
Definition run_command (fuel : nat) (d : cmd_dict) : R unit :=
  act (ActPrint ("[ " +:+ cd_label d +:+ " ] : " +:+ cd_cmd d)) ;;
  act (ActExecCommand ("$SHELL -i -c '" +:+ cd_cmd d +:+ "'") true) ;;
  act (ActSetTimeout (1 # 10)) ;;
  wait_loop fuel d ;;
  start ← time;
  interrupt_loop fuel d start ;;
  act ActChannelClose ;;
  act ActSSHClose.

(** [async_ssh(cmd_dict)]; each loop may run [fuel] times. *)
Definition async_ssh (fuel : nat) (d : cmd_dict) : R unit :=
  act (ActHostKeyPolicy "AutoAddPolicy") ;;
  connect_loop fuel d 0 ;;
  run_command fuel d.

End Runner.
Export Runner.

(** ** Vocabulary of the properties *)

Module Spec.

(** A word of a command line that is a long option. *)
Definition is_option (t : string) : bool :=
  match t with
  | String a (String b _) => Ascii.eqb a "-" && Ascii.eqb b "-"
  | _ => false
  end.

Definition starts_dash (t : string) : bool :=
  match t with
  | String a _ => Ascii.eqb a "-"
  | EmptyString => false
  end.

Fixpoint no_space (s : string) : bool :=
  match s with
  | EmptyString => true
  | String c t => negb (Ascii.eqb c " ") && no_space t
  end.

(** A value that makes one word of a command line and is not taken for a
    long option. *)
Definition word_ok (s : string) : bool := no_space s && negb (is_option s).

(** The long options of a command line, in order. *)
Definition options (cmd : string) : list string :=
  List.filter is_option (split_space cmd).

(** The flag is a word of the command line. *)
Definition has_flag (flag cmd : string) : Prop := In flag (split_space cmd).

(** A parameter was given a value. *)
Definition provided (v : pyval) : Prop := v ≠ PNone.

(** The directory creation and the redirection put around a command when
    a log directory is set; [name] is the part of the log file name after
    [dask_scheduler_]. *)
Definition wrap_log (logdir : pyval) (name cmd : string) : string :=
  if is_none logdir then cmd
  else "mkdir -p " +:+ py_str logdir +:+ " && " +:+ cmd
       +:+ "&> " +:+ py_str logdir +:+ "/dask_scheduler_" +:+ name +:+ ".log".

(** The interpreter of a launch command. *)
Definition python_of (executable : string) (remote_python : pyval) : string :=
  py_str (py_or remote_python (PStr executable)).

Definition scheduler_core (executable : string) (port remote_python : pyval) : string :=
  python_of executable remote_python
  +:+ " -m distributed.cli.dask_scheduler --port " +:+ py_str port.

(** The scheduler command as the specification words it: the redirection
    is set off from the command by a space. *)
Definition scheduler_cmd_as_claimed (executable : string)
    (logdir addr port remote_python : pyval) : string :=
  if is_none logdir then scheduler_core executable port remote_python
  else "mkdir -p " +:+ py_str logdir +:+ " && "
       +:+ scheduler_core executable port remote_python
       +:+ " &> " +:+ py_str logdir +:+ "/dask_scheduler_"
       +:+ py_str addr +:+ ":" +:+ py_str port +:+ ".log".

(** The part of the worker command that is always there. *)
Definition worker_core (executable : string) (p : worker_params) : string :=
  python_of executable (remote_python p)
  +:+ " -m " +:+ py_str (remote_dask_worker p)
  +:+ " " +:+ py_str (scheduler_addr p) +:+ ":" +:+ py_str (scheduler_port p)
  +:+ " --nthreads " +:+ py_str (nthreads p).

Definition flag_if (present : bool) (flag : string) (value : pyval)
  : list (string * pyval) :=
  if present then [(flag, value)] else [].

(** The optional flags of the worker command with their values. *)
Definition worker_flags (p : worker_params) : list (string * pyval) :=
  flag_if (py_ne (n_workers p) (PInt 1)) "--nworkers" (n_workers p)
  ++ flag_if (negb (truthy (nohost p))) "--host" (worker_addr p)
  ++ flag_if (truthy (memory_limit p)) "--memory-limit" (memory_limit p)
  ++ flag_if (truthy (worker_port p)) "--worker-port" (worker_port p)
  ++ flag_if (truthy (nanny_port p)) "--nanny-port" (nanny_port p)
  ++ flag_if (negb (is_none (local_directory p))) "--local-directory" (local_directory p).

Fixpoint render_flags (flags : list (string * pyval)) : string :=
  match flags with
  | [] => ""
  | (flag, value) :: rest =>
      " " +:+ flag +:+ " " +:+ py_str value +:+ render_flags rest
  end.

(** The texts that the worker command is made of. *)
Definition worker_texts (executable : string) (p : worker_params) : list string :=
  [ python_of executable (remote_python p);
    py_str (remote_dask_worker p);
    py_str (scheduler_addr p);
    py_str (scheduler_port p);
    py_str (worker_addr p);
    py_str (nthreads p);
    py_str (n_workers p);
    py_str (memory_limit p);
    py_str (worker_port p);
    py_str (nanny_port p);
    py_str (local_directory p);
    py_str (logdir p) ].

(** Valid worker parameters: each text is one word and no long option. *)
Definition valid_worker (executable : string) (p : worker_params) : Prop :=
  Forall (λ s, word_ok s = true) (worker_texts executable p).

(** The presence of the worker flags as the specification words it. *)
Definition worker_flags_as_claimed (p : worker_params) (cmd : string) : Prop :=
  (has_flag "--nworkers" cmd ↔ py_ne (n_workers p) (PInt 1) = true)
  ∧ (¬ has_flag "--host" cmd ↔ truthy (nohost p) = true)
  ∧ (has_flag "--memory-limit" cmd ↔ provided (memory_limit p))
  ∧ (has_flag "--worker-port" cmd ↔ provided (worker_port p))
  ∧ (has_flag "--nanny-port" cmd ↔ provided (nanny_port p))
  ∧ (has_flag "--local-directory" cmd ↔ provided (local_directory p)).

(** The presence of the worker flags as [start_worker] decides it. *)
Definition worker_flags_as_built (p : worker_params) (cmd : string) : Prop :=
  (has_flag "--nworkers" cmd ↔ py_ne (n_workers p) (PInt 1) = true)
  ∧ (¬ has_flag "--host" cmd ↔ truthy (nohost p) = true)
  ∧ (has_flag "--memory-limit" cmd ↔ truthy (memory_limit p) = true)
  ∧ (has_flag "--worker-port" cmd ↔ truthy (worker_port p) = true)
  ∧ (has_flag "--nanny-port" cmd ↔ truthy (nanny_port p) = true)
  ∧ (has_flag "--local-directory" cmd ↔ provided (local_directory p)).

(** ** The words of the worker command *)

(** [toks] with [sfx] written right after its last word. *)
Fixpoint glue (toks : list string) (sfx : string) : list string :=
  match toks with
  | [] => [sfx]
  | [t] => [t +:+ sfx]
  | t :: rest => t :: glue rest sfx
  end.

(** The words that a list of flags with their values contributes. *)
Definition flag_tokens (flags : list (string * pyval)) : list string :=
  flat_map (λ fv, [fv.1; py_str fv.2]) flags.

(** The words of the part of the worker command that is always there. *)
Definition worker_base_tokens (executable : string) (p : worker_params) : list string :=
  [ python_of executable (remote_python p); "-m"; py_str (remote_dask_worker p);
    py_str (scheduler_addr p) +:+ ":" +:+ py_str (scheduler_port p);
    "--nthreads"; py_str (nthreads p) ].

(** The words of a command inside the directory creation and redirection. *)
Definition wrap_tokens (logdir : pyval) (name : string) (toks : list string) : list string :=
  if is_none logdir then toks
  else ["mkdir"; "-p"; py_str logdir; "&&"] ++ glue toks "&>"
       ++ [py_str logdir +:+ "/dask_scheduler_" +:+ name +:+ ".log"].

(** The words of the worker command before the log directory is applied. *)
Definition worker_inner (executable : string) (p : worker_params) : list string :=
  worker_base_tokens executable p ++ flag_tokens (worker_flags p).

(** The words of the worker command. *)
Definition worker_tokens (executable : string) (p : worker_params) : list string :=
  wrap_tokens (logdir p) (py_str (worker_addr p)) (worker_inner executable p).

(** The flags of [worker_flags] with what validity says about their values. *)
Definition flag_ok (fv : string * pyval) : Prop :=
  is_option fv.1 = true ∧ no_space fv.1 = true ∧ word_ok (py_str fv.2) = true.

End Spec.
Export Spec.

(** ** Vocabulary of the properties of the runner *)

Module RunnerSpec.

(** The steps of a run that the connection policy is about. *)
Inductive step : Type :=
| Attempt              (* a call of [ssh.connect] *)
| Wait (seconds : Q)   (* a call of [sleep] *)
| Execute.             (* the call of [ssh.exec_command] *)

Definition steps (acts : list action) : list step :=
  flat_map (λ a, match a with
                 | ActConnect _ _ _ _ _ _ _ => [Attempt]
                 | ActSleep s => [Wait s]
                 | ActExecCommand _ _ => [Execute]
                 | _ => []
                 end) acts.

(** [k] failed attempts, each followed by a wait of 1, and one more
    attempt. *)
Definition retried (k : nat) : list step :=
  concat (replicate k [Attempt; Wait 1]) ++ [Attempt].

(** The first [k] calls of [ssh.connect] fail with an SSH error. *)
Definition ssh_failures (r : remote) (k : nat) : Prop :=
  ∀ i, i < k → ∃ e, connects r i = ConnectSSHError e.

(** A text tagged with the label of its process. *)
Definition tagged (label text : string) : string :=
  "[ " +:+ label +:+ " ] : " +:+ text.

(** A text wrapped in the failure colour. *)
Definition marked (text : string) : string :=
  bcolors.FAIL +:+ text +:+ bcolors.ENDC.

(** The lines that one call of [read_from_stdout] or [read_from_stderr]
    gets: those before the first timeout or empty line. *)
Fixpoint available (stream : list (option string)) : list string :=
  match stream with
  | Some line :: rest =>
      if 0 <? String.length line then line :: available rest else []
  | _ => []
  end.

Fixpoint all_space (s : string) : bool :=
  match s with
  | EmptyString => true
  | String c t => is_space c && all_space t
  end.

Fixpoint ends_with_space (s : string) : bool :=
  match s with
  | EmptyString => false
  | String c EmptyString => is_space c
  | String _ t => ends_with_space t
  end.

(** [s] is [line] without its trailing whitespace. *)
Definition stripped (line s : string) : Prop :=
  ∃ ws, line = s +:+ ws ∧ all_space ws = true ∧ ends_with_space s = false.

End RunnerSpec.
Export RunnerSpec.

(** ** Vocabulary of the properties of the cluster *)

Module ClusterSpec.

(** The launch parameters that a cluster object has stored, for a worker at
    [address], with the three SSH credentials. *)
Definition stored_params (c : cluster) (address : pyval)
  : option (worker_params * (pyval * pyval * pyval)) :=
  match attr c "logdir", attr c "scheduler_addr", attr c "scheduler_port",
        attr c "nthreads", attr c "n_workers" with
  | Some logdir, Some scheduler_addr, Some scheduler_port,
    Some nthreads, Some n_workers =>
      match attr c "ssh_username", attr c "ssh_port", attr c "ssh_private_key",
            attr c "nohost", attr c "memory_limit" with
      | Some ssh_username, Some ssh_port, Some ssh_private_key,
        Some nohost, Some memory_limit =>
          match attr c "worker_port", attr c "nanny_port", attr c "remote_python",
                attr c "remote_dask_worker", attr c "local_directory" with
          | Some worker_port, Some nanny_port, Some remote_python,
            Some remote_dask_worker, Some local_directory =>
              Some ({| logdir := logdir;
                       scheduler_addr := scheduler_addr;
                       scheduler_port := scheduler_port;
                       worker_addr := address;
                       nthreads := nthreads;
                       n_workers := n_workers;
                       nohost := nohost;
                       memory_limit := memory_limit;
                       worker_port := worker_port;
                       nanny_port := nanny_port;
                       remote_python := remote_python;
                       remote_dask_worker := remote_dask_worker;
                       local_directory := local_directory |},
                    (ssh_username, ssh_port, ssh_private_key))
          | _, _, _, _, _ => None
          end
      | _, _, _, _, _ => None
      end
  | _, _, _, _, _ => None
  end.

(** The thread object of a launched process. *)
Definition launched_thread (d : cmd_dict) : thread :=
  {| th_args := d; th_daemon := true; th_started := true; th_joined := false |}.

(** The handle of the worker launched for [address] from the parameters
    [p], when the store holds [nq] queues and [nt] threads. *)
Definition worker_handle (cmd : string) (p : worker_params)
    (ssh : pyval * pyval * pyval) (nq nt : nat) : process :=
  {| p_dict := {| cd_cmd := cmd;
                  cd_label := "worker " +:+ py_str (worker_addr p);
                  cd_address := worker_addr p;
                  cd_port := None;
                  cd_input_queue := nq;
                  cd_output_queue := S nq;
                  cd_ssh_username := ssh.1.1;
                  cd_ssh_port := ssh.1.2;
                  cd_ssh_private_key := ssh.2 |};
     p_thread := nt |}.

(** What [shutdown] does to one handle. *)
Definition shutdown_events (p : process) : list event :=
  [EvQueuePut (cd_input_queue (p_dict p)) "shutdown"; EvThreadJoin (p_thread p)].

(** The launches recorded in a trace. *)
Definition launches (trace : list event) : list nat :=
  flat_map (λ e, match e with EvThreadStart t => [t] | _ => [] end) trace.

(** The handle of the scheduler launched when the store holds [nq] queues
    and [nt] threads. *)
Definition scheduler_handle (cmd : string) (addr port : pyval)
    (ssh : pyval * pyval * pyval) (nq nt : nat) : process :=
  {| p_dict := {| cd_cmd := cmd;
                  cd_label := bcolors.BOLD +:+ "scheduler " +:+ py_str addr +:+ ":"
                              +:+ py_str port +:+ bcolors.ENDC;
                  cd_address := addr;
                  cd_port := Some port;
                  cd_input_queue := nq;
                  cd_output_queue := S nq;
                  cd_ssh_username := ssh.1.1;
                  cd_ssh_port := ssh.1.2;
                  cd_ssh_private_key := ssh.2 |};
     p_thread := nt |}.

(** The store after a launch: two new queues, and one new thread that is a
    started daemon. *)
Definition launched (d : cmd_dict) (w : world) : world :=
  {| w_executable := w_executable w; w_now := w_now w;
     w_queues := w_queues w ++ [[]; []];
     w_threads := w_threads w ++ [launched_thread d];
     w_objects := w_objects w;
     w_trace := w_trace w ++ [EvThreadStart (length (w_threads w))] |}.

(** The store after [shutdown] has handled the processes [ps] in turn. *)
Fixpoint shut_down (ps : list process) (w : world) : world :=
  match ps with
  | [] => w
  | p :: rest =>
      shut_down rest
        (emit (EvThreadJoin (p_thread p))
           (set_threads (alter (λ th, {| th_args := th_args th; th_daemon := th_daemon th;
                                         th_started := th_started th;
                                         th_joined := true |}) (p_thread p))
              (emit (EvQueuePut (cd_input_queue (p_dict p)) "shutdown")
                 (set_queues (alter (λ items, items ++ ["shutdown"])
                                (cd_input_queue (p_dict p))) w))))
  end.

(** The attributes that [__init__] has assigned when it reaches the launch
    of the scheduler. *)
Definition initial_attrs (a : init_args) (n_workers logdir : pyval) : gmap string pyval :=
  <["logdir" := logdir]>
  (<["local_directory" := a_local_directory a]>
  (<["remote_dask_worker" := a_remote_dask_worker a]>
  (<["nanny_port" := a_nanny_port a]>
  (<["worker_port" := a_worker_port a]>
  (<["memory_limit" := a_memory_limit a]>
  (<["remote_python" := a_remote_python a]>
  (<["nohost" := a_nohost a]>
  (<["ssh_private_key" := a_ssh_private_key a]>
  (<["ssh_port" := a_ssh_port a]>
  (<["ssh_username" := a_ssh_username a]>
  (<["n_workers" := n_workers]>
  (<["nthreads" := a_nthreads a]>
  (<["scheduler_port" := a_scheduler_port a]>
  (<["scheduler_addr" := a_scheduler_addr a]> ∅)))))))))))))).

(** The parameters of the worker that a cluster built from [a] launches
    for [address]. *)
Definition initial_params (a : init_args) (n_workers logdir address : pyval) : worker_params :=
  {| logdir := logdir;
     scheduler_addr := a_scheduler_addr a;
     scheduler_port := a_scheduler_port a;
     worker_addr := address;
     nthreads := a_nthreads a;
     n_workers := n_workers;
     nohost := a_nohost a;
     memory_limit := a_memory_limit a;
     worker_port := a_worker_port a;
     nanny_port := a_nanny_port a;
     remote_python := a_remote_python a;
     remote_dask_worker := a_remote_dask_worker a;
     local_directory := a_local_directory a |}.

(** The SSH credentials that a cluster built from [a] launches with. *)
Definition initial_ssh (a : init_args) : pyval * pyval * pyval :=
  (a_ssh_username a, a_ssh_port a, a_ssh_private_key a).

(** The workers launched one after the other for [addrs], from a store with
    [nq] queues and [nt] threads. *)
Fixpoint worker_handles (exe : string) (params : pyval → worker_params)
    (ssh : pyval * pyval * pyval) (addrs : list pyval) (nq nt : nat) : list process :=
  match addrs with
  | [] => []
  | addr :: rest =>
      match worker_cmd exe (params addr) with
      | Ok cmd => worker_handle cmd (params addr) ssh nq nt
                  :: worker_handles exe params ssh rest (S (S nq)) (S nt)
      | Raise _ => []
      end
  end.

(** The worker count that [__init__] settles on. *)
Definition effective_n_workers (nprocs n_workers : pyval) : pyval :=
  if negb (is_none nprocs) then nprocs
  else if is_none n_workers then PInt 1 else n_workers.

(** The deprecation notice issued when [nprocs] is given. *)
Definition n_workers_notice (nprocs : pyval) : list event :=
  if negb (is_none nprocs) then [EvWarn "FutureWarning" nprocs_notice_init] else [].

(** The log directory that [__init__] settles on, with what it prints. *)
Definition resolved_logdir (now : string) (logdir : pyval) : option (pyval * list event) :=
  match logdir with
  | PNone => Some (PNone, [])
  | PStr s =>
      let path := path_join s ("dask-ssh_" +:+ now) in
      Some (PStr path,
            [EvPrint (bcolors.WARNING
                      +:+ "Output will be redirected to logfiles stored locally on "
                      +:+ "individual worker nodes under " +:+ dquote +:+ path +:+ dquote
                      +:+ "." +:+ bcolors.ENDC)])
  | _ => None
  end.

(** The store with the events [evs] added to its trace. *)
Definition emit_all (evs : list event) (w : world) : world :=
  {| w_executable := w_executable w; w_now := w_now w;
     w_queues := w_queues w; w_threads := w_threads w;
     w_objects := w_objects w; w_trace := w_trace w ++ evs |}.

(** The cluster object when [__init__] looks at the keyword arguments. *)
Definition early_cluster (a : init_args) : cluster :=
  {| c_attrs := <["nthreads" := a_nthreads a]>
                  (<["scheduler_port" := a_scheduler_port a]>
                     (<["scheduler_addr" := a_scheduler_addr a]> ∅));
     c_threads := None; c_scheduler := None; c_workers := None |}.

(** The keywords left once [nprocs] has been popped. *)
Definition unexpected_keywords (a : init_args) : list string :=
  map fst (kw_del "nprocs" (a_kwargs a)).

(** [kwargs.pop("nprocs", None)] *)
Definition nprocs_of (a : init_args) : pyval :=
  default PNone (kw_get "nprocs" (a_kwargs a)).

(** The cluster object that a successful [__init__] leaves. *)
Definition built_cluster (a : init_args) (exe cmd : string) (ld : pyval) (nq nt : nat)
  : cluster :=
  let nw := effective_n_workers (nprocs_of a) (a_n_workers a) in
  {| c_attrs := initial_attrs a nw ld;
     c_threads := Some [];
     c_scheduler := Some (scheduler_handle cmd (a_scheduler_addr a) (a_scheduler_port a)
                            (initial_ssh a) nq nt);
     c_workers := Some (worker_handles exe (initial_params a nw ld) (initial_ssh a)
                          (a_worker_addrs a) (S (S nq)) (S nt)) |}.

(** A log directory that [os.path.join] accepts, or none. *)
Definition is_path_or_none (v : pyval) : bool :=
  match v with PNone | PStr _ => true | _ => false end.

End ClusterSpec.
Export ClusterSpec.

(** ** Inputs used by the examples *)

Module Examples.

(** A worker whose memory limit is given as 0. *)
Definition worker_zero_limit : worker_params :=
  {| logdir := PNone;
     scheduler_addr := PStr "10.0.0.1";
     scheduler_port := PInt 8786;
     worker_addr := PStr "10.0.0.2";
     nthreads := PInt 2;
     n_workers := PInt 4;
     nohost := PBool false;
     memory_limit := PInt 0;
     worker_port := PNone;
     nanny_port := PNone;
     remote_python := PNone;
     remote_dask_worker := PStr "distributed.cli.dask_worker";
     local_directory := PNone |}.

(** A worker with every optional parameter given, logging to a directory. *)
Definition worker_full : worker_params :=
  {| logdir := PStr "/var/log/dask";
     scheduler_addr := PStr "10.0.0.1";
     scheduler_port := PInt 8786;
     worker_addr := PStr "10.0.0.2";
     nthreads := PInt 2;
     n_workers := PInt 4;
     nohost := PBool false;
     memory_limit := PStr "4GB";
     worker_port := PInt 9000;
     nanny_port := PInt 9001;
     remote_python := PStr "/opt/conda/bin/python";
     remote_dask_worker := PStr "distributed.cli.dask_worker";
     local_directory := PStr "/scratch" |}.

Definition local_python : string := "/usr/bin/python3".

(** The descriptor of a worker on 10.0.0.2. *)
Definition worker_dict : cmd_dict :=
  {| cd_cmd := "/usr/bin/python3 -m distributed.cli.dask_worker 10.0.0.1:8786 --nthreads 2";
     cd_label := "worker 10.0.0.2";
     cd_address := PStr "10.0.0.2";
     cd_port := None;
     cd_input_queue := 2;
     cd_output_queue := 3;
     cd_ssh_username := PStr "dask";
     cd_ssh_port := PInt 22;
     cd_ssh_private_key := PNone |}.

Definition newline : string := String (ascii_of_nat 10) "".

(** A line that the remote command prints in the failure colour. *)
Definition coloured_line : string :=
  bcolors.FAIL +:+ "error: disk full" +:+ bcolors.ENDC +:+ newline.

Definition plain_line : string := "error: disk full" +:+ newline.

(** A remote command with one line ready on stdout, and one with one line
    ready on stderr. *)
Definition printing_on_stdout (line : string) : remote :=
  {| connects := λ _, ConnectOk;
     stdout := [Some line]; stderr := [];
     exits := λ _, None; inputs := λ _, true; clock := λ n, inject_Z (Z.of_nat n);
     output_queue := []; actions := [] |}.

Definition printing_on_stderr (line : string) : remote :=
  {| connects := λ _, ConnectOk;
     stdout := []; stderr := [Some line];
     exits := λ _, None; inputs := λ _, true; clock := λ n, inject_Z (Z.of_nat n);
     output_queue := []; actions := [] |}.

(** A host that fails the first connection with an SSH error and accepts the
    second, and a host that cannot be reached. *)
Definition flaky_host : remote :=
  {| connects := λ n, match n with
                      | 0 => ConnectSSHError "Error reading SSH protocol banner"
                      | _ => ConnectOk
                      end;
     stdout := []; stderr := [];
     exits := λ _, None; inputs := λ _, true; clock := λ n, inject_Z (Z.of_nat n);
     output_queue := []; actions := [] |}.

Definition unreachable_host : remote :=
  {| connects := λ _, ConnectOtherError "socket.timeout";
     stdout := []; stderr := [];
     exits := λ _, None; inputs := λ _, true; clock := λ n, inject_Z (Z.of_nat n);
     output_queue := []; actions := [] |}.

(** A host that refuses every connection. *)
Definition refusing_host : remote :=
  {| connects := λ _, ConnectSSHError "Authentication failed.";
     stdout := []; stderr := [];
     exits := λ _, None; inputs := λ _, true; clock := λ n, inject_Z (Z.of_nat n);
     output_queue := []; actions := [] |}.

(** An empty store on a machine whose interpreter is [local_python]. *)
Definition initial_world : world :=
  {| w_executable := local_python; w_now := "2024-01-01_00:00:00";
     w_queues := []; w_threads := []; w_objects := []; w_trace := [] |}.

(** A scheduler on 10.0.0.1 and one worker on 10.0.0.2. *)
Definition two_nodes : init_args :=
  default_args (PStr "10.0.0.1") (PInt 8786) [PStr "10.0.0.2"].

(** [a] called with [n_workers] and with the keyword arguments [kw]. *)
Definition called_with (n_workers : pyval) (kw : kwargs) (a : init_args) : init_args :=
  {| a_scheduler_addr := a_scheduler_addr a;
     a_scheduler_port := a_scheduler_port a;
     a_worker_addrs := a_worker_addrs a;
     a_nthreads := a_nthreads a;
     a_n_workers := n_workers;
     a_ssh_username := a_ssh_username a;
     a_ssh_port := a_ssh_port a;
     a_ssh_private_key := a_ssh_private_key a;
     a_nohost := a_nohost a;
     a_logdir := a_logdir a;
     a_remote_python := a_remote_python a;
     a_memory_limit := a_memory_limit a;
     a_worker_port := a_worker_port a;
     a_nanny_port := a_nanny_port a;
     a_remote_dask_worker := a_remote_dask_worker a;
     a_local_directory := a_local_directory a;
     a_kwargs := kw |}.

(** The store once the cluster of [two_nodes] runs. *)
Definition running_world : world := (SSHCluster two_nodes initial_world).2.

End Examples.
Export Examples.

(** ** Vocabulary of further properties of the runner *)

Module RunnerMore.

(** The lines of a stream that carry text: the answers of [readline] other
    than timeouts and empty lines. *)
Fixpoint text_lines (stream : list (option string)) : list string :=
  match stream with
  | [] => []
  | Some line :: rest =>
      if 0 <? String.length line then line :: text_lines rest else text_lines rest
  | None :: rest => text_lines rest
  end.

(** [k] calls of [read_from_stdout] one after the other. *)
Fixpoint read_stdout_times (k : nat) (d : cmd_dict) : R unit :=
  match k with
  | 0 => mret tt
  | S k' => read_from_stdout d ;; read_stdout_times k' d
  end.

(** The items that one call of [communicate] relays: what stdout has ready,
    then what stderr has ready. *)
Definition relayed (d : cmd_dict) (r : remote) : list string :=
  map (λ l, tagged (cd_label d) (rstrip l)) (available (stdout r))
  ++ map (λ l, tagged (cd_label d) (marked (rstrip l))) (available (stderr r)).

(** The notice of the end of the remote command. *)
Definition exit_notice (d : cmd_dict) (exit_status : Z) : string :=
  tagged (cd_label d)
    (marked ("remote process exited with exit status " +:+ py_str (PInt exit_status))).

(** The item carries the label of the descriptor. *)
Definition labelled (d : cmd_dict) (item : string) : Prop :=
  ∃ text, item = tagged (cd_label d) text.

(** What the runner does while it connects. *)
Definition connecting_action (a : action) : bool :=
  match a with
  | ActHostKeyPolicy _ | ActLogLevel _ _ | ActConnect _ _ _ _ _ _ _
  | ActPrint _ | ActPrintExc | ActSleep _ => true
  | _ => false
  end.

(** What the runner does between the start of the command and the close of
    the channel. *)
Definition session_action (a : action) : bool :=
  match a with
  | ActSleep _ | ActSendIgnore | ActSend _ => true
  | _ => false
  end.

(** The three actions that start the remote command. *)
Definition command_start (d : cmd_dict) : list action :=
  [ ActPrint ("[ " +:+ cd_label d +:+ " ] : " +:+ cd_cmd d);
    ActExecCommand ("$SHELL -i -c '" +:+ cd_cmd d +:+ "'") true;
    ActSetTimeout (1 # 10) ].

(** One idle round of the wait loop. *)
Definition idle_round : list action := [ActSleep 1; ActSendIgnore].

(** [r'] has what [r] has in the list [proj], followed by elements that
    satisfy [P]. *)
Definition extends {X} (proj : remote → list X) (P : X → Prop) (r r' : remote) : Prop :=
  ∃ new, proj r' = proj r ++ new ∧ Forall P new.

(** From [r] to [r'] the output queue has grown by items that carry the
    label, and the runner has done further actions, all of them [allowed]. *)
Definition trail (d : cmd_dict) (allowed : action → bool) (r r' : remote) : Prop :=
  extends output_queue (labelled d) r r'
  ∧ extends actions (λ a, allowed a = true) r r'.

Definition any_action (a : action) : bool := true.

(** Whatever its outcome, [m] takes a state to a state related by [Rel]. *)
Definition keeps {A} (Rel : remote → remote → Prop) (m : R A) : Prop :=
  ∀ r o r', m r = (o, r') → Rel r r'.



(** A host that accepts the connection; the command prints one line, the
    shutdown token is found at the third poll of the input queue, and the
    command ends with status 130 at the first Ctrl-C. *)
Definition stopping_host : remote :=
  {| connects := λ _, ConnectOk;
     stdout := [Some ("listening" +:+ String (ascii_of_nat 10) "")]; stderr := [];
     exits := λ n, if n <? 2 then None else Some 130%Z;
     inputs := λ n, n <? 2;
     clock := λ n, inject_Z (Z.of_nat n);
     output_queue := []; actions := [] |}.

End RunnerMore.
Export RunnerMore.

(** ** The address property and the monitor of the cluster *)

Module Monitor.

(** [v] rendered by the conversion [%d]: a number is required; [True] and
    [False] are the numbers 1 and 0. *)
Definition percent_d (v : pyval) : result string :=
  match v with
  | PInt n => Ok (py_str (PInt n))
  | PBool b => Ok (if b then "1" else "0")
  | PNone => Raise (TypeError "%d format: a real number is required, not NoneType")
  | PStr _ => Raise (TypeError "%d format: a real number is required, not str")
  end.

(** The [scheduler_address] property:
    ["%s:%d" % (self.scheduler_addr, self.scheduler_port)]. *)
Definition scheduler_address (self : nat) : M string :=
  scheduler_addr ← getattr self "scheduler_addr";
  scheduler_port ← getattr self "scheduler_port";
  lift (rbind (percent_d scheduler_port)
          (λ port, Ok (py_str scheduler_addr +:+ ":" +:+ port))).

(** The items that the queue [q] holds. *)
Definition queue_items (w : world) (q : nat) : list string :=
  default [] (w_queues w !! q).

(** [q.empty()] followed, when the queue is not empty, by [q.get()].  The
    monitor is the only reader of an output queue, so that [get] finds the
    item that [empty] has seen. *)
Definition Queue_get (q : nat) : M (option string) :=
  λ w, match queue_items w q with
       | [] => (Ok None, w)
       | item :: rest => (Ok (Some item), set_queues (<[q := rest]>) w)
       end.

(** Where [monitor_remote_processes] stands inside its sweep: before the
    test of the output queue of the first process of [todo] (before the
    sleep when [todo] is empty), or between [get] and [print] with the item
    that [get] has returned. *)
Inductive monitor_pc : Type :=
| Sweep (todo : list process)
| Got (item : string) (todo : list process).

(** One step of the loop of [monitor_remote_processes]. *)
Definition monitor_step (all_processes : list process) (pc : monitor_pc) : M monitor_pc :=
  match pc with
  | Sweep [] => ret (Sweep all_processes)          (* sleep(0.1) *)
  | Sweep (process :: rest) =>
      got ← Queue_get (cd_output_queue (p_dict process));
      match got with
      | Some item => ret (Got item (process :: rest))
      | None => ret (Sweep rest)
      end
  | Got item todo => print item ;; ret (Sweep todo)
  end.

(** The loop runs until [KeyboardInterrupt] is raised, here after [steps]
    steps; the handler passes, so that the method returns. *)
Fixpoint monitor_loop (steps : nat) (all_processes : list process) (pc : monitor_pc)
  : M unit :=
  match steps with
  | 0 => ret tt
  | S steps' =>
      pc' ← monitor_step all_processes pc;
      monitor_loop steps' all_processes pc'
  end.

(** [SSHCluster.monitor_remote_processes], interrupted after [steps] steps
    of its loop. *)
Definition monitor_remote_processes (steps : nat) (self : nat) : M unit :=
  scheduler ← get_scheduler self;
  workers ← get_workers self;
  let all_processes := [scheduler] ++ workers in
  monitor_loop steps all_processes (Sweep all_processes).

End Monitor.
Export Monitor.

(** ** Vocabulary of further properties of the cluster *)

Module ClusterMore.

Definition input_of (p : process) : nat := cd_input_queue (p_dict p).
Definition output_of (p : process) : nat := cd_output_queue (p_dict p).

(** The two queues of a handle. *)
Definition queues_of (p : process) : list nat := [input_of p; output_of p].

(** A thread once it has been joined. *)
Definition joined (th : thread) : thread :=
  {| th_args := th_args th; th_daemon := th_daemon th;
     th_started := th_started th; th_joined := true |}.

(** The handles of the cluster [c] refer to queues and threads of the store
    [w], and no two of them to the same queue or thread. *)
Definition wired (w : world) (c : cluster) : Prop :=
  ∃ sched ws,
    c_scheduler c = Some sched ∧ c_workers c = Some ws
    ∧ NoDup (flat_map queues_of (sched :: ws))
    ∧ NoDup (map p_thread (sched :: ws))
    ∧ ∀ h, h ∈ sched :: ws →
        input_of h < length (w_queues w) ∧ output_of h < length (w_queues w)
        ∧ p_thread h < length (w_threads w).

(** What the output queues of the processes [ps] hold, process after
    process. *)
Definition pending (w : world) (ps : list process) : list string :=
  concat (map (λ p, queue_items w (output_of p)) ps).

(** The item that the monitor has taken and not yet printed. *)
Definition in_flight (pc : monitor_pc) : list string :=
  match pc with
  | Sweep _ => []
  | Got item _ => [item]
  end.

(** The processes that the sweep has still to visit. *)
Definition todo_of (pc : monitor_pc) : list process :=
  match pc with
  | Sweep todo => todo
  | Got _ todo => todo
  end.

(** What relates the store [w1] and the position [pc] that the monitor has
    reached to the store [w0] in which it has started, when it has printed
    the lines [printed]: the processes already visited in this sweep have
    empty output queues, and the lines printed, the line in flight and the
    lines still queued make up the lines that were queued at the start. *)
Definition monitor_inv (ps : list process) (w0 w1 : world) (pc : monitor_pc)
    (printed : list string) : Prop :=
  w_trace w1 = w_trace w0 ++ map EvPrint printed
  ∧ w_threads w1 = w_threads w0 ∧ w_objects w1 = w_objects w0
  ∧ (∀ q, q ∉ map output_of ps → w_queues w1 !! q = w_queues w0 !! q)
  ∧ ∃ visited, ps = visited ++ todo_of pc
      ∧ (∀ p, p ∈ visited → queue_items w1 (output_of p) = [])
      ∧ printed ++ in_flight pc ++ pending w1 (todo_of pc) = pending w0 ps.

(** The parameters [p] with another worker count. *)
Definition with_n_workers (v : pyval) (p : worker_params) : worker_params :=
  {| logdir := logdir p;
     scheduler_addr := scheduler_addr p;
     scheduler_port := scheduler_port p;
     worker_addr := worker_addr p;
     nthreads := nthreads p;
     n_workers := v;
     nohost := nohost p;
     memory_limit := memory_limit p;
     worker_port := worker_port p;
     nanny_port := nanny_port p;
     remote_python := remote_python p;
     remote_dask_worker := remote_dask_worker p;
     local_directory := local_directory p |}.

(** The store of [running_world] when the scheduler has two lines ready on
    its output queue and the worker has one. *)
Definition chatty_world : world :=
  set_queues (λ _, [[]; ["scheduler: up"; "scheduler: listening"]; []; ["worker: up"]])
    running_world.

(** [a] called with the log directory [logdir]. *)
Definition logging_to (logdir : pyval) (a : init_args) : init_args :=
  {| a_scheduler_addr := a_scheduler_addr a;
     a_scheduler_port := a_scheduler_port a;
     a_worker_addrs := a_worker_addrs a;
     a_nthreads := a_nthreads a;
     a_n_workers := a_n_workers a;
     a_ssh_username := a_ssh_username a;
     a_ssh_port := a_ssh_port a;
     a_ssh_private_key := a_ssh_private_key a;
     a_nohost := a_nohost a;
     a_logdir := logdir;
     a_remote_python := a_remote_python a;
     a_memory_limit := a_memory_limit a;
     a_worker_port := a_worker_port a;
     a_nanny_port := a_nanny_port a;
     a_remote_dask_worker := a_remote_dask_worker a;
     a_local_directory := a_local_directory a;
     a_kwargs := a_kwargs a |}.

(** The cluster of [two_nodes] with logs below [/var/log/dask]. *)
Definition logging_nodes : init_args := logging_to (PStr "/var/log/dask") two_nodes.

End ClusterMore.
Export ClusterMore.

(** * Properties *)

#[local] Arguments String.append !_ _ / : simpl nomatch.

(** ** Strings *)

Lemma sapp_assoc (a b c : string) : (a +:+ b) +:+ c = a +:+ (b +:+ c).
Proof. induction a as [|x a IH]; simpl; [reflexivity | now rewrite IH]. Qed.

Lemma sapp_nil_r (a : string) : a +:+ "" = a.
Proof. induction a as [|x a IH]; simpl; [reflexivity | now rewrite IH]. Qed.

Lemma sapp_length (a b : string) :
  String.length (a +:+ b) = String.length a + String.length b.
Proof. induction a as [|x a IH]; simpl; [reflexivity | now rewrite IH]. Qed.

Ltac norm_str := repeat (rewrite ?sapp_assoc, ?sapp_nil_r; simpl).

(** ** The launch commands *)

Lemma scheduler_cmd_eq executable logdir addr port remote_python :
  scheduler_cmd executable logdir addr port remote_python
  = Ok (wrap_log logdir (py_str addr +:+ ":" +:+ py_str port)
          (scheduler_core executable port remote_python)).
Proof.
  unfold scheduler_cmd, format, wrap_log, scheduler_core, python_of.
  destruct (is_none logdir); simpl; norm_str; reflexivity.
Qed.

Lemma worker_cmd_eq executable p :
  worker_cmd executable p
  = Ok (wrap_log (logdir p) (py_str (worker_addr p))
          (worker_core executable p +:+ render_flags (worker_flags p))).
Proof.
  unfold worker_cmd, worker_template, format, wrap_log, worker_core,
    worker_flags, python_of.
  destruct (py_ne (n_workers p) (PInt 1)), (truthy (nohost p)),
    (truthy (memory_limit p)), (truthy (worker_port p)),
    (truthy (nanny_port p)), (is_none (local_directory p)),
    (is_none (logdir p)); simpl; norm_str; reflexivity.
Qed.

(** ** The words of the worker command *)

Lemma no_space_app a b : no_space (a +:+ b) = no_space a && no_space b.
Proof. induction a as [|c a IH]; simpl; [reflexivity|]. rewrite IH. now rewrite andb_assoc. Qed.

Lemma split_space_word v : no_space v = true → split_space v = [v].
Proof.
  induction v as [|c v IH]; simpl; [reflexivity|].
  intros [Hc Hv]%andb_true_iff. apply negb_true_iff in Hc. rewrite Hc, (IH Hv). reflexivity.
Qed.

Lemma split_space_cons v rest :
  no_space v = true → split_space (v +:+ String " " rest) = v :: split_space rest.
Proof.
  induction v as [|c v IH]; simpl; [reflexivity|].
  intros [Hc Hv]%andb_true_iff. apply negb_true_iff in Hc. rewrite Hc, (IH Hv). reflexivity.
Qed.

Lemma split_space_join toks :
  toks ≠ [] → Forall (λ t, no_space t = true) toks → split_space (join " " toks) = toks.
Proof.
  induction toks as [|t [|t' rest] IH]; intros Hne Hall; [done | |].
  - simpl. apply split_space_word. now inversion Hall.
  - change (join " " (t :: t' :: rest)) with (t +:+ " " +:+ join " " (t' :: rest)).
    inversion Hall; subst. simpl (" " +:+ _).
    rewrite split_space_cons by assumption. f_equal. apply IH; [done | assumption].
Qed.

Lemma join_app sep (l1 l2 : list string) :
  l1 ≠ [] → l2 ≠ [] → join sep (l1 ++ l2) = join sep l1 +:+ sep +:+ join sep l2.
Proof.
  induction l1 as [|a [|b l1] IH]; intros H1 H2; [done | |].
  - destruct l2; [done | reflexivity].
  - change (join sep ((a :: b :: l1) ++ l2)) with (a +:+ sep +:+ join sep ((b :: l1) ++ l2)).
    rewrite IH by done.
    change (join sep (a :: b :: l1)) with (a +:+ sep +:+ join sep (b :: l1)).
    now rewrite !sapp_assoc.
Qed.

Lemma join_glue sep toks sfx :
  toks ≠ [] → join sep (glue toks sfx) = join sep toks +:+ sfx.
Proof.
  induction toks as [|a [|b l] IH]; intros H; [done | reflexivity |].
  change (glue (a :: b :: l) sfx) with (a :: glue (b :: l) sfx).
  assert (glue (b :: l) sfx ≠ []) as Hg by (destruct l; done).
  destruct (glue (b :: l) sfx) as [|g gs] eqn:E; [done|].
  change (join sep (a :: g :: gs)) with (a +:+ sep +:+ join sep (g :: gs)).
  rewrite IH by done.
  change (join sep (a :: b :: l)) with (a +:+ sep +:+ join sep (b :: l)).
  now rewrite !sapp_assoc.
Qed.

Lemma join_flag_tokens base flags :
  base ≠ [] →
  join " " (base ++ flag_tokens flags) = join " " base +:+ render_flags flags.
Proof.
  revert base. induction flags as [|[f v] flags IH]; intros base Hb.
  - simpl. now rewrite app_nil_r, sapp_nil_r.
  - change (flag_tokens ((f, v) :: flags)) with ([f; py_str v] ++ flag_tokens flags).
    rewrite app_assoc. rewrite IH. 2:{ destruct base; simpl; discriminate. }
    rewrite join_app; [| assumption | discriminate]. simpl. norm_str. reflexivity.
Qed.

Lemma worker_tokens_join executable p :
  join " " (worker_tokens executable p)
  = wrap_log (logdir p) (py_str (worker_addr p))
      (worker_core executable p +:+ render_flags (worker_flags p)).
Proof.
  unfold worker_tokens, wrap_tokens, wrap_log, worker_inner.
  assert (join " " (worker_base_tokens executable p ++ flag_tokens (worker_flags p))
          = worker_core executable p +:+ render_flags (worker_flags p)) as Hin.
  { rewrite join_flag_tokens by done. f_equal.
    unfold worker_base_tokens, worker_core. simpl. norm_str. reflexivity. }
  destruct (is_none (logdir p)); [exact Hin|].
  rewrite join_app; [| done | by destruct (glue _ _)].
  rewrite join_app; [| by destruct (worker_base_tokens _ _ ++ _) as [|? [|? ?]] | done].
  rewrite join_glue by done. rewrite Hin. simpl. norm_str. reflexivity.
Qed.

Lemma is_option_app v s :
  is_option v = false → starts_dash s = false → is_option (v +:+ s) = false.
Proof.
  destruct v as [|a [|b v]]; simpl; intros Hv Hs.
  - destruct s as [|a [|b s]]; simpl in *; try reflexivity. now rewrite Hs.
  - destruct s; simpl in *; [reflexivity|]. rewrite Hs. apply andb_false_r.
  - exact Hv.
Qed.

Lemma word_ok_option v : word_ok v = true → is_option v = false.
Proof. unfold word_ok. intros [_ H]%andb_true_iff. now apply negb_true_iff in H. Qed.

Lemma word_ok_space v : word_ok v = true → no_space v = true.
Proof. unfold word_ok. now intros [H _]%andb_true_iff. Qed.

Lemma filter_glue toks sfx :
  (∀ t, last toks = Some t → is_option t = false) →
  toks ≠ [] → starts_dash sfx = false →
  List.filter is_option (glue toks sfx) = List.filter is_option toks.
Proof.
  intros Hl Hne Hs. induction toks as [|a [|b l] IH]; [done | |].
  - simpl. rewrite (Hl a eq_refl), is_option_app; auto.
  - assert (List.filter is_option (glue (b :: l) sfx)
            = List.filter is_option (b :: l)) as IH'.
    { apply IH; [|done]. intros t Ht. apply Hl. exact Ht. }
    change (glue (a :: b :: l) sfx) with (a :: glue (b :: l) sfx).
    remember (glue (b :: l) sfx) as g. remember (b :: l) as bl.
    simpl. now rewrite IH'.
Qed.

Lemma no_space_glue toks sfx :
  Forall (λ t, no_space t = true) toks → no_space sfx = true →
  Forall (λ t, no_space t = true) (glue toks sfx).
Proof.
  intros H Hs. induction toks as [|a [|b l] IH].
  - by constructor.
  - inversion H; subst. constructor; [|constructor]. rewrite no_space_app. by apply andb_true_iff.
  - inversion H; subst. change (glue (a :: b :: l) sfx) with (a :: glue (b :: l) sfx).
    constructor; auto.
Qed.

Lemma flag_if_ok b f v :
  is_option f = true → no_space f = true → word_ok (py_str v) = true →
  Forall flag_ok (flag_if b f v).
Proof. intros. destruct b; simpl; repeat constructor; assumption. Qed.

Lemma worker_flags_ok executable p :
  valid_worker executable p → Forall flag_ok (worker_flags p).
Proof.
  unfold valid_worker, worker_texts. rewrite !Forall_cons. intros H. destruct_and!.
  unfold worker_flags. repeat apply Forall_app_2; apply flag_if_ok; auto.
Qed.

Lemma flag_tokens_filter flags :
  Forall flag_ok flags → List.filter is_option (flag_tokens flags) = map fst flags.
Proof.
  induction 1 as [|[f v] flags (Hf & _ & Hv) _ IH]; [reflexivity|].
  simpl in *. rewrite Hf, (word_ok_option _ Hv), IH. reflexivity.
Qed.

Lemma flag_tokens_space flags :
  Forall flag_ok flags → Forall (λ t, no_space t = true) (flag_tokens flags).
Proof.
  induction 1 as [|[f v] flags (_ & Hf & Hv) _ IH]; [constructor|].
  simpl in *. constructor; [assumption|]. constructor; [|assumption].
  now apply word_ok_space.
Qed.

Lemma flag_tokens_last flags x t :
  Forall flag_ok flags → is_option x = false →
  last (x :: flag_tokens flags) = Some t → is_option t = false.
Proof.
  intros H Hx. revert x Hx. induction H as [|[f v] flags (_ & _ & Hv) _ IH]; intros x Hx.
  - simpl. now intros [= <-].
  - change (x :: flag_tokens ((f, v) :: flags)) with (x :: f :: py_str v :: flag_tokens flags).
    intros Hl. apply (IH (py_str v)); [now apply word_ok_option|].
    exact Hl.
Qed.

Ltac use_word_ok :=
  repeat match goal with
    | H : word_ok ?v = true |- context [is_option ?v] => rewrite (word_ok_option v H)
    | H : word_ok ?v = true |- context [no_space ?v] => rewrite (word_ok_space v H)
    end.

Section worker_words.
Variables (executable : string) (p : worker_params).
Hypothesis Hvalid : valid_worker executable p.

Abbreviation inner := (worker_inner executable p).

Lemma worker_inner_space : Forall (λ t, no_space t = true) inner.
Proof using Hvalid.
  pose proof (worker_flags_ok _ _ Hvalid) as Hfl.
  revert Hvalid. unfold valid_worker, worker_texts. rewrite !Forall_cons.
  intros H. destruct_and!. unfold worker_inner. apply Forall_app_2.
  - unfold worker_base_tokens. repeat constructor; auto using word_ok_space.
    rewrite !no_space_app. simpl. use_word_ok. reflexivity.
  - now apply flag_tokens_space.
Qed.

Lemma worker_inner_options :
  List.filter is_option inner = "--nthreads" :: map fst (worker_flags p).
Proof using Hvalid.
  pose proof (worker_flags_ok _ _ Hvalid) as Hfl.
  revert Hvalid. unfold valid_worker, worker_texts. rewrite !Forall_cons.
  intros H. destruct_and!. unfold worker_inner. rewrite List.filter_app.
  rewrite flag_tokens_filter by assumption.
  unfold worker_base_tokens. simpl.
  use_word_ok.
  rewrite is_option_app; auto using word_ok_option.
Qed.

Lemma worker_inner_last t : last inner = Some t → is_option t = false.
Proof using Hvalid.
  pose proof (worker_flags_ok _ _ Hvalid) as Hfl.
  revert Hvalid. unfold valid_worker, worker_texts. rewrite !Forall_cons.
  intros H. destruct_and!. unfold worker_inner. unfold worker_base_tokens.
  intros Hl. eapply (flag_tokens_last _ (py_str (nthreads p))); eauto using word_ok_option.
Qed.

Lemma worker_tokens_space :
  Forall (λ t, no_space t = true) (worker_tokens executable p).
Proof using Hvalid.
  pose proof worker_inner_space as Hin.
  revert Hvalid. unfold valid_worker, worker_texts. rewrite !Forall_cons.
  intros H. destruct_and!.
  unfold worker_tokens, wrap_tokens. destruct (is_none (logdir p)); [assumption|].
  repeat apply Forall_app_2.
  - repeat constructor; auto using word_ok_space.
  - now apply no_space_glue.
  - repeat constructor. rewrite !no_space_app. simpl.
    use_word_ok. reflexivity.
Qed.

Lemma worker_tokens_options :
  List.filter is_option (worker_tokens executable p)
  = "--nthreads" :: map fst (worker_flags p).
Proof using Hvalid.
  pose proof worker_inner_options as Hin. pose proof worker_inner_last as Hlast.
  revert Hvalid. unfold valid_worker, worker_texts. rewrite !Forall_cons.
  intros H. destruct_and!.
  unfold worker_tokens, wrap_tokens. destruct (is_none (logdir p)); [assumption|].
  rewrite !List.filter_app. rewrite filter_glue; [| assumption | by unfold worker_inner | reflexivity].
  rewrite Hin. simpl. use_word_ok.
  rewrite is_option_app; auto using word_ok_option. now rewrite app_nil_r.
Qed.

Lemma worker_cmd_words cmd :
  worker_cmd executable p = Ok cmd → split_space cmd = worker_tokens executable p.
Proof using Hvalid.
  rewrite worker_cmd_eq. intros [= <-]. rewrite <- worker_tokens_join.
  apply split_space_join; [|apply worker_tokens_space].
  unfold worker_tokens, wrap_tokens. destruct (is_none (logdir p)); done.
Qed.

Lemma worker_cmd_options cmd :
  worker_cmd executable p = Ok cmd →
  options cmd = "--nthreads" :: map fst (worker_flags p).
Proof using Hvalid.
  intros H. unfold options. rewrite (worker_cmd_words _ H). apply worker_tokens_options.
Qed.

Lemma worker_cmd_has_flag cmd flag :
  worker_cmd executable p = Ok cmd → is_option flag = true →
  has_flag flag cmd ↔ In flag ("--nthreads" :: map fst (worker_flags p)).
Proof using Hvalid.
  intros H Hf. rewrite <- (worker_cmd_options _ H). unfold options, has_flag.
  rewrite List.filter_In. tauto.
Qed.
End worker_words.

Lemma in_flag_if flag b f v : In flag (map fst (flag_if b f v)) ↔ b = true ∧ flag = f.
Proof. destruct b; simpl; intuition congruence. Qed.

Lemma in_worker_flags flag p :
  In flag (map fst (worker_flags p)) ↔
    (py_ne (n_workers p) (PInt 1) = true ∧ flag = "--nworkers")
    ∨ (negb (truthy (nohost p)) = true ∧ flag = "--host")
    ∨ (truthy (memory_limit p) = true ∧ flag = "--memory-limit")
    ∨ (truthy (worker_port p) = true ∧ flag = "--worker-port")
    ∨ (truthy (nanny_port p) = true ∧ flag = "--nanny-port")
    ∨ (negb (is_none (local_directory p)) = true ∧ flag = "--local-directory").
Proof.
  unfold worker_flags. rewrite !map_app, !in_app_iff, !in_flag_if. tauto.
Qed.

Lemma provided_is_none v : provided v ↔ negb (is_none v) = true.
Proof. unfold provided. destruct v; simpl; split; intros; congruence. Qed.


(** ** Claims about the launch commands *)

Lemma zero_limit_cmd :
  worker_cmd local_python worker_zero_limit
  = Ok ("/usr/bin/python3 -m distributed.cli.dask_worker 10.0.0.1:8786 "
        +:+ "--nthreads 2 --nworkers 4 --host 10.0.0.2").
Proof. vm_compute. reflexivity. Qed.

Lemma zero_limit_no_flag :
  ¬ has_flag "--memory-limit"
      ("/usr/bin/python3 -m distributed.cli.dask_worker 10.0.0.1:8786 "
       +:+ "--nthreads 2 --nworkers 4 --host 10.0.0.2").
Proof.
  unfold has_flag.
  match goal with |- ¬ In _ ?l =>
    let l' := eval vm_compute in l in
    replace l with l' by (vm_compute; reflexivity) end.
  simpl. intuition discriminate.
Qed.

(** C1, as worded, fails: a memory limit given as 0 is a provided parameter,
    but [start_worker] tests its truth value and appends no
    [--memory-limit]. *)
Lemma worker_flags_claim_fails :
  valid_worker local_python worker_zero_limit
  ∧ provided (memory_limit worker_zero_limit)
  ∧ worker_cmd local_python worker_zero_limit
    = Ok ("/usr/bin/python3 -m distributed.cli.dask_worker 10.0.0.1:8786 "
          +:+ "--nthreads 2 --nworkers 4 --host 10.0.0.2")
  ∧ ∀ cmd, worker_cmd local_python worker_zero_limit = Ok cmd →
           contains "--memory-limit" cmd = false
           ∧ ¬ worker_flags_as_claimed worker_zero_limit cmd.
Proof.
  split; [repeat constructor|]. split; [discriminate|].
  split; [exact zero_limit_cmd|].
  intros cmd H. rewrite zero_limit_cmd in H. injection H as <-.
  split; [vm_compute; reflexivity|].
  intros (_ & _ & [_ H] & _). apply zero_limit_no_flag, H. discriminate.
Qed.

(** C1, amended: for valid worker parameters [start_worker] builds the
    command out of the fixed part followed by exactly the flags implied by
    the parameters: [--nworkers k] is present iff [k != 1]; [--host addr] is
    omitted iff the host suppression flag is true; [--memory-limit],
    [--worker-port] and [--nanny-port] are each present iff the parameter is
    true as a truth value (given, and neither 0 nor empty); and
    [--local-directory] is present iff the parameter is not [None]. *)
Theorem worker_flags_built executable p :
  valid_worker executable p →
  ∃ cmd, worker_cmd executable p = Ok cmd
    ∧ cmd = wrap_log (logdir p) (py_str (worker_addr p))
              (worker_core executable p +:+ render_flags (worker_flags p))
    ∧ options cmd = "--nthreads" :: map fst (worker_flags p)
    ∧ worker_flags_as_built p cmd.
Proof.
  intros Hv. eexists. split; [apply worker_cmd_eq|]. split; [reflexivity|].
  pose proof (worker_cmd_eq executable p) as Hc.
  split; [exact (worker_cmd_options _ _ Hv _ Hc)|].
  unfold worker_flags_as_built.
  rewrite !(worker_cmd_has_flag _ _ Hv _ _ Hc) by reflexivity.
  simpl. rewrite !in_worker_flags, provided_is_none.
  destruct (truthy (nohost p)); simpl; unfold not;
    repeat split; intros; repeat (destruct_or! || destruct_and!);
    try discriminate; auto 10; try (exfalso; auto 10; fail).
Qed.

Lemma worker_flags_built_witness :
  valid_worker local_python worker_full
  ∧ ∃ cmd, worker_cmd local_python worker_full = Ok cmd
      ∧ cmd = wrap_log (logdir worker_full) (py_str (worker_addr worker_full))
                (worker_core local_python worker_full
                 +:+ render_flags (worker_flags worker_full))
      ∧ options cmd = "--nthreads" :: map fst (worker_flags worker_full)
      ∧ worker_flags_as_built worker_full cmd.
Proof.
  split; [repeat constructor | apply worker_flags_built; repeat constructor].
Defined.

(** C2, as worded, fails: with a log directory the redirection follows the
    port directly, without the space that the claimed text puts before it. *)
Lemma scheduler_cmd_claim_fails :
  scheduler_cmd local_python (PStr "/var/log/dask") (PStr "10.0.0.1") (PInt 8786) PNone
  = Ok ("mkdir -p /var/log/dask && /usr/bin/python3 -m distributed.cli.dask_scheduler "
        +:+ "--port 8786&> /var/log/dask/dask_scheduler_10.0.0.1:8786.log")
  ∧ scheduler_cmd local_python (PStr "/var/log/dask") (PStr "10.0.0.1") (PInt 8786) PNone
    ≠ Ok (scheduler_cmd_as_claimed local_python (PStr "/var/log/dask")
            (PStr "10.0.0.1") (PInt 8786) PNone)
  ∧ ∀ cmd,
      scheduler_cmd local_python (PStr "/var/log/dask") (PStr "10.0.0.1") (PInt 8786) PNone
      = Ok cmd →
      contains " &> /var/log/dask/dask_scheduler_10.0.0.1:8786.log" cmd = false.
Proof.
  assert (scheduler_cmd local_python (PStr "/var/log/dask") (PStr "10.0.0.1")
            (PInt 8786) PNone
          = Ok ("mkdir -p /var/log/dask && /usr/bin/python3 -m distributed.cli.dask_scheduler "
                +:+ "--port 8786&> /var/log/dask/dask_scheduler_10.0.0.1:8786.log")) as E
    by (vm_compute; reflexivity).
  split; [exact E|]. rewrite E. split; [vm_compute; discriminate|].
  intros cmd [= <-]. vm_compute. reflexivity.
Qed.

(** C2, amended: [start_scheduler] builds
    [<python> -m distributed.cli.dask_scheduler --port <port>], where
    [<python>] is the remote interpreter when one is given (a true value)
    and the local interpreter otherwise; with a log directory the command is
    preceded by [mkdir -p <logdir> && ] and followed, with no space in
    between, by [&> <logdir>/dask_scheduler_<addr>:<port>.log]; without a log
    directory it is left as it is. *)
Theorem scheduler_cmd_built executable logdir addr port remote_python :
  let python := if truthy remote_python then py_str remote_python else executable in
  let core := python +:+ " -m distributed.cli.dask_scheduler --port " +:+ py_str port in
  scheduler_cmd executable logdir addr port remote_python
  = Ok (match logdir with
        | PNone => core
        | _ => "mkdir -p " +:+ py_str logdir +:+ " && " +:+ core
               +:+ "&> " +:+ py_str logdir +:+ "/dask_scheduler_"
               +:+ py_str addr +:+ ":" +:+ py_str port +:+ ".log"
        end).
Proof.
  intros python core. rewrite scheduler_cmd_eq.
  unfold wrap_log, scheduler_core, python_of, py_or. subst python core.
  destruct (truthy remote_python), logdir; simpl; norm_str; reflexivity.
Qed.

(** ** The connection loop *)

Lemma run_bind {A B} (m : R A) (k : A → R B) r :
  (m ≫= k) r = match m r with
               | (Done a, r') => k a r'
               | (Stop e, r') => (Stop e, r')
               | (OutOfFuel, r') => (OutOfFuel, r')
               end.
Proof. reflexivity. Qed.

Ltac run_step :=
  first
    [ rewrite run_bind
    | progress unfold act, ssh_connect, connect_answer, stop
    | progress cbn beta iota
    | progress cbn [connect_loop mret R_ret connects actions output_queue log
                    connect_answered next Nat.add Nat.leb]
    | match goal with
      | H : connects ?r ?i = _ |- context [connects ?r ?i] => rewrite H
      end ].

Ltac run_done :=
  eexists; split; [reflexivity|]; split; [reflexivity|];
  cbn [actions log connect_answered]; rewrite <- ?app_assoc;
  eexists; split; [reflexivity|]; reflexivity.

Lemma connect_loop_ok fuel d r k :
  3 ≤ fuel → k < 3 → ssh_failures r k → connects r k = ConnectOk →
  ∃ r', connect_loop fuel d 0 r = (Done tt, r')
        ∧ output_queue r' = output_queue r
        ∧ ∃ new, actions r' = actions r ++ new ∧ steps new = retried k.
Proof.
  intros Hfuel Hk Hfail Hok.
  destruct fuel as [|[|[|fuel]]]; try lia.
  destruct k as [|[|[|k]]]; try lia.
  - repeat run_step. run_done.
  - destruct (Hfail 0) as [e0 H0]; [lia|].
    repeat run_step. run_done.
  - destruct (Hfail 0) as [e0 H0]; [lia|]. destruct (Hfail 1) as [e1 H1]; [lia|].
    repeat run_step. run_done.
Qed.

Lemma connect_loop_other fuel d r k name :
  3 ≤ fuel → k < 3 → ssh_failures r k → connects r k = ConnectOtherError name →
  ∃ r', connect_loop fuel d 0 r = (Stop (Uncaught name), r')
        ∧ output_queue r' = output_queue r
        ∧ ∃ new, actions r' = actions r ++ new ∧ steps new = retried k.
Proof.
  intros Hfuel Hk Hfail Hok.
  destruct fuel as [|[|[|fuel]]]; try lia.
  destruct k as [|[|[|k]]]; try lia.
  - repeat run_step. run_done.
  - destruct (Hfail 0) as [e0 H0]; [lia|].
    repeat run_step. run_done.
  - destruct (Hfail 0) as [e0 H0]; [lia|]. destruct (Hfail 1) as [e1 H1]; [lia|].
    repeat run_step. run_done.
Qed.

Lemma connect_loop_exit fuel d r :
  3 ≤ fuel → ssh_failures r 3 →
  ∃ r', connect_loop fuel d 0 r = (Stop (ProcessExit 1), r')
        ∧ output_queue r' = output_queue r
        ∧ ∃ new, actions r' = actions r ++ new ∧ steps new = retried 2.
Proof.
  intros Hfuel Hfail.
  destruct fuel as [|[|[|fuel]]]; try lia.
  destruct (Hfail 0) as [e0 H0]; [lia|]. destruct (Hfail 1) as [e1 H1]; [lia|].
  destruct (Hfail 2) as [e2 H2]; [lia|].
  repeat run_step. run_done.
Qed.

(** With fuel for three rounds the loop ends, after at most three attempts. *)
Lemma connect_loop_total fuel d r :
  3 ≤ fuel →
  ∃ o r', connect_loop fuel d 0 r = (o, r') ∧ o ≠ OutOfFuel
          ∧ ∃ new k, k < 3 ∧ actions r' = actions r ++ new ∧ steps new = retried k.
Proof.
  intros Hfuel.
  assert (∀ k, k ≤ 3 → ssh_failures r k →
               ssh_failures r 3
               ∨ ∃ j, j < 3 ∧ ssh_failures r j
                      ∧ (connects r j = ConnectOk ∨ ∃ n, connects r j = ConnectOtherError n))
    as Hscan.
  { intros k Hk. remember (3 - k) as gap eqn:Hgap.
    revert k Hk Hgap. induction gap as [|gap IH]; intros k Hk Hgap Hfail.
    - left. replace 3 with k by lia. exact Hfail.
    - destruct (connects r k) as [|e|n] eqn:Ek.
      + right. exists k. split; [lia|]. split; [exact Hfail|]. now left.
      + apply (IH (S k)); [lia | lia |].
        intros i Hi. destruct (decide (i = k)) as [->|]; [eauto|]. apply Hfail. lia.
      + right. exists k. split; [lia|]. split; [exact Hfail|]. right. eauto. }
  destruct (Hscan 0) as [H3 | (j & Hj & Hfail & [Hok | [n Hn]])]; [lia | intros i Hi; lia | | |].
  - destruct (connect_loop_exit fuel d r Hfuel H3) as (r' & E & _ & new & Ha & Hs).
    exists (Stop (ProcessExit 1)), r'. split; [exact E|]. split; [discriminate|].
    exists new, 2. split; [lia|]. now split.
  - destruct (connect_loop_ok fuel d r j Hfuel Hj Hfail Hok) as (r' & E & _ & new & Ha & Hs).
    exists (Done tt), r'. split; [exact E|]. split; [discriminate|].
    exists new, j. now repeat split.
  - destruct (connect_loop_other fuel d r j n Hfuel Hj Hfail Hn) as (r' & E & _ & new & Ha & Hs).
    exists (Stop (Uncaught n)), r'. split; [exact E|]. split; [discriminate|].
    exists new, j. now repeat split.
Qed.

Lemma async_ssh_connect fuel d r o r' :
  connect_loop fuel d 0 (log (ActHostKeyPolicy "AutoAddPolicy") r) = (o, r') →
  async_ssh fuel d r
  = match o with
    | Done _ => run_command fuel d r'
    | Stop e => (Stop e, r')
    | OutOfFuel => (OutOfFuel, r')
    end.
Proof.
  intros E. unfold async_ssh. rewrite run_bind. unfold act at 1. cbn beta iota.
  rewrite run_bind, E. destruct o; reflexivity.
Qed.

(** C3: with an SSH failure at each of the three attempts [async_ssh] ends
    the process with status 1, having waited 1 after the first and the
    second failure, having made no fourth attempt and never executing the
    command; an SSH failure is retried, so that a connection made at the
    second or third attempt proceeds to the command; and any other exception
    of [connect] leaves [async_ssh] at once, without a retry and without
    executing the command. *)
Theorem connection_retry fuel d r :
  3 ≤ fuel →
  (ssh_failures r 3 →
   ∃ r', async_ssh fuel d r = (Stop (ProcessExit 1), r')
         ∧ output_queue r' = output_queue r
         ∧ ∃ new, actions r' = actions r ++ new
                  ∧ steps new = [Attempt; Wait 1; Attempt; Wait 1; Attempt])
  ∧ (∀ k, k < 3 → ssh_failures r k → connects r k = ConnectOk →
     ∃ r', async_ssh fuel d r = run_command fuel d r'
           ∧ output_queue r' = output_queue r
           ∧ ∃ new, actions r' = actions r ++ new ∧ steps new = retried k)
  ∧ (∀ k name, k < 3 → ssh_failures r k → connects r k = ConnectOtherError name →
     ∃ r', async_ssh fuel d r = (Stop (Uncaught name), r')
           ∧ output_queue r' = output_queue r
           ∧ ∃ new, actions r' = actions r ++ new ∧ steps new = retried k)
  ∧ (∃ o r', connect_loop fuel d 0 r = (o, r') ∧ o ≠ OutOfFuel
             ∧ ∃ new k, k < 3 ∧ actions r' = actions r ++ new
                        ∧ steps new = retried k).
Proof.
  intros Hfuel. set (r0 := log (ActHostKeyPolicy "AutoAddPolicy") r).
  assert (∀ k, ssh_failures r k → ssh_failures r0 k) as Hr0 by (intros k H; exact H).
  repeat split.
  - intros H3. destruct (connect_loop_exit fuel d r0 Hfuel (Hr0 _ H3))
      as (r' & E & Hq & new & Ha & Hs).
    exists r'. split; [exact (async_ssh_connect _ _ _ _ _ E)|]. split; [exact Hq|].
    exists (ActHostKeyPolicy "AutoAddPolicy" :: new). split; [|exact Hs].
    rewrite Ha. cbn [r0 actions log]. now rewrite <- app_assoc.
  - intros k Hk Hfail Hok.
    destruct (connect_loop_ok fuel d r0 k Hfuel Hk (Hr0 _ Hfail) Hok)
      as (r' & E & Hq & new & Ha & Hs).
    exists r'. split; [exact (async_ssh_connect _ _ _ _ _ E)|]. split; [exact Hq|].
    exists (ActHostKeyPolicy "AutoAddPolicy" :: new). split; [|exact Hs].
    rewrite Ha. cbn [r0 actions log]. now rewrite <- app_assoc.
  - intros k name Hk Hfail Hother.
    destruct (connect_loop_other fuel d r0 k name Hfuel Hk (Hr0 _ Hfail) Hother)
      as (r' & E & Hq & new & Ha & Hs).
    exists r'. split; [exact (async_ssh_connect _ _ _ _ _ E)|]. split; [exact Hq|].
    exists (ActHostKeyPolicy "AutoAddPolicy" :: new). split; [|exact Hs].
    rewrite Ha. cbn [r0 actions log]. now rewrite <- app_assoc.
  - exact (connect_loop_total fuel d r Hfuel).
Qed.

Lemma connection_retry_witness :
  3 ≤ 3
  ∧ (∃ r', async_ssh 3 worker_dict refusing_host = (Stop (ProcessExit 1), r')
           ∧ output_queue r' = output_queue refusing_host
           ∧ ∃ new, actions r' = actions refusing_host ++ new
                    ∧ steps new = [Attempt; Wait 1; Attempt; Wait 1; Attempt])
  ∧ (∃ r', async_ssh 3 worker_dict flaky_host = run_command 3 worker_dict r'
           ∧ output_queue r' = output_queue flaky_host
           ∧ ∃ new, actions r' = actions flaky_host ++ new
                    ∧ steps new = [Attempt; Wait 1; Attempt])
  ∧ (∃ r', async_ssh 3 worker_dict unreachable_host = (Stop (Uncaught "socket.timeout"), r')
           ∧ output_queue r' = output_queue unreachable_host
           ∧ ∃ new, actions r' = actions unreachable_host ++ new
                    ∧ steps new = [Attempt]).
Proof.
  split; [constructor|]. split; [|split].
  - apply (proj1 (connection_retry 3 worker_dict refusing_host (le_n 3))).
    intros i _. eexists. reflexivity.
  - apply (proj1 (proj2 (connection_retry 3 worker_dict flaky_host (le_n 3))) 1).
    + repeat constructor.
    + intros [|i] Hi; [eexists; reflexivity | lia].
    + reflexivity.
  - apply (proj1 (proj2 (proj2 (connection_retry 3 worker_dict unreachable_host (le_n 3)))) 0).
    + repeat constructor.
    + intros i Hi. lia.
    + reflexivity.
Defined.

(** ** The line relay *)

Lemma Ok_inj {A} (a b : A) : Ok a = Ok b → a = b.
Proof. congruence. Qed.

Lemma stdout_entry_eq d line :
  stdout_entry d line = Ok (tagged (cd_label d) line).
Proof. unfold stdout_entry, format, tagged. simpl. norm_str. reflexivity. Qed.

Lemma stderr_entry_eq d line :
  stderr_entry d line = Ok (tagged (cd_label d) (marked line)).
Proof. unfold stderr_entry, format, tagged, marked. simpl. norm_str. reflexivity. Qed.

Lemma read_lines_eq entry render stream out :
  (∀ s, entry s = Ok (render s)) →
  ∃ rest, read_lines entry stream out
          = (Ok tt, rest, out ++ map (λ l, render (rstrip l)) (available stream)).
Proof.
  intros Hentry. revert out. induction stream as [|[line|] stream IH]; intros out.
  - exists []. simpl. now rewrite app_nil_r.
  - simpl. destruct (0 <? String.length line).
    + rewrite Hentry. destruct (IH (out ++ [render (rstrip line)])) as [rest ->].
      exists rest. simpl. now rewrite <- app_assoc.
    + exists stream. now rewrite app_nil_r.
  - exists stream. simpl. now rewrite app_nil_r.
Qed.

Lemma rstrip_nil_all_space s : rstrip s = "" → all_space s = true.
Proof.
  induction s as [|c s IH]; simpl; [reflexivity|].
  destruct (rstrip s) eqn:E; [|discriminate].
  destruct (is_space c); [|discriminate]. intros _. now apply IH.
Qed.

Lemma rstrip_stripped line : stripped line (rstrip line).
Proof.
  unfold stripped. induction line as [|c line (ws & Hl & Hws & Hend)].
  - exists "". now repeat split.
  - simpl. destruct (rstrip line) as [|c' s'] eqn:E.
    + destruct (is_space c) eqn:Hc.
      * exists (String c line). repeat split. simpl. rewrite Hc.
        now apply rstrip_nil_all_space.
      * exists line. repeat split; [| simpl; exact Hc].
        now apply rstrip_nil_all_space.
    + exists ws. split; [|split; [exact Hws|]].
      * simpl. simpl in Hl. now rewrite <- Hl.
      * exact Hend.
Qed.

Lemma tagged_inj label a b : tagged label a = tagged label b → a = b.
Proof.
  unfold tagged. intros H.
  repeat match type of H with _ +:+ _ = _ +:+ _ => apply String.app_inj in H end.
  exact H.
Qed.

Lemma marked_prefix text : startswith bcolors.FAIL (marked text) = true.
Proof. reflexivity. Qed.

Lemma not_marked a b :
  startswith bcolors.FAIL a = false → a ≠ marked b.
Proof. intros H ->. rewrite marked_prefix in H. discriminate. Qed.

Lemma read_from_stdout_eq d r :
  ∃ r', read_from_stdout d r = (Done tt, r')
        ∧ output_queue r'
          = output_queue r
            ++ map (λ l, tagged (cd_label d) (rstrip l)) (available (stdout r))
        ∧ stderr r' = stderr r ∧ actions r' = actions r.
Proof.
  unfold read_from_stdout.
  destruct (read_lines_eq (stdout_entry d) (tagged (cd_label d)) (stdout r)
              (output_queue r) (stdout_entry_eq d)) as [rest ->].
  eexists. split; [reflexivity|]. now repeat split.
Qed.

Lemma read_from_stderr_eq d r :
  ∃ r', read_from_stderr d r = (Done tt, r')
        ∧ output_queue r'
          = output_queue r
            ++ map (λ l, tagged (cd_label d) (marked (rstrip l))) (available (stderr r))
        ∧ stdout r' = stdout r ∧ actions r' = actions r.
Proof.
  unfold read_from_stderr.
  destruct (read_lines_eq (stderr_entry d) (λ s, tagged (cd_label d) (marked s))
              (stderr r) (output_queue r) (stderr_entry_eq d)) as [rest ->].
  eexists. split; [reflexivity|]. now repeat split.
Qed.

(** C6, as worded, fails: a line of stdout that carries the failure colour
    itself is relayed as the very item that the same text gives on
    stderr. *)
Lemma relay_claim_fails :
  stdout_entry worker_dict (rstrip coloured_line)
  = stderr_entry worker_dict (rstrip plain_line)
  ∧ output_queue (read_from_stdout worker_dict (printing_on_stdout coloured_line)).2
    = output_queue (read_from_stderr worker_dict (printing_on_stderr plain_line)).2
  ∧ ¬ (∀ a b, stdout_entry worker_dict (rstrip a) ≠ stderr_entry worker_dict (rstrip b)).
Proof.
  assert (stdout_entry worker_dict (rstrip coloured_line)
          = stderr_entry worker_dict (rstrip plain_line)) as E
    by (vm_compute; reflexivity).
  split; [exact E|]. split; [vm_compute; reflexivity|].
  intros H. exact (H _ _ E).
Qed.

(** C6, amended: [read_from_stdout] puts on the output queue, for each line
    it reads and in order, the line without its trailing whitespace, tagged
    with the label of the descriptor; [read_from_stderr] does the same with
    the stripped line wrapped in the failure colour; so the item of a stderr
    line differs from the item of every stdout line whose stripped text does
    not itself start with the failure colour (the two items are equal exactly
    when the stripped stdout text is the wrapped stderr text). *)
Theorem relay_lines d r :
  (∃ r', read_from_stdout d r = (Done tt, r')
         ∧ output_queue r'
           = output_queue r
             ++ map (λ l, tagged (cd_label d) (rstrip l)) (available (stdout r)))
  ∧ (∃ r', read_from_stderr d r = (Done tt, r')
           ∧ output_queue r'
             = output_queue r
               ++ map (λ l, tagged (cd_label d) (marked (rstrip l)))
                    (available (stderr r)))
  ∧ (∀ line, stripped line (rstrip line))
  ∧ (∀ a b, stdout_entry d (rstrip a) = stderr_entry d (rstrip b)
            ↔ rstrip a = marked (rstrip b))
  ∧ (∀ a b, startswith bcolors.FAIL (rstrip a) = false →
            stdout_entry d (rstrip a) ≠ stderr_entry d (rstrip b)).
Proof.
  split; [|split; [|split; [|split]]].
  - destruct (read_from_stdout_eq d r) as (r' & E & Hq & _). eauto.
  - destruct (read_from_stderr_eq d r) as (r' & E & Hq & _). eauto.
  - apply rstrip_stripped.
  - intros a b. rewrite stdout_entry_eq, stderr_entry_eq. split.
    + intros H%Ok_inj. now apply tagged_inj in H.
    + now intros ->.
  - intros a b Ha. rewrite stdout_entry_eq, stderr_entry_eq. intros H%Ok_inj.
    apply tagged_inj in H. now apply not_marked in H.
Qed.

Lemma relay_lines_witness :
  startswith bcolors.FAIL (rstrip plain_line) = false
  ∧ stdout_entry worker_dict (rstrip plain_line)
    ≠ stderr_entry worker_dict (rstrip plain_line).
Proof.
  split; [reflexivity|].
  apply (proj2 (proj2 (proj2 (proj2 (relay_lines worker_dict refusing_host))))).
  reflexivity.
Defined.

(** ** The store *)

Lemma m_bind_run {A B} (m : M A) (k : A → M B) w :
  (m ≫= k) w = match m w with
               | (Ok a, w') => k a w'
               | (Raise e, w') => (Raise e, w')
               end.
Proof. reflexivity. Qed.

Lemma getattr_run self name w c v :
  w_objects w !! self = Some c → attr c name = Some v →
  getattr self name w = (Ok v, w).
Proof. intros Hc Hv. unfold getattr, read_object. now rewrite Hc, Hv. Qed.

Lemma get_workers_run self w c ws :
  w_objects w !! self = Some c → c_workers c = Some ws →
  get_workers self w = (Ok ws, w).
Proof. intros Hc Hv. unfold get_workers, read_object. now rewrite Hc, Hv. Qed.

Lemma get_scheduler_run self w c p :
  w_objects w !! self = Some c → c_scheduler c = Some p →
  get_scheduler self w = (Ok p, w).
Proof. intros Hc Hv. unfold get_scheduler, read_object. now rewrite Hc, Hv. Qed.

Lemma alter_snoc {A} (f : A → A) (l : list A) (x : A) :
  alter f (length l) (l ++ [x]) = l ++ [f x].
Proof. rewrite <- (Nat.add_0_r (length l)). now rewrite alter_app_r. Qed.

Lemma alter_lookup {A} (f : A → A) (l : list A) i x :
  l !! i = Some x → alter f i l = <[i := f x]> l.
Proof.
  intros H. apply list_eq. intros j. rewrite list_lookup_alter.
  destruct (decide (i = j)) as [<-|Hne].
  - rewrite H. rewrite list_lookup_insert_eq; [reflexivity|]. now apply lookup_lt_Some in H.
  - now rewrite list_lookup_insert_ne.
Qed.

Lemma start_worker_run p ssh w :
  ∃ cmd, worker_cmd (w_executable w) p = Ok cmd
    ∧ start_worker p ssh.1.1 ssh.1.2 ssh.2 w
      = (Ok (worker_handle cmd p ssh (length (w_queues w)) (length (w_threads w))),
         launched (p_dict (worker_handle cmd p ssh (length (w_queues w))
                             (length (w_threads w)))) w).
Proof.
  eexists. split; [apply worker_cmd_eq|].
  unfold start_worker. rewrite m_bind_run. unfold gets at 1. cbn beta iota.
  rewrite m_bind_run. unfold lift at 1. rewrite worker_cmd_eq. cbn beta iota.
  rewrite m_bind_run. unfold Queue_new at 1. cbn beta iota.
  rewrite m_bind_run. unfold Queue_new at 1. cbn beta iota.
  rewrite m_bind_run. unfold Thread_new at 1. cbn beta iota.
  rewrite m_bind_run. unfold Thread_set_daemon, modify at 1. cbn beta iota.
  rewrite m_bind_run. unfold Thread_start, modify at 1. cbn beta iota.
  unfold ret, worker_handle, launched, launched_thread, emit, set_threads, set_queues.
  cbn [w_queues w_threads w_objects w_trace w_executable w_now p_dict].
  rewrite !length_app. cbn [length]. rewrite Nat.add_1_r.
  rewrite !alter_snoc. cbn [th_args th_daemon th_started th_joined].
  rewrite <- app_assoc. reflexivity.
Qed.

Lemma stored_params_attrs c address p ssh :
  stored_params c address = Some (p, ssh) →
  attr c "logdir" = Some (logdir p)
  ∧ attr c "scheduler_addr" = Some (scheduler_addr p)
  ∧ attr c "scheduler_port" = Some (scheduler_port p)
  ∧ attr c "nthreads" = Some (nthreads p)
  ∧ attr c "n_workers" = Some (n_workers p)
  ∧ attr c "ssh_username" = Some ssh.1.1
  ∧ attr c "ssh_port" = Some ssh.1.2
  ∧ attr c "ssh_private_key" = Some ssh.2
  ∧ attr c "nohost" = Some (nohost p)
  ∧ attr c "memory_limit" = Some (memory_limit p)
  ∧ attr c "worker_port" = Some (worker_port p)
  ∧ attr c "nanny_port" = Some (nanny_port p)
  ∧ attr c "remote_python" = Some (remote_python p)
  ∧ attr c "remote_dask_worker" = Some (remote_dask_worker p)
  ∧ attr c "local_directory" = Some (local_directory p)
  ∧ worker_addr p = address.
Proof.
  unfold stored_params. intros H.
  repeat match type of H with
         | context [match attr c ?n with _ => _ end] =>
             destruct (attr c n); [|discriminate]
         end.
  injection H as <- <-. now repeat split.
Qed.

Lemma add_worker_run self address w c ws p ssh :
  w_objects w !! self = Some c → c_workers c = Some ws →
  stored_params c address = Some (p, ssh) →
  ∃ cmd, worker_cmd (w_executable w) p = Ok cmd
    ∧ let h := worker_handle cmd p ssh (length (w_queues w)) (length (w_threads w)) in
      add_worker self address w
      = (Ok tt, set_objects (insert self (with_workers (Some (ws ++ [h])) c))
                  (launched (p_dict h) w)).
Proof.
  intros Hc Hws Hp.
  destruct (stored_params_attrs _ _ _ _ Hp)
    as (H1 & H2 & H3 & H4 & H5 & H6 & H7 & H8 & H9 & H10 & H11 & H12 & H13 & H14 & H15 & Ha).
  destruct (start_worker_run p ssh w) as (cmd & Hcmd & Hstart).
  exists cmd. split; [exact Hcmd|]. cbn zeta.
  unfold add_worker.
  rewrite m_bind_run, (get_workers_run _ _ _ _ Hc Hws).
  repeat (rewrite m_bind_run; erewrite getattr_run by eauto).
  rewrite m_bind_run.
  replace {| logdir := logdir p; scheduler_addr := scheduler_addr p;
             scheduler_port := scheduler_port p; worker_addr := address;
             nthreads := nthreads p; n_workers := n_workers p; nohost := nohost p;
             memory_limit := memory_limit p; worker_port := worker_port p;
             nanny_port := nanny_port p; remote_python := remote_python p;
             remote_dask_worker := remote_dask_worker p;
             local_directory := local_directory p |} with p
    by (subst address; now destruct p).
  rewrite Hstart.
  unfold workers_append, on_object, modify. f_equal.
  unfold set_objects, launched. cbn [w_objects w_queues w_threads w_trace w_executable w_now].
  f_equal. rewrite (alter_lookup _ _ _ _ Hc). now rewrite Hws.
Qed.

Lemma for_each_shutdown ps w :
  for_each ps (λ process,
      Queue_put (cd_input_queue (p_dict process)) "shutdown" ;;
      Thread_join (p_thread process)) w
  = (Ok tt, shut_down ps w).
Proof.
  revert w. induction ps as [|p ps IH]; intros w; [reflexivity|].
  cbn [for_each shut_down]. rewrite m_bind_run, m_bind_run.
  unfold Queue_put at 1, Thread_join at 1, modify. cbn beta iota.
  apply IH.
Qed.

Lemma shut_down_trace ps w :
  w_trace (shut_down ps w) = w_trace w ++ flat_map shutdown_events ps.
Proof.
  revert w. induction ps as [|p ps IH]; intros w.
  - simpl. now rewrite app_nil_r.
  - cbn [shut_down flat_map]. rewrite IH. unfold emit, set_threads, set_queues.
    cbn [w_trace]. unfold shutdown_events at 2. now rewrite <- !app_assoc.
Qed.

Lemma shut_down_objects ps w : w_objects (shut_down ps w) = w_objects w.
Proof. revert w. induction ps as [|p ps IH]; intros w; [reflexivity|]. cbn [shut_down]. now rewrite IH. Qed.

Lemma shut_down_joined ps w p th :
  p ∈ ps → w_threads w !! p_thread p = Some th →
  ∃ th', w_threads (shut_down ps w) !! p_thread p = Some th' ∧ th_joined th' = true.
Proof.
  assert (∀ ps w t th, w_threads w !! t = Some th → th_joined th = true →
            ∃ th', w_threads (shut_down ps w) !! t = Some th' ∧ th_joined th' = true) as Hkeep.
  { clear. induction ps as [|q ps IH]; intros w t th Ht Hj; [eauto|].
    cbn [shut_down]. 
    destruct (decide (p_thread q = t)) as [<-|Hne].
    - eapply IH;
        [ unfold emit, set_threads, set_queues; cbn [w_threads];
          rewrite list_lookup_alter_eq; cbn [w_threads]; rewrite Ht; reflexivity
        | reflexivity ].
    - eapply IH; [|exact Hj].
      unfold emit, set_threads, set_queues. cbn [w_threads].
      rewrite list_lookup_alter_ne by done. exact Ht. }
  revert w. induction ps as [|q ps IH]; intros w Hin Ht; [by apply elem_of_nil in Hin|].
  cbn [shut_down].
  destruct (decide (p_thread q = p_thread p)) as [E|Hne].
  - eapply Hkeep;
      [ unfold emit, set_threads, set_queues; cbn [w_threads];
        rewrite E, list_lookup_alter_eq; cbn [w_threads]; rewrite Ht; reflexivity
      | reflexivity ].
  - apply elem_of_cons in Hin as [->|Hin]; [done|].
    apply IH; [exact Hin|].
    unfold emit, set_threads, set_queues. cbn [w_threads].
    rewrite list_lookup_alter_ne by done. exact Ht.
Qed.

Lemma shut_down_token ps w p items :
  p ∈ ps → w_queues w !! cd_input_queue (p_dict p) = Some items →
  ∃ items', w_queues (shut_down ps w) !! cd_input_queue (p_dict p) = Some items'
            ∧ "shutdown" ∈ items'.
Proof.
  assert (∀ ps w q items, w_queues w !! q = Some items → "shutdown" ∈ items →
            ∃ items', w_queues (shut_down ps w) !! q = Some items' ∧ "shutdown" ∈ items')
    as Hkeep.
  { clear. induction ps as [|r ps IH]; intros w q items Hq Hin; [eauto|].
    cbn [shut_down].
    destruct (decide (cd_input_queue (p_dict r) = q)) as [<-|Hne].
    - eapply IH;
        [ unfold emit, set_threads, set_queues; cbn [w_queues];
          rewrite list_lookup_alter_eq; cbn [w_queues]; rewrite Hq; reflexivity
        | apply elem_of_app; now left ].
    - eapply IH; [|exact Hin].
      unfold emit, set_threads, set_queues. cbn [w_queues].
      rewrite list_lookup_alter_ne by done. exact Hq. }
  revert w. induction ps as [|r ps IH]; intros w Hin Hq; [by apply elem_of_nil in Hin|].
  cbn [shut_down].
  destruct (decide (cd_input_queue (p_dict r) = cd_input_queue (p_dict p))) as [E|Hne].
  - eapply Hkeep;
      [ unfold emit, set_threads, set_queues; cbn [w_queues];
        rewrite E, list_lookup_alter_eq; cbn [w_queues]; rewrite Hq; reflexivity
      | apply elem_of_app; right; apply elem_of_cons; now left ].
  - apply elem_of_cons in Hin as [->|Hin]; [done|].
    apply IH; [exact Hin|].
    unfold emit, set_threads, set_queues. cbn [w_queues].
    rewrite list_lookup_alter_ne by done. exact Hq.
Qed.

Lemma shutdown_run self w c scheduler workers :
  w_objects w !! self = Some c →
  c_scheduler c = Some scheduler → c_workers c = Some workers →
  shutdown self w = (Ok tt, shut_down (scheduler :: workers) w).
Proof.
  intros Hc Hs Hw. unfold shutdown.
  rewrite m_bind_run, (get_scheduler_run _ _ _ _ Hc Hs).
  rewrite m_bind_run, (get_workers_run _ _ _ _ Hc Hw).
  apply for_each_shutdown.
Qed.

(** C5: [shutdown] takes the scheduler first and then the workers in the
    order in which they were added; for each handle it puts the shutdown
    token on the input queue of the handle and then joins its thread, before
    it turns to the next handle; when it returns the token is on the input
    queue of every handle and the thread of every handle has been joined. *)
Theorem shutdown_order self w c scheduler workers :
  w_objects w !! self = Some c →
  c_scheduler c = Some scheduler → c_workers c = Some workers →
  ∃ w', shutdown self w = (Ok tt, w')
    ∧ w_trace w'
      = w_trace w
        ++ flat_map (λ p, [EvQueuePut (cd_input_queue (p_dict p)) "shutdown";
                           EvThreadJoin (p_thread p)])
             (scheduler :: workers)
    ∧ w_objects w' = w_objects w
    ∧ (∀ p items, p ∈ scheduler :: workers →
                  w_queues w !! cd_input_queue (p_dict p) = Some items →
                  ∃ items', w_queues w' !! cd_input_queue (p_dict p) = Some items'
                            ∧ "shutdown" ∈ items')
    ∧ (∀ p th, p ∈ scheduler :: workers → w_threads w !! p_thread p = Some th →
               ∃ th', w_threads w' !! p_thread p = Some th' ∧ th_joined th' = true).
Proof.
  intros Hc Hs Hw. eexists. split; [exact (shutdown_run _ _ _ _ _ Hc Hs Hw)|].
  split; [apply shut_down_trace|]. split; [apply shut_down_objects|]. split.
  - intros p items. apply shut_down_token.
  - intros p th. apply shut_down_joined.
Qed.

(** C7: [__enter__] returns the cluster object it is given and changes
    nothing; [__exit__] calls [shutdown] whatever its arguments are; so a
    [with] statement over a cluster binds that same object, and runs
    [shutdown] on the state that its body leaves, after a body that returns
    and after a body that raises alike. *)
Theorem scoped_shutdown {A} self (body : nat → M A) w :
  __enter__ self w = (Ok self, w)
  ∧ (∀ args w1, __exit__ self args w1
                = match shutdown self w1 with
                  | (Ok _, w2) => (Ok PNone, w2)
                  | (Raise e, w2) => (Raise e, w2)
                  end)
  ∧ with_statement self body w
    = match body self w with
      | (Ok a, w1) =>
          match shutdown self w1 with
          | (Ok _, w2) => (Ok (Some a), w2)
          | (Raise e, w2) => (Raise e, w2)
          end
      | (Raise e, w1) =>
          match shutdown self w1 with
          | (Ok _, w2) => (Raise e, w2)
          | (Raise e', w2) => (Raise e', w2)
          end
      end.
Proof.
  split; [reflexivity|]. split.
  - intros args w1. unfold __exit__. rewrite m_bind_run.
    destruct (shutdown self w1) as [[[]|e] w2]; reflexivity.
  - unfold with_statement. rewrite m_bind_run. unfold __enter__, ret at 1. cbn beta iota.
    rewrite m_bind_run. unfold catch.
    destruct (body self w) as [[a|e] w1]; cbn beta iota.
    + rewrite m_bind_run. unfold __exit__. rewrite m_bind_run.
      destruct (shutdown self w1) as [[[]|e] w2]; reflexivity.
    + rewrite m_bind_run. unfold __exit__. rewrite m_bind_run.
      destruct (shutdown self w1) as [[[]|e'] w2]; reflexivity.
Qed.

(** C8: on a cluster object that holds its launch parameters and its list
    of workers, [add_worker] launches one worker built from the stored
    parameters and puts its handle at the end of the list; the handles that
    were in the list, the scheduler handle, the stored parameters, the other
    objects and the queues and threads that existed stay as they were. *)
Theorem add_worker_appends self address w c ws p ssh :
  w_objects w !! self = Some c → c_workers c = Some ws →
  stored_params c address = Some (p, ssh) →
  ∃ cmd w' c',
    worker_cmd (w_executable w) p = Ok cmd
    ∧ let h := worker_handle cmd p ssh (length (w_queues w)) (length (w_threads w)) in
      add_worker self address w = (Ok tt, w')
      ∧ w_objects w' !! self = Some c'
      ∧ c_workers c' = Some (ws ++ [h])
      ∧ length (ws ++ [h]) = S (length ws)
      ∧ (∀ i old, ws !! i = Some old → (ws ++ [h]) !! i = Some old)
      ∧ c_scheduler c' = c_scheduler c
      ∧ c_attrs c' = c_attrs c
      ∧ (∀ other, other ≠ self → w_objects w' !! other = w_objects w !! other)
      ∧ w_queues w' = w_queues w ++ [[]; []]
      ∧ w_threads w' = w_threads w ++ [launched_thread (p_dict h)]
      ∧ w_trace w' = w_trace w ++ [EvThreadStart (length (w_threads w))].
Proof.
  intros Hc Hws Hp.
  destruct (add_worker_run _ _ _ _ _ _ _ Hc Hws Hp) as (cmd & Hcmd & Hrun).
  set (h := worker_handle cmd p ssh (length (w_queues w)) (length (w_threads w))) in *.
  exists cmd, (set_objects (insert self (with_workers (Some (ws ++ [h])) c))
                 (launched (p_dict h) w)), (with_workers (Some (ws ++ [h])) c).
  split; [exact Hcmd|]. cbn zeta. split; [exact Hrun|].
  unfold set_objects, launched. cbn [w_objects w_queues w_threads w_trace].
  repeat split.
  - apply list_lookup_insert_eq. now apply lookup_lt_Some in Hc.
  - rewrite length_app. simpl. lia.
  - intros i old Hi. now apply lookup_app_l_Some.
  - intros other Hne. now apply list_lookup_insert_ne.
Qed.


Lemma initial_stored a nw ld ts sched ws address :
  stored_params {| c_attrs := initial_attrs a nw ld; c_threads := ts;
                   c_scheduler := sched; c_workers := ws |} address
  = Some (initial_params a nw ld address, initial_ssh a).
Proof.
  unfold stored_params, attr, initial_attrs. cbn [c_attrs].
  repeat (rewrite lookup_insert_eq || rewrite lookup_insert_ne by discriminate).
  reflexivity.
Qed.

Lemma start_scheduler_run logdir addr port u sp key rp w :
  ∃ cmd, scheduler_cmd (w_executable w) logdir addr port rp = Ok cmd
    ∧ start_scheduler logdir addr port u sp key rp w
      = (Ok (scheduler_handle cmd addr port (u, sp, key)
               (length (w_queues w)) (length (w_threads w))),
         launched (p_dict (scheduler_handle cmd addr port (u, sp, key)
                             (length (w_queues w)) (length (w_threads w)))) w).
Proof.
  eexists. split; [apply scheduler_cmd_eq|].
  unfold start_scheduler. rewrite m_bind_run. unfold gets at 1. cbn beta iota.
  rewrite m_bind_run. unfold lift at 1. rewrite scheduler_cmd_eq. cbn beta iota.
  rewrite m_bind_run. unfold Queue_new at 1. cbn beta iota.
  rewrite m_bind_run. unfold Queue_new at 1. cbn beta iota.
  rewrite m_bind_run. unfold Thread_new at 1. cbn beta iota.
  rewrite m_bind_run. unfold Thread_set_daemon, modify at 1. cbn beta iota.
  rewrite m_bind_run. unfold Thread_start, modify at 1. cbn beta iota.
  unfold ret, scheduler_handle, launched, launched_thread, emit, set_threads, set_queues.
  cbn [w_queues w_threads w_objects w_trace w_executable w_now p_dict].
  rewrite !length_app. cbn [length]. rewrite Nat.add_1_r.
  rewrite !alter_snoc. cbn [th_args th_daemon th_started th_joined].
  rewrite <- app_assoc. reflexivity.
Qed.

Lemma stored_params_workers c ws address :
  stored_params (with_workers ws c) address = stored_params c address.
Proof. reflexivity. Qed.

Lemma add_workers_run self params ssh addrs :
  ∀ w c ws,
    w_objects w !! self = Some c → c_workers c = Some ws →
    (∀ addr, stored_params c addr = Some (params addr, ssh)) →
    ∃ w', for_each addrs (λ addr, add_worker self addr) w = (Ok tt, w')
      ∧ w_objects w'
        = <[self := with_workers
                      (Some (ws ++ worker_handles (w_executable w) params ssh addrs
                                     (length (w_queues w)) (length (w_threads w)))) c]>
            (w_objects w)
      ∧ w_executable w' = w_executable w
      ∧ length (w_queues w') = length (w_queues w) + 2 * length addrs
      ∧ length (w_threads w') = length (w_threads w) + length addrs
      ∧ w_trace w'
        = w_trace w ++ map EvThreadStart (seq (length (w_threads w)) (length addrs)).
Proof.
  induction addrs as [|addr addrs IH]; intros w c ws Hc Hws Hp.
  - exists w. split; [reflexivity|]. cbn [worker_handles length seq].
    rewrite !app_nil_r, !Nat.add_0_r. repeat split.
    rewrite <- Hws. symmetry. replace (with_workers (c_workers c) c) with c by now destruct c.
    now apply list_insert_id.
  - destruct (add_worker_run _ _ _ _ _ _ _ Hc Hws (Hp addr)) as (cmd & Hcmd & Hrun).
    cbn zeta in Hrun. cbn [for_each]. rewrite m_bind_run, Hrun.
    set (h := worker_handle cmd (params addr) ssh (length (w_queues w)) (length (w_threads w))) in *.
    set (c1 := with_workers (Some (ws ++ [h])) c).
    set (w1 := set_objects (insert self c1) (launched (p_dict h) w)).
    assert (w_objects w1 !! self = Some c1) as Hc1.
    { unfold w1, set_objects, launched. cbn [w_objects].
      apply list_lookup_insert_eq. now apply lookup_lt_Some in Hc. }
    destruct (IH w1 c1 (ws ++ [h]) Hc1 eq_refl) as (w' & Hfor & Hobj & Hexe & Hq & Ht & Hl).
    { intros a. exact (Hp a). }
    exists w'. split; [exact Hfor|].
    assert (w_executable w1 = w_executable w) as He1 by reflexivity.
    assert (w_queues w1 = w_queues w ++ [[]; []]) as Hq1 by reflexivity.
    assert (w_threads w1 = w_threads w ++ [launched_thread (p_dict h)]) as Ht1 by reflexivity.
    assert (w_trace w1 = w_trace w ++ [EvThreadStart (length (w_threads w))]) as Htr1
      by reflexivity.
    assert (w_objects w1 = <[self := c1]> (w_objects w)) as Ho1 by reflexivity.
    rewrite Hobj, Hexe, Hq, Ht, Hl, He1, Hq1, Ht1, Htr1, Ho1.
    cbn [worker_handles]. rewrite Hcmd. fold h.
    rewrite !length_app. cbn [length].
    repeat split; try lia.
    + rewrite list_insert_insert_eq. unfold c1, with_workers. cbn [c_attrs c_threads c_scheduler].
      rewrite <- app_assoc. cbn [app].
      replace (length (w_queues w) + 2) with (S (S (length (w_queues w)))) by lia.
      replace (length (w_threads w) + 1) with (S (length (w_threads w))) by lia.
      reflexivity.
    + cbn [seq map]. rewrite <- app_assoc. cbn [app].
      replace (length (w_threads w) + 1) with (S (length (w_threads w))) by lia.
      reflexivity.
Qed.

Lemma resolve_n_workers_run nprocs n_workers w :
  negb (is_none nprocs) && negb (is_none n_workers) = false →
  resolve_n_workers nprocs n_workers w
  = (Ok (effective_n_workers nprocs n_workers), emit_all (n_workers_notice nprocs) w).
Proof.
  intros H. unfold resolve_n_workers, effective_n_workers, n_workers_notice. rewrite H.
  destruct w. destruct (is_none nprocs), (is_none n_workers); try discriminate;
    cbn; unfold emit_all; cbn; now rewrite ?app_nil_r.
Qed.

Lemma resolve_n_workers_both nprocs n_workers w :
  negb (is_none nprocs) && negb (is_none n_workers) = true →
  resolve_n_workers nprocs n_workers w
  = (Raise (ValueError "Both nprocs and n_workers were specified. Use n_workers only."), w).
Proof. intros H. unfold resolve_n_workers. now rewrite H. Qed.

Lemma resolve_logdir_run logdir w ld evs :
  resolved_logdir (w_now w) logdir = Some (ld, evs) →
  resolve_logdir logdir w = (Ok ld, emit_all evs w).
Proof.
  destruct w as [exe now qs ths objs tr]. destruct logdir as [| | |s]; try discriminate.
  - intros [= <- <-]. unfold emit_all. cbn. now rewrite app_nil_r.
  - intros [= <- <-]. unfold resolve_logdir.
    rewrite m_bind_run. unfold gets at 1. cbn beta iota. cbn [w_now].
    rewrite m_bind_run. unfold lift, format. simpl format_go. cbn beta iota.
    rewrite m_bind_run. unfold print, modify, emit, emit_all, ret. cbn.
    do 4 f_equal. norm_str. reflexivity.
Qed.

Lemma on_object_last f exe now qs ths objs c tr :
  on_object (length objs) f (Build_world exe now qs ths (objs ++ [c]) tr)
  = (Ok tt, Build_world exe now qs ths (objs ++ [f c]) tr).
Proof.
  unfold on_object, modify, set_objects. cbn [w_executable w_now w_queues w_threads
    w_objects w_trace]. now rewrite alter_snoc.
Qed.

Lemma setattr_last name v exe now qs ths objs attrs ts sched ws tr :
  setattr (length objs) name v
    (Build_world exe now qs ths (objs ++ [Build_cluster attrs ts sched ws]) tr)
  = (Ok tt, Build_world exe now qs ths
              (objs ++ [Build_cluster (<[name := v]> attrs) ts sched ws]) tr).
Proof. apply on_object_last. Qed.

Lemma set_threads_attr_last v exe now qs ths objs attrs ts sched ws tr :
  set_threads_attr (length objs) v
    (Build_world exe now qs ths (objs ++ [Build_cluster attrs ts sched ws]) tr)
  = (Ok tt, Build_world exe now qs ths
              (objs ++ [Build_cluster attrs (Some v) sched ws]) tr).
Proof. apply on_object_last. Qed.

Lemma set_scheduler_last v exe now qs ths objs attrs ts sched ws tr :
  set_scheduler (length objs) v
    (Build_world exe now qs ths (objs ++ [Build_cluster attrs ts sched ws]) tr)
  = (Ok tt, Build_world exe now qs ths
              (objs ++ [Build_cluster attrs ts (Some v) ws]) tr).
Proof. apply on_object_last. Qed.

Lemma set_workers_last v exe now qs ths objs attrs ts sched ws tr :
  set_workers (length objs) v
    (Build_world exe now qs ths (objs ++ [Build_cluster attrs ts sched ws]) tr)
  = (Ok tt, Build_world exe now qs ths
              (objs ++ [Build_cluster attrs ts sched (Some v)]) tr).
Proof. apply on_object_last. Qed.

Ltac init_start a w :=
  destruct w as [exe now qs ths objs tr];
  unfold SSHCluster; rewrite m_bind_run; unfold object_new at 1;
  cbn [w_objects]; unfold set_objects at 1;
  cbn [w_executable w_now w_queues w_threads w_objects w_trace]; cbn beta iota;
  rewrite m_bind_run; unfold __init__, empty_cluster;
  do 3 (rewrite m_bind_run, setattr_last).

Lemma SSHCluster_unexpected a w :
  unexpected_keywords a ≠ [] →
  SSHCluster a w
  = (Raise (TypeError ("__init__() got an unexpected keyword argument "
                       +:+ join ", " (unexpected_keywords a))),
     set_objects (λ os, os ++ [early_cluster a]) w).
Proof.
  intros Hk. init_start a w. unfold unexpected_keywords in *.
  rewrite m_bind_run.
  destruct (kw_del "nprocs" (a_kwargs a)) as [|kv rest]; [done|].
  reflexivity.
Qed.

Lemma SSHCluster_both a w :
  unexpected_keywords a = [] →
  negb (is_none (nprocs_of a)) && negb (is_none (a_n_workers a)) = true →
  SSHCluster a w
  = (Raise (ValueError "Both nprocs and n_workers were specified. Use n_workers only."),
     set_objects (λ os, os ++ [early_cluster a]) w).
Proof.
  intros Hk Hboth. init_start a w. unfold unexpected_keywords, nprocs_of in *.
  rewrite m_bind_run.
  destruct (kw_del "nprocs" (a_kwargs a)) as [|kv rest]; [|done].
  unfold ret at 1. cbn beta iota.
  rewrite m_bind_run, resolve_n_workers_both by exact Hboth.
  reflexivity.
Qed.

Lemma SSHCluster_run a w ld evs :
  unexpected_keywords a = [] →
  negb (is_none (nprocs_of a)) && negb (is_none (a_n_workers a)) = false →
  resolved_logdir (w_now w) (a_logdir a) = Some (ld, evs) →
  ∃ cmd w',
    scheduler_cmd (w_executable w) ld (a_scheduler_addr a) (a_scheduler_port a)
      (a_remote_python a) = Ok cmd
    ∧ SSHCluster a w = (Ok (length (w_objects w)), w')
    ∧ w_objects w'
      = w_objects w
        ++ [built_cluster a (w_executable w) cmd ld (length (w_queues w))
              (length (w_threads w))]
    ∧ w_trace w'
      = w_trace w ++ n_workers_notice (nprocs_of a) ++ evs
        ++ map EvThreadStart (seq (length (w_threads w)) (S (length (a_worker_addrs a))))
    ∧ w_executable w' = w_executable w.
Proof.
  intros Hk Hboth Hld. init_start a w. unfold unexpected_keywords, nprocs_of in *.
  cbn [w_now w_executable w_queues w_threads w_objects w_trace] in *.
  rewrite m_bind_run.
  destruct (kw_del "nprocs" (a_kwargs a)) as [|kv rest]; [|done].
  unfold ret at 1. cbn beta iota.
  rewrite m_bind_run, resolve_n_workers_run by exact Hboth.
  unfold emit_all at 1. cbn [w_executable w_now w_queues w_threads w_objects w_trace].
  cbn beta iota.
  do 11 (rewrite m_bind_run, setattr_last).
  rewrite m_bind_run. erewrite resolve_logdir_run by exact Hld.
  unfold emit_all at 1. cbn [w_executable w_now w_queues w_threads w_objects w_trace].
  cbn beta iota.
  rewrite m_bind_run, setattr_last.
  rewrite m_bind_run, set_threads_attr_last.
  rewrite m_bind_run.
  match goal with |- context [start_scheduler ?l ?ad ?po ?u ?sp ?k ?rp ?W] =>
    destruct (start_scheduler_run l ad po u sp k rp W) as (cmd & Hcmd & Hrun);
    rewrite Hrun
  end.
  cbn [w_executable w_queues w_threads] in Hcmd |- *.
  exists cmd.
  unfold launched at 1. cbn [w_executable w_now w_queues w_threads w_objects w_trace].
  cbn beta iota.
  rewrite m_bind_run, set_scheduler_last.
  rewrite m_bind_run, set_workers_last.
  set (nw := effective_n_workers _ _).
  fold (initial_attrs a nw ld).
  match goal with |- context [for_each _ _ ?W] =>
    match W with context [objs ++ [?c]] =>
      destruct (add_workers_run (length objs) (initial_params a nw ld) (initial_ssh a)
                  (a_worker_addrs a) W c []) as (w' & Hfor & Hobj & Hexe & _ & _ & Htr)
    end
  end.
  { cbn [w_objects]. apply list_lookup_middle. reflexivity. }
  { reflexivity. }
  { intros addr. apply initial_stored. }
  rewrite Hfor. cbn beta iota. exists w'. split; [exact Hcmd|]. split; [reflexivity|].
  cbn [w_executable w_queues w_threads w_objects w_trace] in Hobj, Hexe, Htr.
  rewrite Hobj, Hexe, Htr. split; [|split; [|reflexivity]].
  - rewrite insert_app_r_alt by lia. rewrite Nat.sub_diag. cbn [insert list_insert].
    unfold built_cluster, with_workers. cbn [c_attrs c_threads c_scheduler c_workers app].
    fold nw. rewrite !length_app. cbn [length].
    replace (length qs + 2) with (S (S (length qs))) by lia.
    replace (length ths + 1) with (S (length ths)) by lia.
    reflexivity.
  - rewrite !length_app. cbn [length seq map].
    replace (length ths + 1) with (S (length ths)) by lia.
    rewrite <- !app_assoc. reflexivity.
Qed.

Lemma resolved_logdir_path now logdir :
  is_path_or_none logdir = true → ∃ ld evs, resolved_logdir now logdir = Some (ld, evs).
Proof. destruct logdir; try discriminate; intros _; simpl; eauto. Qed.

Lemma built_cluster_n_workers a exe cmd ld nq nt :
  attr (built_cluster a exe cmd ld nq nt) "n_workers"
  = Some (effective_n_workers (nprocs_of a) (a_n_workers a)).
Proof.
  unfold attr, built_cluster, initial_attrs. cbn [c_attrs].
  repeat (rewrite lookup_insert_eq || rewrite lookup_insert_ne by discriminate).
  reflexivity.
Qed.

Lemma worker_handles_length exe params ssh addrs nq nt :
  length (worker_handles exe params ssh addrs nq nt) = length addrs.
Proof.
  revert nq nt. induction addrs as [|addr addrs IH]; intros nq nt; [reflexivity|].
  cbn [worker_handles]. rewrite worker_cmd_eq. cbn [length]. now rewrite IH.
Qed.

Lemma worker_handles_elem exe params ssh addrs nq nt h :
  h ∈ worker_handles exe params ssh addrs nq nt →
  ∃ addr, addr ∈ addrs ∧ worker_cmd exe (params addr) = Ok (cd_cmd (p_dict h))
          ∧ cd_address (p_dict h) = worker_addr (params addr).
Proof.
  revert nq nt. induction addrs as [|addr addrs IH]; intros nq nt.
  - intros H. by apply elem_of_nil in H.
  - cbn [worker_handles]. rewrite worker_cmd_eq.
    intros [->|H]%elem_of_cons.
    + exists addr. split; [apply elem_of_cons; now left|]. split; [apply worker_cmd_eq|reflexivity].
    + destruct (IH _ _ H) as (addr' & Hin & Hcmd). exists addr'.
      split; [apply elem_of_cons; now right|exact Hcmd].
Qed.

Lemma no_nworkers_flag exe p cmd :
  n_workers p = PInt 1 → worker_cmd exe p = Ok cmd →
  ¬ In "--nworkers" (map fst (worker_flags p))
  ∧ (valid_worker exe p → ¬ has_flag "--nworkers" cmd).
Proof.
  intros Hn Hcmd.
  assert (¬ In "--nworkers" (map fst (worker_flags p))) as Hno.
  { rewrite in_worker_flags, Hn. cbn. intros H.
    repeat (destruct_or! || destruct_and!); discriminate. }
  split; [exact Hno|]. intros Hv.
  rewrite (worker_cmd_has_flag _ _ Hv _ _ Hcmd) by reflexivity.
  intros [H|H]; [discriminate | exact (Hno H)].
Qed.


(** ** Claims about the construction of a cluster *)

(** C4: when both [nprocs] and [n_workers] are given values other than
    [None], the construction raises: the error about the two names, or,
    when further unknown keywords were passed, the error about those; by
    then no queue and no thread has been created, nothing was launched or
    printed, and the object has neither a scheduler nor a list of
    workers. *)
Theorem both_counts_rejected a w :
  nprocs_of a ≠ PNone → a_n_workers a ≠ PNone →
  ∃ e w', SSHCluster a w = (Raise e, w')
    ∧ (unexpected_keywords a = [] →
       e = ValueError "Both nprocs and n_workers were specified. Use n_workers only.")
    ∧ (unexpected_keywords a ≠ [] →
       e = TypeError ("__init__() got an unexpected keyword argument "
                      +:+ join ", " (unexpected_keywords a)))
    ∧ w_threads w' = w_threads w
    ∧ w_queues w' = w_queues w
    ∧ w_trace w' = w_trace w
    ∧ launches (w_trace w') = launches (w_trace w)
    ∧ ∃ c, w_objects w' = w_objects w ++ [c]
           ∧ c_scheduler c = None ∧ c_workers c = None.
Proof.
  intros Hp Hn.
  assert (negb (is_none (nprocs_of a)) && negb (is_none (a_n_workers a)) = true) as Hboth.
  { destruct (nprocs_of a), (a_n_workers a); try reflexivity; congruence. }
  destruct (unexpected_keywords a) as [|k ks] eqn:Hk.
  - eexists _, _. split; [apply SSHCluster_both; assumption|].
    split; [reflexivity|]. split; [done|]. repeat split. eexists. now repeat split.
  - eexists _, _. split; [apply SSHCluster_unexpected; now rewrite Hk|].
    split; [done|]. split; [now rewrite Hk|]. repeat split. eexists. now repeat split.
Qed.

Lemma both_counts_rejected_witness :
  nprocs_of (called_with (PInt 2) [("nprocs", PInt 2)] two_nodes) ≠ PNone
  ∧ a_n_workers (called_with (PInt 2) [("nprocs", PInt 2)] two_nodes) ≠ PNone
  ∧ ∃ e w', SSHCluster (called_with (PInt 2) [("nprocs", PInt 2)] two_nodes) initial_world
            = (Raise e, w')
      ∧ (unexpected_keywords (called_with (PInt 2) [("nprocs", PInt 2)] two_nodes) = [] →
         e = ValueError "Both nprocs and n_workers were specified. Use n_workers only.")
      ∧ (unexpected_keywords (called_with (PInt 2) [("nprocs", PInt 2)] two_nodes) ≠ [] →
         e = TypeError ("__init__() got an unexpected keyword argument "
                        +:+ join ", " (unexpected_keywords
                                         (called_with (PInt 2) [("nprocs", PInt 2)] two_nodes))))
      ∧ w_threads w' = w_threads initial_world
      ∧ w_queues w' = w_queues initial_world
      ∧ w_trace w' = w_trace initial_world
      ∧ launches (w_trace w') = launches (w_trace initial_world)
      ∧ ∃ c, w_objects w' = w_objects initial_world ++ [c]
             ∧ c_scheduler c = None ∧ c_workers c = None.
Proof.
  split; [discriminate|]. split; [discriminate|].
  apply both_counts_rejected; discriminate.
Defined.

(** C9: when only [nprocs] is given (no [n_workers], no other unknown
    keyword, and a log directory that is [None] or a path), the construction
    succeeds, a [FutureWarning] about the renaming is issued before anything
    else happens, and the worker count stored on the cluster, which every
    later worker is launched with, is the value given as [nprocs]. *)
Theorem legacy_nprocs_accepted a w :
  nprocs_of a ≠ PNone → a_n_workers a = PNone → unexpected_keywords a = [] →
  is_path_or_none (a_logdir a) = true →
  ∃ w' c, SSHCluster a w = (Ok (length (w_objects w)), w')
    ∧ w_objects w' !! length (w_objects w) = Some c
    ∧ attr c "n_workers" = Some (nprocs_of a)
    ∧ (∀ address, ∃ p ssh, stored_params c address = Some (p, ssh)
                           ∧ n_workers p = nprocs_of a)
    ∧ (∃ rest, w_trace w'
               = w_trace w ++ EvWarn "FutureWarning" nprocs_notice_init :: rest)
    ∧ length (launches (w_trace w')) = length (launches (w_trace w))
                                       + S (length (a_worker_addrs a)).
Proof.
  intros Hp Hn Hk Hlog.
  destruct (resolved_logdir_path (w_now w) _ Hlog) as (ld & evs & Hld).
  assert (negb (is_none (nprocs_of a)) && negb (is_none (a_n_workers a)) = false) as Hboth
    by (rewrite Hn; apply andb_false_r).
  destruct (SSHCluster_run a w ld evs Hk Hboth Hld) as (cmd & w' & _ & Hrun & Hobj & Htr & _).
  assert (effective_n_workers (nprocs_of a) (a_n_workers a) = nprocs_of a) as Heff.
  { unfold effective_n_workers. destruct (nprocs_of a); try reflexivity. congruence. }
  exists w', (built_cluster a (w_executable w) cmd ld (length (w_queues w))
                (length (w_threads w))).
  split; [exact Hrun|]. split; [rewrite Hobj; now apply list_lookup_middle|].
  split; [now rewrite built_cluster_n_workers, Heff|].
  split; [|split].
  - intros address. eexists _, _. split; [apply initial_stored|]. exact Heff.
  - rewrite Htr. unfold n_workers_notice.
    destruct (nprocs_of a); try congruence; cbn; eauto.
  - rewrite Htr. unfold launches. rewrite !flat_map_app, !length_app.
    assert (∀ l, flat_map (λ e, match e with EvThreadStart t => [t] | _ => [] end)
                   (map EvThreadStart l) = l) as Hs.
    { induction l as [|x l IH]; [reflexivity|]. cbn. now rewrite IH. }
    rewrite Hs, length_seq.
    assert (flat_map (λ e, match e with EvThreadStart t => [t] | _ => [] end)
              (n_workers_notice (nprocs_of a)) = []) as ->
      by (unfold n_workers_notice; now destruct (negb _)).
    assert (flat_map (λ e, match e with EvThreadStart t => [t] | _ => [] end) evs = []) as ->.
    { destruct (a_logdir a); try discriminate; injection Hld as <- <-; reflexivity. }
    cbn [length]. lia.
Qed.

Lemma legacy_nprocs_accepted_witness :
  nprocs_of (called_with PNone [("nprocs", PInt 4)] two_nodes) ≠ PNone
  ∧ a_n_workers (called_with PNone [("nprocs", PInt 4)] two_nodes) = PNone
  ∧ unexpected_keywords (called_with PNone [("nprocs", PInt 4)] two_nodes) = []
  ∧ is_path_or_none (a_logdir (called_with PNone [("nprocs", PInt 4)] two_nodes)) = true
  ∧ ∃ w' c, SSHCluster (called_with PNone [("nprocs", PInt 4)] two_nodes) initial_world
            = (Ok (length (w_objects initial_world)), w')
      ∧ w_objects w' !! length (w_objects initial_world) = Some c
      ∧ attr c "n_workers"
        = Some (nprocs_of (called_with PNone [("nprocs", PInt 4)] two_nodes))
      ∧ (∀ address, ∃ p ssh, stored_params c address = Some (p, ssh)
           ∧ n_workers p = nprocs_of (called_with PNone [("nprocs", PInt 4)] two_nodes))
      ∧ (∃ rest, w_trace w'
                 = w_trace initial_world
                   ++ EvWarn "FutureWarning" nprocs_notice_init :: rest)
      ∧ length (launches (w_trace w'))
        = length (launches (w_trace initial_world))
          + S (length (a_worker_addrs (called_with PNone [("nprocs", PInt 4)] two_nodes))).
Proof.
  split; [discriminate|]. split; [reflexivity|]. split; [reflexivity|].
  split; [reflexivity|].
  apply legacy_nprocs_accepted; [discriminate | reflexivity | reflexivity | reflexivity].
Defined.

(** C10, as worded, fails: when the unknown keyword is reported, the
    scheduler address, the scheduler port and the thread count are already
    stored on the object. *)
Lemma unexpected_keyword_claim_fails :
  ∃ w' c,
    SSHCluster (called_with PNone [("n_worker", PInt 2)] two_nodes) initial_world
    = (Raise (TypeError "__init__() got an unexpected keyword argument n_worker"), w')
    ∧ w_objects w' !! 0 = Some c
    ∧ attr c "nthreads" = Some (PInt 0)
    ∧ attr c "scheduler_addr" = Some (PStr "10.0.0.1")
    ∧ attr c "scheduler_port" = Some (PInt 8786)
    ∧ c_attrs c ≠ ∅.
Proof.
  eexists _, _. split.
  { rewrite SSHCluster_unexpected by discriminate. reflexivity. }
  split; [reflexivity|].
  unfold attr, early_cluster. cbn [c_attrs called_with two_nodes default_args a_nthreads
    a_scheduler_port a_scheduler_addr].
  repeat split;
    repeat (rewrite lookup_insert_eq || rewrite lookup_insert_ne by discriminate);
    try reflexivity.
  apply insert_non_empty.
Qed.

(** C10, amended: a keyword argument other than the named parameters and
    [nprocs] makes the construction raise a [TypeError] that names every
    such keyword; by then the scheduler address, the scheduler port and the
    thread count have been stored, but no worker count and no other launch
    parameter, and no scheduler or worker has been started.  When neither
    [nprocs] nor [n_workers] is given, the stored worker count is 1, and the
    command of every worker launched has no [--nworkers] among its flags. *)
Theorem unexpected_keyword_and_default a w :
  (unexpected_keywords a ≠ [] →
   ∃ w' c,
     SSHCluster a w
     = (Raise (TypeError ("__init__() got an unexpected keyword argument "
                          +:+ join ", " (unexpected_keywords a))), w')
     ∧ w_threads w' = w_threads w ∧ w_queues w' = w_queues w ∧ w_trace w' = w_trace w
     ∧ w_objects w' = w_objects w ++ [c]
     ∧ dom (c_attrs c) = {["scheduler_addr"; "scheduler_port"; "nthreads"]}
     ∧ c_scheduler c = None ∧ c_workers c = None)
  ∧ (unexpected_keywords a = [] → nprocs_of a = PNone → a_n_workers a = PNone →
     is_path_or_none (a_logdir a) = true →
     ∃ w' c ws,
       SSHCluster a w = (Ok (length (w_objects w)), w')
       ∧ w_objects w' !! length (w_objects w) = Some c
       ∧ attr c "n_workers" = Some (PInt 1)
       ∧ c_workers c = Some ws ∧ length ws = length (a_worker_addrs a)
       ∧ ∀ h, h ∈ ws →
           ∃ p, n_workers p = PInt 1
                ∧ worker_cmd (w_executable w) p = Ok (cd_cmd (p_dict h))
                ∧ ¬ In "--nworkers" (map fst (worker_flags p))
                ∧ (valid_worker (w_executable w) p →
                   ¬ has_flag "--nworkers" (cd_cmd (p_dict h)))).
Proof.
  split.
  - intros Hk. eexists _, _. split; [now apply SSHCluster_unexpected|].
    repeat split.
  - intros Hk Hp Hn Hlog.
    destruct (resolved_logdir_path (w_now w) _ Hlog) as (ld & evs & Hld).
    assert (negb (is_none (nprocs_of a)) && negb (is_none (a_n_workers a)) = false) as Hboth
      by (now rewrite Hn, Hp).
    destruct (SSHCluster_run a w ld evs Hk Hboth Hld) as (cmd & w' & _ & Hrun & Hobj & _).
    assert (effective_n_workers (nprocs_of a) (a_n_workers a) = PInt 1) as Heff
      by (now rewrite Hn, Hp).
    eexists w', _, _. split; [exact Hrun|].
    split; [rewrite Hobj; now apply list_lookup_middle|].
    split; [now rewrite built_cluster_n_workers, Heff|].
    split; [reflexivity|]. split; [apply worker_handles_length|].
    intros h Hh. apply worker_handles_elem in Hh as (addr & _ & Hcmd & _).
    set (p0 := initial_params a (effective_n_workers (nprocs_of a) (a_n_workers a)) ld addr)
      in *.
    assert (n_workers p0 = PInt 1) as Hone by exact Heff.
    exists p0. split; [exact Hone|]. split; [exact Hcmd|].
    exact (no_nworkers_flag _ p0 _ Hone Hcmd).
Qed.

Lemma unexpected_keyword_and_default_witness :
  (unexpected_keywords (called_with PNone [("n_worker", PInt 2)] two_nodes) ≠ []
   ∧ ∃ w' c,
       SSHCluster (called_with PNone [("n_worker", PInt 2)] two_nodes) initial_world
       = (Raise (TypeError
                   ("__init__() got an unexpected keyword argument "
                    +:+ join ", " (unexpected_keywords
                                     (called_with PNone [("n_worker", PInt 2)] two_nodes)))),
          w')
       ∧ w_threads w' = w_threads initial_world
       ∧ w_queues w' = w_queues initial_world
       ∧ w_trace w' = w_trace initial_world
       ∧ w_objects w' = w_objects initial_world ++ [c]
       ∧ dom (c_attrs c) = {["scheduler_addr"; "scheduler_port"; "nthreads"]}
       ∧ c_scheduler c = None ∧ c_workers c = None)
  ∧ unexpected_keywords two_nodes = [] ∧ nprocs_of two_nodes = PNone
  ∧ a_n_workers two_nodes = PNone ∧ is_path_or_none (a_logdir two_nodes) = true
  ∧ ∃ w' c ws,
      SSHCluster two_nodes initial_world = (Ok (length (w_objects initial_world)), w')
      ∧ w_objects w' !! length (w_objects initial_world) = Some c
      ∧ attr c "n_workers" = Some (PInt 1)
      ∧ c_workers c = Some ws ∧ length ws = length (a_worker_addrs two_nodes)
      ∧ ∀ h, h ∈ ws →
          ∃ p, n_workers p = PInt 1
               ∧ worker_cmd (w_executable initial_world) p = Ok (cd_cmd (p_dict h))
               ∧ ¬ In "--nworkers" (map fst (worker_flags p))
               ∧ (valid_worker (w_executable initial_world) p →
                  ¬ has_flag "--nworkers" (cd_cmd (p_dict h))).
Proof.
  split.
  { split; [discriminate|].
    apply (proj1 (unexpected_keyword_and_default
                    (called_with PNone [("n_worker", PInt 2)] two_nodes) initial_world)).
    discriminate. }
  split; [reflexivity|]. split; [reflexivity|]. split; [reflexivity|].
  split; [reflexivity|].
  apply (proj2 (unexpected_keyword_and_default two_nodes initial_world)); reflexivity.
Defined.

Lemma shutdown_order_witness :
  ∃ c scheduler workers,
    w_objects running_world !! 0 = Some c
    ∧ c_scheduler c = Some scheduler ∧ c_workers c = Some workers
    ∧ length workers = 1
    ∧ ∃ w', shutdown 0 running_world = (Ok tt, w')
        ∧ w_trace w'
          = w_trace running_world
            ++ flat_map (λ p, [EvQueuePut (cd_input_queue (p_dict p)) "shutdown";
                               EvThreadJoin (p_thread p)])
                 (scheduler :: workers)
        ∧ w_objects w' = w_objects running_world
        ∧ (∀ p items, p ∈ scheduler :: workers →
                      w_queues running_world !! cd_input_queue (p_dict p) = Some items →
                      ∃ items', w_queues w' !! cd_input_queue (p_dict p) = Some items'
                                ∧ "shutdown" ∈ items')
        ∧ (∀ p th, p ∈ scheduler :: workers →
                   w_threads running_world !! p_thread p = Some th →
                   ∃ th', w_threads w' !! p_thread p = Some th' ∧ th_joined th' = true).
Proof.
  eexists _, _, _.
  split; [vm_compute; reflexivity|]. split; [vm_compute; reflexivity|].
  split; [vm_compute; reflexivity|]. split; [reflexivity|].
  eapply shutdown_order; vm_compute; reflexivity.
Defined.

Lemma add_worker_appends_witness :
  ∃ c first p ssh,
    w_objects running_world !! 0 = Some c
    ∧ c_workers c = Some [first]
    ∧ stored_params c (PStr "10.0.0.3") = Some (p, ssh)
    ∧ ∃ cmd w' c',
        worker_cmd (w_executable running_world) p = Ok cmd
        ∧ let h := worker_handle cmd p ssh (length (w_queues running_world))
                     (length (w_threads running_world)) in
          add_worker 0 (PStr "10.0.0.3") running_world = (Ok tt, w')
          ∧ w_objects w' !! 0 = Some c'
          ∧ c_workers c' = Some ([first] ++ [h])
          ∧ length ([first] ++ [h]) = S (length [first])
          ∧ (∀ i old, [first] !! i = Some old → ([first] ++ [h]) !! i = Some old)
          ∧ c_scheduler c' = c_scheduler c
          ∧ c_attrs c' = c_attrs c
          ∧ (∀ other, other ≠ 0 → w_objects w' !! other = w_objects running_world !! other)
          ∧ w_queues w' = w_queues running_world ++ [[]; []]
          ∧ w_threads w' = w_threads running_world ++ [launched_thread (p_dict h)]
          ∧ w_trace w' = w_trace running_world
                         ++ [EvThreadStart (length (w_threads running_world))].
Proof.
  eexists _, _, _, _.
  split; [vm_compute; reflexivity|]. split; [vm_compute; reflexivity|].
  split; [vm_compute; reflexivity|].
  eapply add_worker_appends; vm_compute; reflexivity.
Defined.
(** ** Further properties of the runner *)

Lemma read_lines_rest entry render stream out :
  (∀ s, entry s = Ok (render s)) →
  ∃ rest, read_lines entry stream out
          = (Ok tt, rest, out ++ map (λ l, render (rstrip l)) (available stream))
    ∧ text_lines stream = available stream ++ text_lines rest
    ∧ length rest ≤ pred (length stream).
Proof.
  intros Hentry. revert out. induction stream as [|[line|] stream IH]; intros out.
  - exists []. simpl. rewrite app_nil_r. now repeat split.
  - simpl. destruct (0 <? String.length line) eqn:E.
    + rewrite Hentry. destruct (IH (out ++ [render (rstrip line)])) as (rest & -> & Ht & Hl).
      exists rest. simpl. rewrite <- app_assoc. split; [reflexivity|]. split.
      * now rewrite Ht.
      * simpl. lia.
    + exists stream. rewrite app_nil_r. repeat split; simpl; lia.
  - exists stream. simpl. rewrite app_nil_r. repeat split; simpl; lia.
Qed.

(** One call of [read_from_stdout], with all that it leaves. *)
Lemma read_from_stdout_full d r :
  ∃ rest, read_from_stdout d r
          = (Done tt,
             {| connects := connects r; stdout := rest; stderr := stderr r;
                exits := exits r; inputs := inputs r; clock := clock r;
                output_queue := output_queue r
                  ++ map (λ l, tagged (cd_label d) (rstrip l)) (available (stdout r));
                actions := actions r |})
    ∧ text_lines (stdout r) = available (stdout r) ++ text_lines rest
    ∧ length rest ≤ pred (length (stdout r)).
Proof.
  unfold read_from_stdout.
  destruct (read_lines_rest (stdout_entry d) (tagged (cd_label d)) (stdout r)
              (output_queue r) (stdout_entry_eq d)) as (rest & -> & Ht & Hl).
  exists rest. now repeat split.
Qed.

Lemma read_from_stderr_full d r :
  ∃ rest, read_from_stderr d r
          = (Done tt,
             {| connects := connects r; stdout := stdout r; stderr := rest;
                exits := exits r; inputs := inputs r; clock := clock r;
                output_queue := output_queue r
                  ++ map (λ l, tagged (cd_label d) (marked (rstrip l)))
                       (available (stderr r));
                actions := actions r |})
    ∧ text_lines (stderr r) = available (stderr r) ++ text_lines rest
    ∧ length rest ≤ pred (length (stderr r)).
Proof.
  unfold read_from_stderr.
  destruct (read_lines_rest (stderr_entry d) (λ s, tagged (cd_label d) (marked s))
              (stderr r) (output_queue r) (stderr_entry_eq d)) as (rest & -> & Ht & Hl).
  exists rest. now repeat split.
Qed.

Lemma exit_entry_eq d status : exit_entry d status = Ok (exit_notice d status).
Proof.
  unfold exit_entry, exit_notice, format, tagged, marked. simpl. norm_str. reflexivity.
Qed.

(** One call of [communicate], with all that it leaves. *)
Lemma communicate_run d r :
  ∃ r', communicate d r = (Done (bool_decide (is_Some (exits r 0))), r')
    ∧ output_queue r'
      = output_queue r ++ relayed d r
        ++ match exits r 0 with Some s => [exit_notice d s] | None => [] end
    ∧ actions r' = actions r
    ∧ exits r' = next (exits r) ∧ inputs r' = inputs r ∧ clock r' = clock r
    ∧ connects r' = connects r.
Proof.
  unfold communicate. rewrite run_bind.
  destruct (read_from_stdout_full d r) as (rest1 & -> & _). cbn beta iota.
  rewrite run_bind.
  match goal with |- context [read_from_stderr d ?r1] =>
    destruct (read_from_stderr_full d r1) as (rest2 & -> & _) end.
  cbn [stderr output_queue connects stdout exits inputs clock actions]. cbn beta iota.
  rewrite run_bind. unfold exit_status_ready at 1. cbn [exits]. cbn beta iota.
  unfold relayed. destruct (exits r 0) as [s|] eqn:E.
  - rewrite run_bind, exit_entry_eq. cbn [of_result mret R_ret]. cbn beta iota.
    rewrite run_bind. unfold put at 1. cbn beta iota.
    eexists. split; [reflexivity|].
    cbn [output_queue actions exits inputs clock connects enqueued exit_answered].
    rewrite <- !app_assoc. now repeat split.
  - eexists. split; [reflexivity|].
    cbn [output_queue actions exits inputs clock connects exit_answered].
    rewrite <- !app_assoc, app_nil_r. now repeat split.
Qed.

Lemma extends_same {X} (proj : remote → list X) P r r' :
  proj r' = proj r → extends proj P r r'.
Proof. intros E. exists []. now rewrite app_nil_r. Qed.

Lemma extends_trans {X} (proj : remote → list X) P r1 r2 r3 :
  extends proj P r1 r2 → extends proj P r2 r3 → extends proj P r1 r3.
Proof.
  intros (n1 & H1 & F1) (n2 & H2 & F2). exists (n1 ++ n2).
  rewrite H2, H1, app_assoc. split; [reflexivity|]. now apply Forall_app_2.
Qed.

Lemma extends_mono {X} (proj : remote → list X) (P Q : X → Prop) r r' :
  (∀ x, P x → Q x) → extends proj P r r' → extends proj Q r r'.
Proof.
  intros HPQ (new & E & F). exists new. split; [exact E|].
  eapply Forall_impl; eassumption.
Qed.

Lemma trail_same d allowed r r' :
  output_queue r' = output_queue r → actions r' = actions r → trail d allowed r r'.
Proof. intros Ho Ha. split; now apply extends_same. Qed.

Lemma trail_trans d allowed r1 r2 r3 :
  trail d allowed r1 r2 → trail d allowed r2 r3 → trail d allowed r1 r3.
Proof. intros [H1 H2] [H3 H4]. split; eapply extends_trans; eassumption. Qed.

Lemma trail_mono d (allowed allowed' : action → bool) r r' :
  (∀ a, allowed a = true → allowed' a = true) →
  trail d allowed r r' → trail d allowed' r r'.
Proof.
  intros Himp [H1 H2]. split; [exact H1|].
  eapply extends_mono; [|exact H2]. exact Himp.
Qed.

Lemma keeps_ret {A} d allowed (a : A) : keeps (trail d allowed) (mret a).
Proof. intros r o r' [= <- <-]. now apply trail_same. Qed.

Lemma keeps_stop {A} d allowed e : keeps (trail d allowed) (@stop A e).
Proof. intros r o r' [= <- <-]. now apply trail_same. Qed.

Lemma keeps_out_of_fuel {A} d allowed : keeps (trail d allowed) (@out_of_fuel A).
Proof. intros r o r' [= <- <-]. now apply trail_same. Qed.

Lemma keeps_bind {A B} d allowed (m : R A) (k : A → R B) :
  keeps (trail d allowed) m → (∀ a, keeps (trail d allowed) (k a)) →
  keeps (trail d allowed) (m ≫= k).
Proof.
  intros Hm Hk r o r'. rewrite run_bind.
  destruct (m r) as [[a|e|] r1] eqn:E.
  - intros H. eapply trail_trans; [exact (Hm _ _ _ E)|exact (Hk _ _ _ _ H)].
  - intros [= <- <-]. exact (Hm _ _ _ E).
  - intros [= <- <-]. exact (Hm _ _ _ E).
Qed.

Lemma keeps_mono {A} d (allowed allowed' : action → bool) (m : R A) :
  (∀ a, allowed a = true → allowed' a = true) →
  keeps (trail d allowed) m → keeps (trail d allowed') m.
Proof. intros Himp Hm r o r' E. eapply trail_mono; [exact Himp|exact (Hm _ _ _ E)]. Qed.

Lemma keeps_act d (allowed : action → bool) a :
  allowed a = true → keeps (trail d allowed) (act a).
Proof.
  intros Ha r o r' [= <- <-]. split.
  - now apply extends_same.
  - exists [a]. split; [reflexivity|]. now repeat constructor.
Qed.

Lemma keeps_oracles d allowed :
  keeps (trail d allowed) connect_answer
  ∧ keeps (trail d allowed) input_queue_empty
  ∧ keeps (trail d allowed) time.
Proof.
  split; [|split]; intros r o r' [= <- <-]; now apply trail_same.
Qed.

Lemma relayed_labelled d r : Forall (labelled d) (relayed d r).
Proof.
  unfold relayed. apply Forall_app_2; apply Forall_map, Forall_forall;
    intros l _; now eexists.
Qed.

Lemma keeps_communicate d allowed : keeps (trail d allowed) (communicate d).
Proof.
  intros r o r' H. destruct (communicate_run d r) as (r1 & E & Hq & Ha & _).
  rewrite E in H. injection H as <- <-. split; [|now apply extends_same].
  eexists. split; [exact Hq|].
  apply Forall_app_2; [apply relayed_labelled|].
  destruct (exits r 0); repeat constructor. now eexists.
Qed.

Ltac keep_acts :=
  repeat (apply keeps_bind; [apply keeps_act; reflexivity|]; intros _).

Lemma keeps_connect_loop d fuel retries :
  keeps (trail d connecting_action) (connect_loop fuel d retries).
Proof.
  revert retries. induction fuel as [|fuel IH]; intros retries; [apply keeps_out_of_fuel|].
  cbn [connect_loop]. keep_acts.
  apply keeps_bind.
  { unfold ssh_connect. keep_acts. apply keeps_oracles. }
  intros [|e|name]; [apply keeps_ret | | apply keeps_stop].
  keep_acts.
  destruct (3 <=? retries + 1).
  - keep_acts. apply keeps_stop.
  - keep_acts. apply IH.
Qed.

Lemma keeps_wait_loop d fuel : keeps (trail d session_action) (wait_loop fuel d).
Proof.
  induction fuel as [|fuel IH]; [apply keeps_out_of_fuel|].
  cbn [wait_loop]. apply keeps_bind; [apply keeps_oracles|]. intros [|]; [|apply keeps_ret].
  keep_acts.
  apply keeps_bind; [apply keeps_communicate|]. intros [|]; [apply keeps_ret|apply IH].
Qed.

Lemma keeps_interrupt_loop d fuel start :
  keeps (trail d session_action) (interrupt_loop fuel d start).
Proof.
  induction fuel as [|fuel IH]; [apply keeps_out_of_fuel|].
  cbn [interrupt_loop]. apply keeps_bind; [apply keeps_oracles|]. intros now.
  destruct (negb _); [|apply keeps_ret].
  keep_acts.
  apply keeps_bind; [apply keeps_communicate|]. intros [|]; [apply keeps_ret|].
  keep_acts. apply IH.
Qed.

Lemma keeps_async_ssh d fuel : keeps (trail d any_action) (async_ssh fuel d).
Proof.
  unfold async_ssh, run_command. keep_acts.
  apply keeps_bind; [eapply keeps_mono; [|apply keeps_connect_loop]; reflexivity|].
  intros _. keep_acts.
  apply keeps_bind; [eapply keeps_mono; [|apply keeps_wait_loop]; reflexivity|].
  intros _. apply keeps_bind; [apply keeps_oracles|]. intros start.
  apply keeps_bind; [eapply keeps_mono; [|apply keeps_interrupt_loop]; reflexivity|].
  intros _. keep_acts. apply keeps_act. reflexivity.
Qed.

(** One round of the wait loop whose poll finds the input queue empty. *)
Lemma wait_loop_round fuel d r :
  inputs r 0 = true →
  ∃ r1, communicate d (log ActSendIgnore (log (ActSleep 1) (input_answered r)))
        = (Done (bool_decide (is_Some (exits r 0))), r1)
    ∧ wait_loop (S fuel) d r
      = (if bool_decide (is_Some (exits r 0)) then (Done tt, r1) else wait_loop fuel d r1)
    ∧ output_queue r1
      = output_queue r ++ relayed d r
        ++ match exits r 0 with Some s => [exit_notice d s] | None => [] end
    ∧ actions r1 = actions r ++ idle_round
    ∧ exits r1 = next (exits r) ∧ inputs r1 = next (inputs r) ∧ clock r1 = clock r
    ∧ connects r1 = connects r.
Proof.
  intros Hin.
  destruct (communicate_run d (log ActSendIgnore (log (ActSleep 1) (input_answered r))))
    as (r1 & E & Hq & Ha & He & Hi & Hc & Hn).
  exists r1. split; [exact E|]. split.
  - cbn [wait_loop]. rewrite run_bind. unfold input_queue_empty at 1. cbn beta iota.
    rewrite Hin. rewrite run_bind. unfold act at 1. cbn beta iota.
    rewrite run_bind. unfold act at 1. cbn beta iota.
    rewrite run_bind, E. cbn [exits log input_answered].
    destruct (bool_decide _); reflexivity.
  - split; [exact Hq|]. split.
    { rewrite Ha. cbn [actions log input_answered]. now rewrite <- app_assoc. }
    now repeat split.
Qed.

Lemma wait_loop_run fuel d r :
  ∃ k o r', wait_loop fuel d r = (o, r') ∧ k ≤ fuel
    ∧ actions r' = actions r ++ concat (replicate k idle_round)
    ∧ clock r' = clock r
    ∧ (∀ i, i < k → inputs r i = true)
    ∧ (∀ i, S i < k → exits r i = None)
    ∧ ((o = Done tt ∧ inputs r k = false ∧ ∀ i, i < k → exits r i = None)
       ∨ (o = Done tt ∧ ∃ j, k = S j ∧ is_Some (exits r j))
       ∨ (o = OutOfFuel ∧ k = fuel ∧ ∀ i, i < k → exits r i = None)).
Proof.
  revert r. induction fuel as [|fuel IH]; intros r.
  { exists 0, OutOfFuel, r. cbn [wait_loop replicate concat]. rewrite app_nil_r.
    repeat split; try (intros; lia). right. right. repeat split. intros; lia. }
  destruct (inputs r 0) eqn:Hin.
  - destruct (wait_loop_round fuel d r Hin) as (r1 & _ & -> & _ & Ha & He & Hi & Hc & _).
    destruct (exits r 0) as [s|] eqn:Hex.
    + rewrite bool_decide_eq_true_2 by (now eexists).
      exists 1, (Done tt), r1. split; [reflexivity|]. split; [lia|].
      split; [now rewrite Ha; cbn [replicate concat]; rewrite app_nil_r|].
      split; [exact Hc|].
      split; [intros [|i] Hlt; [exact Hin|lia]|]. split; [intros; lia|].
      right. left. split; [reflexivity|]. exists 0. rewrite Hex. split; [reflexivity|now eexists].
    + rewrite bool_decide_eq_false_2 by (intros [? [=]]).
      destruct (IH r1) as (k & o & r' & -> & Hk & Hact & Hclk & Hinp & Hexi & Hend).
      rewrite Hi in Hinp, Hend. rewrite He in Hexi, Hend.
      exists (S k), o, r'. split; [reflexivity|]. split; [lia|].
      split; [rewrite Hact, Ha; cbn [replicate concat]; now rewrite <- app_assoc|].
      split; [now rewrite Hclk|].
      split; [intros [|i] Hlt; [exact Hin|apply Hinp; lia]|].
      split; [intros [|i] Hlt; [exact Hex|apply Hexi; lia]|].
      assert (∀ i, (∀ j, j < i → next (exits r) j = None) →
                   ∀ j, j < S i → exits r j = None) as Hshift.
      { intros i H [|j] Hlt; [exact Hex|apply H; lia]. }
      destruct Hend as [(-> & Hstop & Hno)|[(-> & j & -> & Hj)|(-> & -> & Hno)]].
      * left. repeat split; [exact Hstop|]. now apply Hshift.
      * right. left. split; [reflexivity|]. now exists (S j).
      * right. right. repeat split. now apply Hshift.
  - exists 0, (Done tt), (input_answered r). split.
    { cbn [wait_loop]. rewrite run_bind. unfold input_queue_empty at 1. cbn beta iota.
      now rewrite Hin. }
    split; [lia|]. split; [cbn [actions input_answered replicate concat]; now rewrite app_nil_r|].
    split; [reflexivity|].
    split; [intros; lia|]. split; [intros; lia|].
    left. repeat split; [exact Hin|]. intros; lia.
Qed.


(** The Ctrl-C loop returns unless the clock stays short of five seconds and
    the command goes on at every one of its rounds. *)
Lemma interrupt_loop_run fuel d start r :
  ∃ o r', interrupt_loop fuel d start r = (o, r')
    ∧ (o = Done tt
       ∨ (o = OutOfFuel
          ∧ ∀ i, i < fuel → Qle_bool (start + 5) (clock r i) = false)).
Proof.
  revert r. induction fuel as [|fuel IH]; intros r.
  { exists OutOfFuel, r. split; [reflexivity|]. right. split; [reflexivity|]. intros; lia. }
  cbn [interrupt_loop]. rewrite run_bind. unfold time at 1. cbn beta iota.
  destruct (Qle_bool (start + 5) (clock r 0)) eqn:Hnow; cbn [negb].
  { eexists _, _. split; [reflexivity|]. now left. }
  rewrite run_bind. unfold act at 1. cbn beta iota. rewrite run_bind.
  match goal with |- context [communicate d ?r2] =>
    destruct (communicate_run d r2) as (r3 & -> & _ & _ & _ & _ & Hc & _) end.
  cbn [clock log clock_answered] in Hc.
  destruct (bool_decide _).
  { eexists _, _. split; [reflexivity|]. now left. }
  rewrite run_bind. unfold act at 1. cbn beta iota.
  destruct (IH (log (ActSleep 1) r3)) as (o & r' & -> & Hend).
  exists o, r'. split; [reflexivity|].
  destruct Hend as [->|[-> Hshort]]; [now left|right]. split; [reflexivity|].
  intros [|i] Hlt; [exact Hnow|].
  specialize (Hshort i). cbn [clock log] in Hshort. rewrite Hc in Hshort.
  apply Hshort. lia.
Qed.

(** [async_ssh] on a host that accepts the first connection. *)
Lemma async_ssh_connected fuel d r :
  connects r 0 = ConnectOk →
  async_ssh (S fuel) d r
  = run_command (S fuel) d
      (connect_answered
         (log (ActConnect (cd_address d) (cd_ssh_username d) (cd_ssh_port d)
                 (cd_ssh_private_key d) true 30 30)
            (log (ActLogLevel "paramiko" "WARN")
               (log (ActHostKeyPolicy "AutoAddPolicy") r)))).
Proof.
  intros Hok. unfold async_ssh. rewrite run_bind. unfold act at 1. cbn beta iota.
  rewrite run_bind. cbn [connect_loop]. rewrite run_bind. unfold act at 1. cbn beta iota.
  rewrite run_bind. unfold ssh_connect. rewrite run_bind. unfold act at 1. cbn beta iota.
  unfold connect_answer. cbn [connects log]. rewrite Hok. reflexivity.
Qed.

(** [run_command] once the wait loop has been left. *)
Lemma run_command_wait fuel d r o r1 :
  wait_loop fuel d
    (log (ActSetTimeout (1 # 10))
       (log (ActExecCommand ("$SHELL -i -c '" +:+ cd_cmd d +:+ "'") true)
          (log (ActPrint ("[ " +:+ cd_label d +:+ " ] : " +:+ cd_cmd d)) r)))
  = (o, r1) →
  run_command fuel d r
  = match o with
    | Done _ =>
        match interrupt_loop fuel d (clock r1 0) (clock_answered r1) with
        | (Done _, r2) => (Done tt, log ActSSHClose (log ActChannelClose r2))
        | (Stop e, r2) => (Stop e, r2)
        | (OutOfFuel, r2) => (OutOfFuel, r2)
        end
    | Stop e => (Stop e, r1)
    | OutOfFuel => (OutOfFuel, r1)
    end.
Proof.
  intros E. unfold run_command.
  rewrite run_bind. unfold act at 1. cbn beta iota.
  rewrite run_bind. unfold act at 1. cbn beta iota.
  rewrite run_bind. unfold act at 1. cbn beta iota.
  rewrite run_bind, E. destruct o as [[]| |]; [|reflexivity..].
  rewrite run_bind. unfold time at 1. cbn beta iota.
  rewrite run_bind. destruct (interrupt_loop _ _ _ _) as [[[]|e|] r2]; [|reflexivity..].
  rewrite run_bind. unfold act. reflexivity.
Qed.

(** ** The runner: further properties *)

(** X1: one call of [communicate] puts on the output queue the lines that
    stdout has ready, then the lines that stderr has ready, each stripped and
    labelled, and then, exactly when the command has ended, the notice of its
    exit status; it answers whether the command has ended, raises nothing and
    does nothing to the SSH client. *)
Theorem communicate_relays d r :
  ∃ r', communicate d r = (Done (bool_decide (is_Some (exits r 0))), r')
    ∧ output_queue r'
      = output_queue r
        ++ map (λ l, tagged (cd_label d) (rstrip l)) (available (stdout r))
        ++ map (λ l, tagged (cd_label d) (marked (rstrip l))) (available (stderr r))
        ++ match exits r 0 with Some s => [exit_notice d s] | None => [] end
    ∧ actions r' = actions r.
Proof.
  destruct (communicate_run d r) as (r' & E & Hq & Ha & _).
  exists r'. split; [exact E|]. split; [|exact Ha].
  rewrite Hq. unfold relayed. now rewrite <- !app_assoc.
Qed.

(** X2: whatever the host answers and however [async_ssh] ends, it only adds
    to the output queue, and every item that it adds starts with the label of
    its descriptor. *)
Theorem output_labelled fuel d r :
  ∃ new, output_queue (async_ssh fuel d r).2 = output_queue r ++ new
         ∧ Forall (labelled d) new.
Proof.
  destruct (async_ssh fuel d r) as [o r'] eqn:E.
  exact (proj1 (keeps_async_ssh d fuel r o r' E)).
Qed.

(** X3: when [async_ssh] returns, it has started the command exactly once,
    after the actions of connecting, and it has closed the channel and then
    the client as its last two actions; in between it has only slept, sent
    keep-alive packets and sent Ctrl-C. *)
Theorem session_shape fuel d r r' :
  async_ssh fuel d r = (Done tt, r') →
  ∃ connecting session,
    actions r' = actions r ++ connecting ++ command_start d ++ session
                 ++ [ActChannelClose; ActSSHClose]
    ∧ Forall (λ a, connecting_action a = true) connecting
    ∧ Forall (λ a, session_action a = true) session.
Proof.
  intros E.
  destruct (connect_loop fuel d 0 (log (ActHostKeyPolicy "AutoAddPolicy") r))
    as [o1 r1] eqn:E1.
  rewrite (async_ssh_connect _ _ _ _ _ E1) in E.
  destruct (keeps_connect_loop _ _ _ _ _ _ E1) as [_ (new1 & Ha1 & F1)].
  destruct o1 as [[]| |]; [|discriminate..].
  destruct (wait_loop fuel d
              (log (ActSetTimeout (1 # 10))
                 (log (ActExecCommand ("$SHELL -i -c '" +:+ cd_cmd d +:+ "'") true)
                    (log (ActPrint ("[ " +:+ cd_label d +:+ " ] : " +:+ cd_cmd d)) r1))))
    as [o2 r2] eqn:E2.
  rewrite (run_command_wait _ _ _ _ _ E2) in E.
  destruct (keeps_wait_loop _ _ _ _ _ E2) as [_ (new2 & Ha2 & F2)].
  destruct o2 as [[]| |]; [|discriminate..].
  destruct (interrupt_loop fuel d (clock r2 0) (clock_answered r2)) as [o3 r3] eqn:E3.
  destruct (keeps_interrupt_loop _ _ _ _ _ _ E3) as [_ (new3 & Ha3 & F3)].
  destruct o3 as [[]| |]; [|discriminate..].
  injection E as <-.
  exists (ActHostKeyPolicy "AutoAddPolicy" :: new1), (new2 ++ new3).
  split; [|split].
  - cbn [actions log clock_answered] in *. rewrite Ha3, Ha2, Ha1. unfold command_start.
    rewrite <- !app_assoc. reflexivity.
  - constructor; [reflexivity|exact F1].
  - now apply Forall_app_2.
Qed.

Lemma session_shape_witness :
  ∃ r', async_ssh 5 worker_dict stopping_host = (Done tt, r')
    ∧ ∃ connecting session,
        actions r' = actions stopping_host ++ connecting ++ command_start worker_dict
                     ++ session ++ [ActChannelClose; ActSSHClose]
        ∧ Forall (λ a, connecting_action a = true) connecting
        ∧ Forall (λ a, session_action a = true) session.
Proof.
  eexists. split; [vm_compute; reflexivity|].
  apply (session_shape 5 worker_dict stopping_host). vm_compute. reflexivity.
Defined.

(** X4: the wait loop makes some number [k] of idle rounds, each a sleep of
    one second and a keep-alive packet, and never reads the clock.  The input
    queue was empty at each of the [k] polls and the command had not ended
    at the rounds before the last.  The loop is left either because the
    [k+1]-th poll finds a token, or because the command has ended at the
    [k]-th round, and it runs out of rounds only when neither happened. *)
Theorem wait_loop_rounds fuel d r :
  ∃ k o r', wait_loop fuel d r = (o, r') ∧ k ≤ fuel
    ∧ actions r' = actions r ++ concat (replicate k idle_round)
    ∧ clock r' = clock r
    ∧ (∀ i, i < k → inputs r i = true)
    ∧ (∀ i, S i < k → exits r i = None)
    ∧ ((o = Done tt ∧ inputs r k = false ∧ ∀ i, i < k → exits r i = None)
       ∨ (o = Done tt ∧ ∃ j, k = S j ∧ is_Some (exits r j))
       ∨ (o = OutOfFuel ∧ k = fuel ∧ ∀ i, i < k → exits r i = None)).
Proof. exact (wait_loop_run fuel d r). Qed.

(** X5: calls of [read_from_stdout], as many as the stream has answers, put
    every non-empty line of the stream on the output queue, in the order of
    the stream, each stripped and labelled, and leave the stream exhausted:
    timeouts and empty reads end a call but lose no line. *)
Theorem repeated_reads_drain k d r :
  length (stdout r) ≤ k →
  ∃ r', read_stdout_times k d r = (Done tt, r')
    ∧ output_queue r'
      = output_queue r ++ map (λ l, tagged (cd_label d) (rstrip l)) (text_lines (stdout r))
    ∧ stdout r' = [] ∧ stderr r' = stderr r ∧ actions r' = actions r.
Proof.
  revert r. induction k as [|k IH]; intros r Hk.
  - exists r. destruct (stdout r); [|simpl in Hk; lia].
    simpl. rewrite app_nil_r. now repeat split.
  - cbn [read_stdout_times]. rewrite run_bind.
    destruct (read_from_stdout_full d r) as (rest & -> & Ht & Hl). cbn beta iota.
    match goal with |- context [read_stdout_times k d ?r1] =>
      destruct (IH r1) as (r' & -> & Hq & Hs & He & Ha) end.
    { cbn [stdout]. lia. }
    cbn [stdout stderr output_queue actions] in *.
    exists r'. split; [reflexivity|]. split; [|now repeat split].
    rewrite Hq, Ht, map_app, <- app_assoc. reflexivity.
Qed.

Lemma repeated_reads_drain_witness :
  length (stdout (printing_on_stdout plain_line)) ≤ 1
  ∧ ∃ r', read_stdout_times 1 worker_dict (printing_on_stdout plain_line) = (Done tt, r')
      ∧ output_queue r'
        = output_queue (printing_on_stdout plain_line)
          ++ map (λ l, tagged (cd_label worker_dict) (rstrip l))
               (text_lines (stdout (printing_on_stdout plain_line)))
      ∧ stdout r' = [] ∧ stderr r' = stderr (printing_on_stdout plain_line)
      ∧ actions r' = actions (printing_on_stdout plain_line).
Proof.
  split; [simpl; lia|].
  apply (repeated_reads_drain 1 worker_dict (printing_on_stdout plain_line)).
  simpl; lia.
Defined.



(** X7: on a host that accepts the first connection, once a token is on the
    input queue and the clock passes five seconds after the token was seen,
    [async_ssh] returns, whatever the command prints and whether or not it
    ends: with rounds enough for the token and for the clock, the runner
    closes the channel and the client. *)
Theorem token_closes fuel d r k n :
  connects r 0 = ConnectOk →
  k < fuel → inputs r k = false →
  n < fuel → Qle_bool (clock r 0 + 5) (clock r (S n)) = true →
  ∃ r' done, async_ssh fuel d r = (Done tt, r')
    ∧ actions r' = done ++ [ActChannelClose; ActSSHClose].
Proof.
  intros Hok Hk Htoken Hn Hclock.
  destruct fuel as [|fuel]; [lia|].
  rewrite (async_ssh_connected _ _ _ Hok).
  match goal with |- context [run_command _ _ ?x] => set (r0 := x) end.
  set (rc := log (ActSetTimeout (1 # 10))
               (log (ActExecCommand ("$SHELL -i -c '" +:+ cd_cmd d +:+ "'") true)
                  (log (ActPrint ("[ " +:+ cd_label d +:+ " ] : " +:+ cd_cmd d)) r0))).
  destruct (wait_loop_run (S fuel) d rc)
    as (k' & o & r1 & E1 & Hk' & _ & Hc1 & Hinp & _ & Hend).
  rewrite (run_command_wait _ _ _ _ _ E1).
  assert (o = Done tt) as ->.
  { destruct Hend as [(-> & _)|[(-> & _)|(_ & -> & _)]]; [reflexivity..|].
    specialize (Hinp k Hk). cbn [rc r0 inputs log connect_answered] in Hinp. congruence. }
  destruct (interrupt_loop_run (S fuel) d (clock r1 0) (clock_answered r1))
    as (o3 & r3 & -> & Hend3).
  assert (o3 = Done tt) as ->.
  { destruct Hend3 as [->|[_ Hshort]]; [reflexivity|].
    specialize (Hshort n Hn). cbn [clock clock_answered next] in Hshort.
    rewrite Hc1 in Hshort. cbn [rc r0 clock log connect_answered] in Hshort.
    unfold next in Hshort. congruence. }
  eexists _, (actions r3). split; [reflexivity|].
  cbn [actions log]. now rewrite <- app_assoc.
Qed.

Lemma token_closes_witness :
  ∃ r' done, async_ssh 5 worker_dict stopping_host = (Done tt, r')
    ∧ actions r' = done ++ [ActChannelClose; ActSSHClose].
Proof.
  apply (token_closes 5 worker_dict stopping_host 2 4); try reflexivity; lia.
Defined.

(** ** The store after the construction *)

Lemma worker_handles_queues exe params ssh addrs nq nt :
  flat_map queues_of (worker_handles exe params ssh addrs nq nt)
  = seq nq (2 * length addrs).
Proof.
  revert nq nt. induction addrs as [|addr addrs IH]; intros nq nt; [reflexivity|].
  cbn [worker_handles]. rewrite worker_cmd_eq. cbn [flat_map length].
  rewrite IH. unfold queues_of, input_of, output_of, worker_handle.
  cbn [p_dict cd_input_queue cd_output_queue app].
  replace (2 * S (length addrs)) with (S (S (2 * length addrs))) by lia.
  reflexivity.
Qed.

Lemma worker_handles_threads exe params ssh addrs nq nt :
  map p_thread (worker_handles exe params ssh addrs nq nt) = seq nt (length addrs).
Proof.
  revert nq nt. induction addrs as [|addr addrs IH]; intros nq nt; [reflexivity|].
  cbn [worker_handles]. rewrite worker_cmd_eq. cbn [map length seq]. now rewrite IH.
Qed.

Lemma worker_handles_lookup exe params ssh addrs nq nt i h :
  worker_handles exe params ssh addrs nq nt !! i = Some h →
  input_of h = nq + 2 * i ∧ output_of h = nq + 2 * i + 1 ∧ p_thread h = nt + i
  ∧ ∃ addr, addrs !! i = Some addr ∧ cd_address (p_dict h) = worker_addr (params addr)
            ∧ cd_port (p_dict h) = None
            ∧ worker_cmd exe (params addr) = Ok (cd_cmd (p_dict h)).
Proof.
  revert nq nt i. induction addrs as [|addr addrs IH]; intros nq nt i; [done|].
  cbn [worker_handles]. rewrite worker_cmd_eq. destruct i as [|i].
  - intros [= <-]. unfold input_of, output_of. cbn.
    repeat split; try lia. exists addr. repeat split. now rewrite worker_cmd_eq.
  - cbn [lookup list_lookup]. intros H. destruct (IH _ _ _ H) as (H1 & H2 & H3 & H4).
    repeat split; try lia. exact H4.
Qed.

Lemma add_workers_store self params ssh addrs :
  ∀ w c ws,
    w_objects w !! self = Some c → c_workers c = Some ws →
    (∀ addr, stored_params c addr = Some (params addr, ssh)) →
    ∃ w', for_each addrs (λ addr, add_worker self addr) w = (Ok tt, w')
      ∧ w_queues w' = w_queues w ++ replicate (2 * length addrs) []
      ∧ w_threads w'
        = w_threads w
          ++ map (λ h, launched_thread (p_dict h))
               (worker_handles (w_executable w) params ssh addrs
                  (length (w_queues w)) (length (w_threads w))).
Proof.
  induction addrs as [|addr addrs IH]; intros w c ws Hc Hws Hp.
  - exists w. split; [reflexivity|]. cbn. now rewrite !app_nil_r.
  - destruct (add_worker_run _ _ _ _ _ _ _ Hc Hws (Hp addr)) as (cmd & Hcmd & Hrun).
    cbn zeta in Hrun. cbn [for_each]. rewrite m_bind_run, Hrun.
    set (h := worker_handle cmd (params addr) ssh (length (w_queues w)) (length (w_threads w))) in *.
    set (c1 := with_workers (Some (ws ++ [h])) c).
    set (w1 := set_objects (insert self c1) (launched (p_dict h) w)).
    assert (w_objects w1 !! self = Some c1) as Hc1.
    { unfold w1, set_objects, launched. cbn [w_objects].
      apply list_lookup_insert_eq. now apply lookup_lt_Some in Hc. }
    destruct (IH w1 c1 (ws ++ [h]) Hc1 eq_refl) as (w' & Hfor & Hq & Ht).
    { intros a. exact (Hp a). }
    exists w'. split; [exact Hfor|].
    assert (w_executable w1 = w_executable w) as He1 by reflexivity.
    assert (w_queues w1 = w_queues w ++ [[]; []]) as Hq1 by reflexivity.
    assert (w_threads w1 = w_threads w ++ [launched_thread (p_dict h)]) as Ht1 by reflexivity.
    rewrite Hq, Ht, He1, Hq1, Ht1.
    cbn [worker_handles]. rewrite Hcmd. fold h.
    rewrite !length_app. cbn [length map].
    replace (length (w_queues w) + 2) with (S (S (length (w_queues w)))) by lia.
    replace (length (w_threads w) + 1) with (S (length (w_threads w))) by lia.
    rewrite <- !app_assoc. split; [|reflexivity].
    replace (2 * S (length addrs)) with (S (S (2 * length addrs))) by lia.
    reflexivity.
Qed.

Lemma SSHCluster_store a w ld evs :
  unexpected_keywords a = [] →
  negb (is_none (nprocs_of a)) && negb (is_none (a_n_workers a)) = false →
  resolved_logdir (w_now w) (a_logdir a) = Some (ld, evs) →
  ∃ cmd w',
    scheduler_cmd (w_executable w) ld (a_scheduler_addr a) (a_scheduler_port a)
      (a_remote_python a) = Ok cmd
    ∧ SSHCluster a w = (Ok (length (w_objects w)), w')
    ∧ w_queues w' = w_queues w ++ replicate (2 * S (length (a_worker_addrs a))) []
    ∧ w_threads w'
      = w_threads w
        ++ map (λ h, launched_thread (p_dict h))
             (scheduler_handle cmd (a_scheduler_addr a) (a_scheduler_port a)
                (initial_ssh a) (length (w_queues w)) (length (w_threads w))
              :: worker_handles (w_executable w)
                   (initial_params a (effective_n_workers (nprocs_of a) (a_n_workers a)) ld)
                   (initial_ssh a) (a_worker_addrs a)
                   (S (S (length (w_queues w)))) (S (length (w_threads w)))).
Proof.
  intros Hk Hboth Hld. init_start a w. unfold unexpected_keywords, nprocs_of in *.
  cbn [w_now w_executable w_queues w_threads w_objects w_trace] in *.
  rewrite m_bind_run.
  destruct (kw_del "nprocs" (a_kwargs a)) as [|kv rest]; [|done].
  unfold ret at 1. cbn beta iota.
  rewrite m_bind_run, resolve_n_workers_run by exact Hboth.
  unfold emit_all at 1. cbn [w_executable w_now w_queues w_threads w_objects w_trace].
  cbn beta iota.
  do 11 (rewrite m_bind_run, setattr_last).
  rewrite m_bind_run. erewrite resolve_logdir_run by exact Hld.
  unfold emit_all at 1. cbn [w_executable w_now w_queues w_threads w_objects w_trace].
  cbn beta iota.
  rewrite m_bind_run, setattr_last.
  rewrite m_bind_run, set_threads_attr_last.
  rewrite m_bind_run.
  match goal with |- context [start_scheduler ?l ?ad ?po ?u ?sp ?k ?rp ?W] =>
    destruct (start_scheduler_run l ad po u sp k rp W) as (cmd & Hcmd & Hrun);
    rewrite Hrun
  end.
  cbn [w_executable w_queues w_threads] in Hcmd |- *.
  exists cmd.
  unfold launched at 1. cbn [w_executable w_now w_queues w_threads w_objects w_trace].
  cbn beta iota.
  rewrite m_bind_run, set_scheduler_last.
  rewrite m_bind_run, set_workers_last.
  set (nw := effective_n_workers _ _).
  fold (initial_attrs a nw ld).
  match goal with |- context [for_each _ _ ?W] =>
    match W with context [objs ++ [?c]] =>
      destruct (add_workers_store (length objs) (initial_params a nw ld) (initial_ssh a)
                  (a_worker_addrs a) W c []) as (w' & Hfor & Hq & Ht)
    end
  end.
  { cbn [w_objects]. apply list_lookup_middle. reflexivity. }
  { reflexivity. }
  { intros addr. apply initial_stored. }
  rewrite Hfor. cbn beta iota. exists w'. split; [exact Hcmd|]. split; [reflexivity|].
  cbn [w_executable w_queues w_threads w_objects w_trace] in Hq, Ht.
  rewrite Hq, Ht. rewrite !length_app. cbn [length map].
  replace (length qs + 2) with (S (S (length qs))) by lia.
  replace (length ths + 1) with (S (length ths)) by lia.
  rewrite <- !app_assoc. split; [|reflexivity].
  replace (2 * S (length (a_worker_addrs a))) with (S (S (2 * length (a_worker_addrs a))))
    by lia.
  reflexivity.
Qed.

(** ** The store after [shutdown] *)

Lemma shut_down_queues ps :
  NoDup (map input_of ps) →
  ∀ w q, w_queues (shut_down ps w) !! q
         = if decide (q ∈ map input_of ps)
           then (λ items, items ++ ["shutdown"]) <$> (w_queues w !! q)
           else w_queues w !! q.
Proof.
  induction ps as [|p ps IH]; intros Hnd w q.
  { cbn [shut_down map]. destruct (decide _) as [H|]; [by apply elem_of_nil in H|done]. }
  cbn [map] in Hnd. apply NoDup_cons in Hnd as [Hp Hnd].
  cbn [shut_down]. rewrite (IH Hnd). unfold emit, set_threads, set_queues. cbn [w_queues map].
  fold (input_of p).
  destruct (decide (q = input_of p)) as [->|Hne].
  - rewrite decide_False by exact Hp. rewrite decide_True by (apply elem_of_cons; now left).
    now rewrite list_lookup_alter_eq.
  - rewrite list_lookup_alter_ne by congruence.
    destruct (decide (q ∈ map input_of ps)) as [Hin|Hout].
    + rewrite decide_True by (apply elem_of_cons; now right). reflexivity.
    + rewrite decide_False; [reflexivity|]. intros [?|?]%elem_of_cons; done.
Qed.

Lemma shut_down_threads ps :
  ∀ w t, w_threads (shut_down ps w) !! t
         = if decide (t ∈ map p_thread ps)
           then joined <$> (w_threads w !! t)
           else w_threads w !! t.
Proof.
  induction ps as [|p ps IH]; intros w t.
  { cbn [shut_down map]. destruct (decide _) as [H|]; [by apply elem_of_nil in H|done]. }
  cbn [shut_down]. rewrite IH. unfold emit, set_threads, set_queues. cbn [w_threads map].
  fold joined.
  destruct (decide (t = p_thread p)) as [->|Hne].
  - rewrite list_lookup_alter_eq.
    rewrite (decide_True (P := p_thread p ∈ p_thread p :: _)) by (apply elem_of_cons; now left).
    destruct (decide _); [|reflexivity].
    destruct (w_threads w !! p_thread p); reflexivity.
  - rewrite list_lookup_alter_ne by congruence.
    destruct (decide (t ∈ map p_thread ps)) as [Hin|Hout].
    + rewrite decide_True by (apply elem_of_cons; now right). reflexivity.
    + rewrite decide_False; [reflexivity|]. intros [?|?]%elem_of_cons; done.
Qed.

(** ** Handles with queues and threads of their own *)

Lemma queues_of_inputs ps x : x ∈ map input_of ps → x ∈ flat_map queues_of ps.
Proof.
  induction ps as [|p ps IH]; [done|]. cbn [map flat_map queues_of app].
  intros [->|H]%elem_of_cons; [apply elem_of_cons; now left|].
  apply elem_of_cons; right. apply elem_of_cons; right. now apply IH.
Qed.

Lemma queues_of_outputs ps x : x ∈ map output_of ps → x ∈ flat_map queues_of ps.
Proof.
  induction ps as [|p ps IH]; [done|]. cbn [map flat_map queues_of app].
  intros [->|H]%elem_of_cons.
  - apply elem_of_cons; right. apply elem_of_cons; now left.
  - apply elem_of_cons; right. apply elem_of_cons; right. now apply IH.
Qed.

Lemma queues_of_NoDup ps :
  NoDup (flat_map queues_of ps) → NoDup (map input_of ps) ∧ NoDup (map output_of ps).
Proof.
  induction ps as [|p ps IH]; [intros _; split; constructor|].
  cbn [map flat_map queues_of app]. intros [Hi [Ho Hnd]%NoDup_cons]%NoDup_cons.
  destruct (IH Hnd) as [H1 H2]. split; apply NoDup_cons; split; try assumption.
  - intros H. apply Hi, elem_of_cons. right. now apply queues_of_inputs.
  - intros H. apply Ho. now apply queues_of_outputs.
Qed.

Lemma queues_of_elem ps x :
  x ∈ flat_map queues_of ps → ∃ p, p ∈ ps ∧ (x = input_of p ∨ x = output_of p).
Proof.
  induction ps as [|p ps IH]; [intros H; by apply elem_of_nil in H|].
  cbn [flat_map queues_of app]. intros [->|[->|H]%elem_of_cons]%elem_of_cons.
  - exists p. split; [apply elem_of_cons; now left|now left].
  - exists p. split; [apply elem_of_cons; now left|now right].
  - destruct (IH H) as (p' & Hp' & Hx). exists p'. split; [apply elem_of_cons; now right|exact Hx].
Qed.

(** ** The monitor *)

Lemma monitor_loop_S n ps pc w :
  monitor_loop (S n) ps pc w
  = match monitor_step ps pc w with
    | (Ok pc', w') => monitor_loop n ps pc' w'
    | (Raise e, w') => (Raise e, w')
    end.
Proof. reflexivity. Qed.

Lemma step_sleep ps w : monitor_step ps (Sweep []) w = (Ok (Sweep ps), w).
Proof. reflexivity. Qed.

Lemma step_skip ps p rest w :
  queue_items w (output_of p) = [] →
  monitor_step ps (Sweep (p :: rest)) w = (Ok (Sweep rest), w).
Proof.
  intros H. cbn [monitor_step]. rewrite m_bind_run. unfold Queue_get.
  fold (output_of p). now rewrite H.
Qed.

Lemma step_take ps p rest w item more :
  queue_items w (output_of p) = item :: more →
  monitor_step ps (Sweep (p :: rest)) w
  = (Ok (Got item (p :: rest)), set_queues (<[output_of p := more]>) w).
Proof.
  intros H. cbn [monitor_step]. rewrite m_bind_run. unfold Queue_get.
  fold (output_of p). now rewrite H.
Qed.

Lemma step_print ps item todo w :
  monitor_step ps (Got item todo) w = (Ok (Sweep todo), emit (EvPrint item) w).
Proof. reflexivity. Qed.

Lemma queue_items_lt w q item more : queue_items w q = item :: more → q < length (w_queues w).
Proof.
  unfold queue_items. destruct (w_queues w !! q) eqn:E; [|discriminate].
  intros _. now apply lookup_lt_Some in E.
Qed.

Lemma queue_items_eq w1 w2 q :
  w_queues w2 !! q = w_queues w1 !! q → queue_items w2 q = queue_items w1 q.
Proof. unfold queue_items. now intros ->. Qed.

Lemma pending_eq w1 w2 ps :
  (∀ p, p ∈ ps → w_queues w2 !! output_of p = w_queues w1 !! output_of p) →
  pending w2 ps = pending w1 ps.
Proof.
  induction ps as [|p ps IH]; intros H; [reflexivity|].
  unfold pending in *. cbn [map concat]. f_equal.
  - apply queue_items_eq, H, elem_of_cons. now left.
  - apply IH. intros p' Hp'. apply H, elem_of_cons. now right.
Qed.

Lemma pending_empty w ps :
  (∀ p, p ∈ ps → queue_items w (output_of p) = []) → pending w ps = [].
Proof.
  induction ps as [|p ps IH]; intros H; [reflexivity|].
  unfold pending in *. cbn [map concat].
  rewrite (H p) by (apply elem_of_cons; now left). cbn [app].
  apply IH. intros p' Hp'. apply H, elem_of_cons. now right.
Qed.

Lemma pending_app w ps1 ps2 : pending w (ps1 ++ ps2) = pending w ps1 ++ pending w ps2.
Proof. unfold pending. now rewrite map_app, concat_app. Qed.

Lemma pending_cons w p ps :
  pending w (p :: ps) = queue_items w (output_of p) ++ pending w ps.
Proof. reflexivity. Qed.

(** Taking the lines of one process out of its queue and printing them. *)
Lemma drain_queue ps p rest items :
  ∀ w k, queue_items w (output_of p) = items →
    ∃ w', monitor_loop (2 * length items + 1 + k) ps (Sweep (p :: rest)) w
          = monitor_loop k ps (Sweep rest) w'
      ∧ w_trace w' = w_trace w ++ map EvPrint items
      ∧ queue_items w' (output_of p) = []
      ∧ (∀ q, q ≠ output_of p → w_queues w' !! q = w_queues w !! q)
      ∧ w_threads w' = w_threads w ∧ w_objects w' = w_objects w.
Proof.
  induction items as [|item more IH]; intros w k Hq.
  - exists w. cbn [length Nat.mul Nat.add]. rewrite monitor_loop_S, (step_skip _ _ _ _ Hq).
    cbn [map]. rewrite app_nil_r. now repeat split.
  - replace (2 * length (item :: more) + 1 + k)
      with (S (S (2 * length more + 1 + k))) by (cbn [length]; lia).
    rewrite monitor_loop_S, (step_take _ _ _ _ _ _ Hq).
    rewrite monitor_loop_S, step_print.
    pose proof (queue_items_lt _ _ _ _ Hq) as Hlt.
    destruct (IH (emit (EvPrint item) (set_queues (<[output_of p := more]>) w)) k)
      as (w' & -> & Htr & Hempty & Hother & Hth & Hob).
    { unfold queue_items, emit, set_queues. cbn [w_queues].
      now rewrite list_lookup_insert_eq. }
    exists w'. split; [reflexivity|]. split; [|split; [exact Hempty|split; [|split]]].
    + rewrite Htr. unfold emit, set_queues. cbn [w_trace map]. now rewrite <- app_assoc.
    + intros q Hne. rewrite (Hother q Hne). unfold emit, set_queues. cbn [w_queues].
      apply list_lookup_insert_ne. congruence.
    + exact Hth.
    + exact Hob.
Qed.

(** One sweep over processes with output queues of their own. *)
Lemma drain_sweep ps todo :
  NoDup (map output_of todo) →
  ∀ w k,
    ∃ w', monitor_loop (2 * length (pending w todo) + length todo + k) ps (Sweep todo) w
          = monitor_loop k ps (Sweep []) w'
      ∧ w_trace w' = w_trace w ++ map EvPrint (pending w todo)
      ∧ (∀ p, p ∈ todo → queue_items w' (output_of p) = [])
      ∧ (∀ q, q ∉ map output_of todo → w_queues w' !! q = w_queues w !! q)
      ∧ w_threads w' = w_threads w ∧ w_objects w' = w_objects w.
Proof.
  induction todo as [|p rest IH]; intros Hnd w k.
  - exists w. cbn [pending map concat length Nat.mul Nat.add].
    rewrite app_nil_r. repeat split. intros p Hp. by apply elem_of_nil in Hp.
  - cbn [map] in Hnd. apply NoDup_cons in Hnd as [Hp Hnd].
    rewrite pending_cons, length_app.
    set (items := queue_items w (output_of p)).
    destruct (drain_queue ps p rest items w
                (2 * length (pending w rest) + length rest + k) eq_refl)
      as (w1 & Hrun & Htr1 & He1 & Ho1 & Hth1 & Hob1).
    assert (pending w1 rest = pending w rest) as Hpend.
    { apply pending_eq. intros p' Hp'. apply Ho1. intros E. apply Hp. rewrite <- E.
      now apply (list_elem_of_fmap_2 output_of). }
    destruct (IH Hnd w1 k) as (w' & Hrun' & Htr & Hempty & Hother & Hth & Hob).
    rewrite Hpend in Hrun', Htr.
    exists w'. split; [|split; [|split; [|split; [|split]]]].
    + rewrite <- Hrun', <- Hrun. f_equal. cbn [length]. lia.
    + rewrite Htr, Htr1, map_app, <- app_assoc. reflexivity.
    + intros p' [->|Hp']%elem_of_cons; [|now apply Hempty].
      rewrite (queue_items_eq w1 w' (output_of p)); [exact He1|]. apply Hother, Hp.
    + intros q Hq. rewrite Hother, Ho1; [reflexivity| |].
      * intros ->. apply Hq, elem_of_cons. now left.
      * intros Hin. apply Hq, elem_of_cons. now right.
    + now rewrite Hth.
    + now rewrite Hob.
Qed.

(** With nothing queued the monitor changes nothing. *)
Lemma monitor_idle ps w :
  (∀ p, p ∈ ps → queue_items w (output_of p) = []) →
  ∀ k todo, (∀ p, p ∈ todo → p ∈ ps) → monitor_loop k ps (Sweep todo) w = (Ok tt, w).
Proof.
  intros Hempty. induction k as [|k IH]; intros todo Hsub; [reflexivity|].
  rewrite monitor_loop_S. destruct todo as [|p rest].
  - rewrite step_sleep. now apply IH.
  - rewrite step_skip by (apply Hempty, Hsub, elem_of_cons; now left).
    apply IH. intros p' Hp'. apply Hsub, elem_of_cons. now right.
Qed.

(** One step of the monitor keeps [monitor_inv]. *)
Lemma monitor_step_inv ps w0 w1 pc printed :
  NoDup (map output_of ps) →
  monitor_inv ps w0 w1 pc printed →
  ∃ w2 pc2 printed2,
    monitor_step ps pc w1 = (Ok pc2, w2) ∧ monitor_inv ps w0 w2 pc2 printed2.
Proof.
  intros Hnd (Htr & Hth & Hob & Hother & visited & Hps & Hvis & Hsum).
  destruct pc as [[|p rest]|item todo]; cbn [todo_of in_flight] in *.
  - (* the sleep *)
    exists w1, (Sweep ps), printed. split; [apply step_sleep|].
    rewrite app_nil_r in Hps. subst visited.
    repeat split; try assumption. exists []. split; [reflexivity|].
    split; [intros p Hp; by apply elem_of_nil in Hp|].
    cbn [todo_of in_flight app] in *. now rewrite (pending_empty _ _ Hvis), app_nil_r in *.
  - destruct (queue_items w1 (output_of p)) as [|item more] eqn:Hq.
    + (* the queue is empty *)
      exists w1, (Sweep rest), printed. split; [now apply step_skip|].
      repeat split; try assumption. exists (visited ++ [p]).
      split; [now rewrite <- app_assoc|]. split.
      * intros p' [Hp'|Hp']%elem_of_app; [now apply Hvis|].
        apply list_elem_of_singleton in Hp'. now subst p'.
      * cbn [todo_of in_flight app] in *. rewrite pending_cons, Hq in Hsum. exact Hsum.
    + (* an item is taken *)
      pose proof (queue_items_lt _ _ _ _ Hq) as Hlt.
      rewrite Hps, map_app in Hnd. cbn [map] in Hnd.
      apply NoDup_app in Hnd as (_ & Hdisj & Hnd). apply NoDup_cons in Hnd as [Hp _].
      set (w2 := set_queues (<[output_of p := more]>) w1).
      assert (∀ q, q ≠ output_of p → w_queues w2 !! q = w_queues w1 !! q) as Hsame.
      { intros q Hne. unfold w2, set_queues. cbn [w_queues].
        apply list_lookup_insert_ne. congruence. }
      exists w2, (Got item (p :: rest)), printed. split; [now apply step_take|].
      split; [exact Htr|]. split; [exact Hth|]. split; [exact Hob|]. split.
      { intros q Hq'. rewrite Hsame; [now apply Hother|].
        intros ->. apply Hq'. rewrite Hps, map_app. apply elem_of_app. right.
        apply elem_of_cons. now left. }
      exists visited. split; [exact Hps|]. split.
      * intros p' Hp'. rewrite (queue_items_eq w1); [now apply Hvis|].
        apply Hsame. intros E.
        apply (Hdisj (output_of p')); [now apply (list_elem_of_fmap_2 output_of)|].
        rewrite E. apply elem_of_cons. now left.
      * cbn [todo_of in_flight app] in *. rewrite pending_cons in *. rewrite Hq in Hsum.
        assert (queue_items w2 (output_of p) = more) as ->.
        { unfold queue_items, w2, set_queues. cbn [w_queues].
          now rewrite list_lookup_insert_eq. }
        assert (pending w2 rest = pending w1 rest) as ->.
        { apply pending_eq. intros p' Hp'. apply Hsame. intros E. apply Hp. rewrite <- E.
          now apply (list_elem_of_fmap_2 output_of). }
        rewrite <- Hsum. reflexivity.
  - (* the print *)
    exists (emit (EvPrint item) w1), (Sweep todo), (printed ++ [item]).
    split; [apply step_print|].
    split; [unfold emit; cbn [w_trace]; now rewrite Htr, map_app, <- app_assoc|].
    split; [exact Hth|]. split; [exact Hob|]. split; [exact Hother|].
    exists visited. split; [exact Hps|]. split; [exact Hvis|].
    cbn [todo_of in_flight app] in *. rewrite <- Hsum, <- app_assoc. reflexivity.
Qed.

Lemma monitor_loop_inv ps w0 :
  NoDup (map output_of ps) →
  ∀ n w1 pc printed,
    monitor_inv ps w0 w1 pc printed →
    ∃ w' pc' printed',
      monitor_loop n ps pc w1 = (Ok tt, w') ∧ monitor_inv ps w0 w' pc' printed'.
Proof.
  intros Hnd. induction n as [|n IH]; intros w1 pc printed Hinv.
  - exists w1, pc, printed. split; [reflexivity|exact Hinv].
  - destruct (monitor_step_inv _ _ _ _ _ Hnd Hinv) as (w2 & pc2 & printed2 & Hstep & Hinv2).
    rewrite monitor_loop_S, Hstep. exact (IH _ _ _ Hinv2).
Qed.

Lemma monitor_inv_start ps w : monitor_inv ps w w (Sweep ps) [].
Proof.
  repeat split; [now rewrite app_nil_r|]. exists []. split; [reflexivity|].
  split; [intros p Hp; by apply elem_of_nil in Hp|reflexivity].
Qed.

Lemma monitor_remote_processes_run n self w c scheduler workers :
  w_objects w !! self = Some c →
  c_scheduler c = Some scheduler → c_workers c = Some workers →
  monitor_remote_processes n self w
  = monitor_loop n (scheduler :: workers) (Sweep (scheduler :: workers)) w.
Proof.
  intros Hc Hs Hw. unfold monitor_remote_processes.
  rewrite m_bind_run, (get_scheduler_run _ _ _ _ Hc Hs).
  rewrite m_bind_run, (get_workers_run _ _ _ _ Hc Hw). reflexivity.
Qed.

Lemma SSHCluster_bad_logdir a w :
  unexpected_keywords a = [] →
  negb (is_none (nprocs_of a)) && negb (is_none (a_n_workers a)) = false →
  is_path_or_none (a_logdir a) = false →
  ∃ w' c,
    SSHCluster a w = (Raise (TypeError "expected str, bytes or os.PathLike object"), w')
    ∧ w_queues w' = w_queues w ∧ w_threads w' = w_threads w
    ∧ w_trace w' = w_trace w ++ n_workers_notice (nprocs_of a)
    ∧ w_objects w' = w_objects w ++ [c]
    ∧ attr c "logdir" = None ∧ c_scheduler c = None ∧ c_workers c = None.
Proof.
  intros Hk Hboth Hld. init_start a w. unfold unexpected_keywords, nprocs_of in *.
  cbn [w_now w_executable w_queues w_threads w_objects w_trace] in *.
  rewrite m_bind_run.
  destruct (kw_del "nprocs" (a_kwargs a)) as [|kv rest]; [|done].
  unfold ret at 1. cbn beta iota.
  rewrite m_bind_run, resolve_n_workers_run by exact Hboth.
  unfold emit_all at 1. cbn [w_executable w_now w_queues w_threads w_objects w_trace].
  cbn beta iota.
  do 11 (rewrite m_bind_run, setattr_last).
  rewrite m_bind_run.
  destruct (a_logdir a) as [|b|n|s]; try discriminate;
    (eexists _, _; split; [reflexivity|]; cbn [w_queues w_threads w_trace w_objects];
     repeat split; unfold attr; cbn [c_attrs];
     repeat (rewrite lookup_insert_ne by discriminate); apply lookup_empty).
Qed.

(** ** The cluster: further properties *)

(** X8: a successful construction gives the scheduler and every worker, in
    the order of the addresses, two queues of their own and a thread of
    their own, created for them one after the other; the queues are empty,
    the thread is a started daemon that has not been joined and that was
    given the very dictionary, hence the very queues, that the handle holds;
    no two handles share a queue or a thread; what the store held before is
    untouched and nothing else is created.  So the cluster is left with
    handles that refer to existing queues and threads of their own. *)
Theorem construction_wiring a w :
  unexpected_keywords a = [] →
  nprocs_of a = PNone ∨ a_n_workers a = PNone →
  is_path_or_none (a_logdir a) = true →
  ∃ w' c sched ws,
    SSHCluster a w = (Ok (length (w_objects w)), w')
    ∧ w_objects w' !! length (w_objects w) = Some c
    ∧ c_scheduler c = Some sched ∧ c_workers c = Some ws
    ∧ length ws = length (a_worker_addrs a)
    ∧ (∀ i h, (sched :: ws) !! i = Some h →
         input_of h = length (w_queues w) + 2 * i
         ∧ output_of h = length (w_queues w) + 2 * i + 1
         ∧ p_thread h = length (w_threads w) + i
         ∧ w_queues w' !! input_of h = Some []
         ∧ w_queues w' !! output_of h = Some []
         ∧ w_threads w' !! p_thread h = Some (launched_thread (p_dict h)))
    ∧ NoDup (flat_map queues_of (sched :: ws))
    ∧ NoDup (map p_thread (sched :: ws))
    ∧ (∀ q items, w_queues w !! q = Some items → w_queues w' !! q = Some items)
    ∧ (∀ t th, w_threads w !! t = Some th → w_threads w' !! t = Some th)
    ∧ length (w_queues w') = length (w_queues w) + 2 * length (sched :: ws)
    ∧ length (w_threads w') = length (w_threads w) + length (sched :: ws)
    ∧ wired w' c.
Proof.
  intros Hk Hone Hlog.
  destruct (resolved_logdir_path (w_now w) _ Hlog) as (ld & evs & Hld).
  assert (negb (is_none (nprocs_of a)) && negb (is_none (a_n_workers a)) = false) as Hboth.
  { destruct Hone as [-> | ->]; [reflexivity|apply andb_false_r]. }
  destruct (SSHCluster_run a w ld evs Hk Hboth Hld) as (cmd & w' & Hcmd & Hrun & Hobj & _).
  destruct (SSHCluster_store a w ld evs Hk Hboth Hld) as (cmd' & w'' & Hcmd' & Hrun' & Hq & Ht).
  rewrite Hrun in Hrun'. injection Hrun' as <-.
  rewrite Hcmd in Hcmd'. injection Hcmd' as <-.
  set (nw := effective_n_workers (nprocs_of a) (a_n_workers a)) in *.
  set (sched := scheduler_handle cmd (a_scheduler_addr a) (a_scheduler_port a)
                  (initial_ssh a) (length (w_queues w)) (length (w_threads w))) in *.
  set (ws := worker_handles (w_executable w) (initial_params a nw ld) (initial_ssh a)
               (a_worker_addrs a) (S (S (length (w_queues w)))) (S (length (w_threads w))))
    in *.
  assert (length ws = length (a_worker_addrs a)) as Hlen by apply worker_handles_length.
  exists w', (built_cluster a (w_executable w) cmd ld (length (w_queues w))
                (length (w_threads w))), sched, ws.
  split; [exact Hrun|]. split; [rewrite Hobj; now apply list_lookup_middle|].
  split; [reflexivity|]. split; [reflexivity|]. split; [exact Hlen|].
  assert (∀ i h, (sched :: ws) !! i = Some h →
            i < S (length ws)
            ∧ input_of h = length (w_queues w) + 2 * i
            ∧ output_of h = length (w_queues w) + 2 * i + 1
            ∧ p_thread h = length (w_threads w) + i) as Hnum.
  { intros i h Hh. split; [apply lookup_lt_Some in Hh; exact Hh|].
    destruct i as [|i].
    - injection Hh as <-. unfold input_of, output_of. cbn. lia.
    - cbn [lookup list_lookup] in Hh.
      destruct (worker_handles_lookup _ _ _ _ _ _ _ _ Hh) as (H1 & H2 & H3 & _). lia. }
  assert (NoDup (flat_map queues_of (sched :: ws))) as Hndq.
  { cbn [flat_map]. unfold ws. rewrite worker_handles_queues.
    change (NoDup (seq (length (w_queues w)) (S (S (2 * length (a_worker_addrs a)))))).
    apply NoDup_seq. }
  assert (NoDup (map p_thread (sched :: ws))) as Hndt.
  { cbn [map]. unfold ws. rewrite worker_handles_threads.
    change (NoDup (seq (length (w_threads w)) (S (length (a_worker_addrs a))))).
    apply NoDup_seq. }
  assert (length (w_queues w') = length (w_queues w) + 2 * length (sched :: ws)) as Hlq
    by (rewrite Hq, length_app, length_replicate; cbn [length]; lia).
  assert (length (w_threads w') = length (w_threads w) + length (sched :: ws)) as Hlt
    by (rewrite Ht, length_app, length_map; cbn [length]; lia).
  split; [|split; [exact Hndq|split; [exact Hndt|split; [|split; [|split; [exact Hlq|
          split; [exact Hlt|]]]]]]].
  - intros i h Hh. destruct (Hnum i h Hh) as (Hi & Hin & Hout & Hth).
    rewrite Hin, Hout, Hth. repeat split.
    + rewrite Hq, lookup_app_r by lia. apply lookup_replicate_2. lia.
    + rewrite Hq, lookup_app_r by lia. apply lookup_replicate_2. lia.
    + rewrite Ht, lookup_app_r by lia.
      replace (length (w_threads w) + i - length (w_threads w)) with i by lia.
      rewrite list_lookup_fmap, Hh. reflexivity.
  - intros q items Hqi. rewrite Hq. now apply lookup_app_l_Some.
  - intros t th Hti. rewrite Ht. now apply lookup_app_l_Some.
  - exists sched, ws. split; [reflexivity|]. split; [reflexivity|].
    split; [exact Hndq|]. split; [exact Hndt|].
    intros h Hh. apply list_elem_of_lookup_1 in Hh as [i Hh].
    destruct (Hnum i h Hh) as (Hi & Hin & Hout & Hth).
    rewrite Hlq, Hlt. cbn [length]. lia.
Qed.

Lemma construction_wiring_witness :
  ∃ w' c sched ws,
    SSHCluster two_nodes initial_world = (Ok (length (w_objects initial_world)), w')
    ∧ w_objects w' !! length (w_objects initial_world) = Some c
    ∧ c_scheduler c = Some sched ∧ c_workers c = Some ws
    ∧ length ws = length (a_worker_addrs two_nodes)
    ∧ (∀ i h, (sched :: ws) !! i = Some h →
         input_of h = length (w_queues initial_world) + 2 * i
         ∧ output_of h = length (w_queues initial_world) + 2 * i + 1
         ∧ p_thread h = length (w_threads initial_world) + i
         ∧ w_queues w' !! input_of h = Some []
         ∧ w_queues w' !! output_of h = Some []
         ∧ w_threads w' !! p_thread h = Some (launched_thread (p_dict h)))
    ∧ NoDup (flat_map queues_of (sched :: ws))
    ∧ NoDup (map p_thread (sched :: ws))
    ∧ (∀ q items, w_queues initial_world !! q = Some items → w_queues w' !! q = Some items)
    ∧ (∀ t th, w_threads initial_world !! t = Some th → w_threads w' !! t = Some th)
    ∧ length (w_queues w') = length (w_queues initial_world) + 2 * length (sched :: ws)
    ∧ length (w_threads w') = length (w_threads initial_world) + length (sched :: ws)
    ∧ wired w' c.
Proof.
  apply (construction_wiring two_nodes initial_world).
  - reflexivity.
  - left. reflexivity.
  - reflexivity.
Defined.

(** X9: on a cluster whose handles have input queues of their own,
    [shutdown] adds exactly one token at the end of the input queue of each
    handle and changes no other queue; output queues keep what they hold.
    It joins the threads of the handles and leaves every other thread, and
    everything else about a thread, as it was. *)
Theorem shutdown_exact self w c scheduler workers :
  w_objects w !! self = Some c →
  c_scheduler c = Some scheduler → c_workers c = Some workers →
  NoDup (map input_of (scheduler :: workers)) →
  ∃ w', shutdown self w = (Ok tt, w')
    ∧ (∀ p items, p ∈ scheduler :: workers →
         w_queues w !! input_of p = Some items →
         w_queues w' !! input_of p = Some (items ++ ["shutdown"]))
    ∧ (∀ q, q ∉ map input_of (scheduler :: workers) → w_queues w' !! q = w_queues w !! q)
    ∧ (∀ p th, p ∈ scheduler :: workers →
         w_threads w !! p_thread p = Some th →
         w_threads w' !! p_thread p = Some (joined th))
    ∧ (∀ t, t ∉ map p_thread (scheduler :: workers) → w_threads w' !! t = w_threads w !! t).
Proof.
  intros Hc Hs Hw Hnd. eexists. split; [exact (shutdown_run _ _ _ _ _ Hc Hs Hw)|].
  split; [|split; [|split]].
  - intros p items Hp Hq. rewrite (shut_down_queues _ Hnd), Hq.
    rewrite decide_True; [reflexivity|]. now apply (list_elem_of_fmap_2 _ _ p).
  - intros q Hq. rewrite (shut_down_queues _ Hnd). now rewrite decide_False.
  - intros p th Hp Ht. rewrite shut_down_threads, Ht.
    rewrite decide_True; [reflexivity|]. now apply (list_elem_of_fmap_2 _ _ p).
  - intros t Ht. rewrite shut_down_threads. now rewrite decide_False.
Qed.

Lemma shutdown_exact_witness :
  ∃ c scheduler workers,
    w_objects running_world !! 0 = Some c
    ∧ c_scheduler c = Some scheduler ∧ c_workers c = Some workers
    ∧ NoDup (map input_of (scheduler :: workers))
    ∧ ∃ w', shutdown 0 running_world = (Ok tt, w')
      ∧ (∀ p items, p ∈ scheduler :: workers →
           w_queues running_world !! input_of p = Some items →
           w_queues w' !! input_of p = Some (items ++ ["shutdown"]))
      ∧ (∀ q, q ∉ map input_of (scheduler :: workers) →
              w_queues w' !! q = w_queues running_world !! q)
      ∧ (∀ p th, p ∈ scheduler :: workers →
           w_threads running_world !! p_thread p = Some th →
           w_threads w' !! p_thread p = Some (joined th))
      ∧ (∀ t, t ∉ map p_thread (scheduler :: workers) →
              w_threads w' !! t = w_threads running_world !! t).
Proof.
  eexists _, _, _.
  split; [vm_compute; reflexivity|]. split; [vm_compute; reflexivity|].
  split; [vm_compute; reflexivity|].
  assert (NoDup [0; 2]) as Hnd.
  { apply NoDup_cons. split; [|apply NoDup_singleton].
    intros H%list_elem_of_singleton. discriminate. }
  split; [exact Hnd|].
  eapply shutdown_exact; [vm_compute; reflexivity..|exact Hnd].
Defined.

(** X10: [nprocs] is another name of [n_workers].  Assigning [nprocs]
    issues a [FutureWarning] and stores the value as the worker count,
    leaving every other attribute, the handles, the queues and the threads
    as they are; reading [nprocs] afterwards issues the warning again and
    gives that value, as does reading [n_workers]; and the parameters that a
    later [add_worker] launches with are the former ones with this worker
    count. *)
Theorem nprocs_renames_n_workers self w c v :
  w_objects w !! self = Some c →
  ∃ w1 c1,
    nprocs_set self v w = (Ok tt, w1)
    ∧ w_trace w1 = w_trace w ++ [EvWarn "FutureWarning" nprocs_notice_attr]
    ∧ w_objects w1 !! self = Some c1
    ∧ attr c1 "n_workers" = Some v
    ∧ (∀ name, name ≠ "n_workers" → attr c1 name = attr c name)
    ∧ c_scheduler c1 = c_scheduler c ∧ c_workers c1 = c_workers c
    ∧ w_queues w1 = w_queues w ∧ w_threads w1 = w_threads w
    ∧ nprocs_get self w1 = (Ok v, emit (EvWarn "FutureWarning" nprocs_notice_attr) w1)
    ∧ getattr self "n_workers" w1 = (Ok v, w1)
    ∧ (∀ address p ssh, stored_params c address = Some (p, ssh) →
         stored_params c1 address = Some (with_n_workers v p, ssh)).
Proof.
  intros Hc.
  set (c1 := with_attrs (insert "n_workers" v) c).
  set (w1 := set_objects (alter (with_attrs (insert "n_workers" v)) self)
               (emit (EvWarn "FutureWarning" nprocs_notice_attr) w)).
  assert (w_objects w1 !! self = Some c1) as Hc1.
  { unfold w1, set_objects, emit. cbn [w_objects]. rewrite list_lookup_alter_eq, Hc. reflexivity. }
  assert (attr c1 "n_workers" = Some v) as Hv.
  { unfold attr, c1, with_attrs. cbn [c_attrs]. apply lookup_insert_eq. }
  assert (∀ name, name ≠ "n_workers" → attr c1 name = attr c name) as Hother.
  { intros name Hne. unfold attr, c1, with_attrs. cbn [c_attrs].
    apply lookup_insert_ne. congruence. }
  exists w1, c1. split; [reflexivity|]. split; [reflexivity|]. split; [exact Hc1|].
  split; [exact Hv|]. split; [exact Hother|].
  split; [reflexivity|]. split; [reflexivity|]. split; [reflexivity|].
  split; [reflexivity|]. split; [|split].
  - unfold nprocs_get. rewrite m_bind_run. unfold warn, modify at 1. cbn beta iota.
    apply (getattr_run _ _ _ c1); [exact Hc1|exact Hv].
  - apply (getattr_run _ _ _ c1); [exact Hc1|exact Hv].
  - intros address p ssh Hp.
    destruct (stored_params_attrs _ _ _ _ Hp)
      as (H1 & H2 & H3 & H4 & H5 & H6 & H7 & H8 & H9 & H10 & H11 & H12 & H13 & H14 & H15 & Ha).
    unfold stored_params. rewrite Hv.
    rewrite !Hother by discriminate.
    rewrite H1, H2, H3, H4, H6, H7, H8, H9, H10, H11, H12, H13, H14, H15.
    unfold with_n_workers. rewrite Ha. now destruct ssh as [[? ?] ?].
Qed.

Lemma nprocs_renames_n_workers_witness :
  ∃ c, w_objects running_world !! 0 = Some c
    ∧ ∃ w1 c1,
        nprocs_set 0 (PInt 4) running_world = (Ok tt, w1)
        ∧ w_trace w1 = w_trace running_world ++ [EvWarn "FutureWarning" nprocs_notice_attr]
        ∧ w_objects w1 !! 0 = Some c1
        ∧ attr c1 "n_workers" = Some (PInt 4)
        ∧ (∀ name, name ≠ "n_workers" → attr c1 name = attr c name)
        ∧ c_scheduler c1 = c_scheduler c ∧ c_workers c1 = c_workers c
        ∧ w_queues w1 = w_queues running_world ∧ w_threads w1 = w_threads running_world
        ∧ nprocs_get 0 w1
          = (Ok (PInt 4), emit (EvWarn "FutureWarning" nprocs_notice_attr) w1)
        ∧ getattr 0 "n_workers" w1 = (Ok (PInt 4), w1)
        ∧ (∀ address p ssh, stored_params c address = Some (p, ssh) →
             stored_params c1 address = Some (with_n_workers (PInt 4) p, ssh)).
Proof.
  eexists. split; [vm_compute; reflexivity|].
  eapply nprocs_renames_n_workers. vm_compute. reflexivity.
Defined.

Lemma address_in_worker_tokens exe p :
  In (py_str (scheduler_addr p) +:+ ":" +:+ py_str (scheduler_port p))
     (worker_tokens exe p).
Proof.
  unfold worker_tokens, wrap_tokens, worker_inner, worker_base_tokens.
  destruct (is_none (logdir p)).
  - cbn [app]. do 3 right. now left.
  - apply in_app_iff. right. apply in_app_iff. left. cbn [app glue].
    do 3 right. now left.
Qed.

(** X11: on a cluster built with an integer port, [scheduler_address] gives
    the address and the port joined by a colon; this is the text that the
    label of the scheduler carries and, for valid parameters, a word of the
    command of every worker.  On a cluster built with a port that is no
    number ([None] or a string, which the construction accepts),
    [scheduler_address] raises a [TypeError].  In both cases it changes
    nothing. *)
Theorem scheduler_address_of_cluster a w :
  unexpected_keywords a = [] →
  nprocs_of a = PNone ∨ a_n_workers a = PNone →
  is_path_or_none (a_logdir a) = true →
  ∃ w' c sched ws,
    SSHCluster a w = (Ok (length (w_objects w)), w')
    ∧ w_objects w' !! length (w_objects w) = Some c
    ∧ c_scheduler c = Some sched ∧ c_workers c = Some ws
    ∧ (∀ n, a_scheduler_port a = PInt n →
         let address := py_str (a_scheduler_addr a) +:+ ":" +:+ py_str (PInt n) in
         scheduler_address (length (w_objects w)) w' = (Ok address, w')
         ∧ cd_label (p_dict sched)
           = bcolors.BOLD +:+ "scheduler " +:+ address +:+ bcolors.ENDC
         ∧ ∀ h, h ∈ ws →
             ∃ p, worker_cmd (w_executable w) p = Ok (cd_cmd (p_dict h))
                  ∧ (valid_worker (w_executable w) p →
                     In address (split_space (cd_cmd (p_dict h)))))
    ∧ (a_scheduler_port a = PNone ∨ (∃ s, a_scheduler_port a = PStr s) →
       ∃ msg, scheduler_address (length (w_objects w)) w' = (Raise (TypeError msg), w')).
Proof.
  intros Hk Hone Hlog.
  destruct (resolved_logdir_path (w_now w) _ Hlog) as (ld & evs & Hld).
  assert (negb (is_none (nprocs_of a)) && negb (is_none (a_n_workers a)) = false) as Hboth.
  { destruct Hone as [-> | ->]; [reflexivity|apply andb_false_r]. }
  destruct (SSHCluster_run a w ld evs Hk Hboth Hld) as (cmd & w' & Hcmd & Hrun & Hobj & _).
  set (c := built_cluster a (w_executable w) cmd ld (length (w_queues w))
              (length (w_threads w))) in *.
  assert (w_objects w' !! length (w_objects w) = Some c) as Hc
    by (rewrite Hobj; now apply list_lookup_middle).
  assert (attr c "scheduler_addr" = Some (a_scheduler_addr a)) as Haddr.
  { unfold attr, c, built_cluster, initial_attrs. cbn [c_attrs].
    repeat (rewrite lookup_insert_eq || rewrite lookup_insert_ne by discriminate).
    reflexivity. }
  assert (attr c "scheduler_port" = Some (a_scheduler_port a)) as Hport.
  { unfold attr, c, built_cluster, initial_attrs. cbn [c_attrs].
    repeat (rewrite lookup_insert_eq || rewrite lookup_insert_ne by discriminate).
    reflexivity. }
  assert (scheduler_address (length (w_objects w)) w'
               = (rbind (percent_d (a_scheduler_port a))
                    (λ port, Ok (py_str (a_scheduler_addr a) +:+ ":" +:+ port)), w')) as Hsa.
  { unfold scheduler_address.
    rewrite m_bind_run, (getattr_run _ _ _ _ _ Hc Haddr).
    rewrite m_bind_run, (getattr_run _ _ _ _ _ Hc Hport). reflexivity. }
  eexists w', c, _, _. split; [exact Hrun|]. split; [exact Hc|].
  split; [reflexivity|]. split; [reflexivity|]. split.
  - intros n Hn. cbn zeta. split; [|split].
    + rewrite Hsa, Hn. reflexivity.
    + unfold scheduler_handle. cbn [p_dict cd_label]. rewrite Hn. norm_str. reflexivity.
    + intros h Hh. apply worker_handles_elem in Hh as (addr & _ & Hwc & _).
      eexists. split; [exact Hwc|]. intros Hv.
      rewrite (worker_cmd_words _ _ Hv _ Hwc). rewrite <- Hn.
      apply (address_in_worker_tokens (w_executable w)
               (initial_params a (effective_n_workers (nprocs_of a) (a_n_workers a)) ld addr)).
  - intros [Hn|[s Hs]]; rewrite Hsa; [rewrite Hn|rewrite Hs]; eexists; reflexivity.
Qed.

Lemma scheduler_address_of_cluster_witness :
  ∃ w' c sched ws,
    SSHCluster two_nodes initial_world = (Ok (length (w_objects initial_world)), w')
    ∧ w_objects w' !! length (w_objects initial_world) = Some c
    ∧ c_scheduler c = Some sched ∧ c_workers c = Some ws
    ∧ (∀ n, a_scheduler_port two_nodes = PInt n →
         let address := py_str (a_scheduler_addr two_nodes) +:+ ":" +:+ py_str (PInt n) in
         scheduler_address (length (w_objects initial_world)) w' = (Ok address, w')
         ∧ cd_label (p_dict sched)
           = bcolors.BOLD +:+ "scheduler " +:+ address +:+ bcolors.ENDC
         ∧ ∀ h, h ∈ ws →
             ∃ p, worker_cmd (w_executable initial_world) p = Ok (cd_cmd (p_dict h))
                  ∧ (valid_worker (w_executable initial_world) p →
                     In address (split_space (cd_cmd (p_dict h)))))
    ∧ (a_scheduler_port two_nodes = PNone ∨ (∃ s, a_scheduler_port two_nodes = PStr s) →
       ∃ msg, scheduler_address (length (w_objects initial_world)) w'
              = (Raise (TypeError msg), w')).
Proof.
  apply (scheduler_address_of_cluster two_nodes initial_world).
  - reflexivity.
  - left. reflexivity.
  - reflexivity.
Defined.

(** X14: with a log directory [s] the construction computes the directory
    [s/dask-ssh_<timestamp>] once: it prints one notice that names this
    directory, before anything is launched; the command of the scheduler and
    the command of every worker create this directory and redirect into a
    file in it; and the directory is stored, so that a worker added later is
    launched with the same directory.  A log directory that is neither
    [None] nor a string makes the construction raise a [TypeError] before
    any queue or thread has been created. *)
Theorem log_directory_shared a w :
  unexpected_keywords a = [] →
  nprocs_of a = PNone ∨ a_n_workers a = PNone →
  (∀ s, a_logdir a = PStr s →
     let dir := PStr (path_join s ("dask-ssh_" +:+ w_now w)) in
     ∃ w' c sched ws rest,
       SSHCluster a w = (Ok (length (w_objects w)), w')
       ∧ w_objects w' !! length (w_objects w) = Some c
       ∧ c_scheduler c = Some sched ∧ c_workers c = Some ws
       ∧ w_trace w'
         = w_trace w ++ n_workers_notice (nprocs_of a)
           ++ EvPrint (bcolors.WARNING
                       +:+ "Output will be redirected to logfiles stored locally on "
                       +:+ "individual worker nodes under " +:+ dquote +:+ py_str dir
                       +:+ dquote +:+ "." +:+ bcolors.ENDC)
              :: map EvThreadStart rest
       ∧ cd_cmd (p_dict sched)
         = wrap_log dir (py_str (a_scheduler_addr a) +:+ ":" +:+ py_str (a_scheduler_port a))
             (scheduler_core (w_executable w) (a_scheduler_port a) (a_remote_python a))
       ∧ (∀ h, h ∈ ws →
            ∃ p, logdir p = dir
                 ∧ cd_cmd (p_dict h)
                   = wrap_log dir (py_str (cd_address (p_dict h)))
                       (worker_core (w_executable w) p +:+ render_flags (worker_flags p)))
       ∧ (∀ address, ∃ p ssh, stored_params c address = Some (p, ssh) ∧ logdir p = dir))
  ∧ (is_path_or_none (a_logdir a) = false →
     ∃ msg w', SSHCluster a w = (Raise (TypeError msg), w')
               ∧ w_queues w' = w_queues w ∧ w_threads w' = w_threads w
               ∧ launches (w_trace w') = launches (w_trace w)).
Proof.
  intros Hk Hone.
  assert (negb (is_none (nprocs_of a)) && negb (is_none (a_n_workers a)) = false) as Hboth.
  { destruct Hone as [-> | ->]; [reflexivity|apply andb_false_r]. }
  split.
  - intros s Hs dir.
    assert (resolved_logdir (w_now w) (a_logdir a)
            = Some (dir, [EvPrint (bcolors.WARNING
                       +:+ "Output will be redirected to logfiles stored locally on "
                       +:+ "individual worker nodes under " +:+ dquote +:+ py_str dir
                       +:+ dquote +:+ "." +:+ bcolors.ENDC)])) as Hld
      by (rewrite Hs; reflexivity).
    destruct (SSHCluster_run a w _ _ Hk Hboth Hld) as (cmd & w' & Hcmd & Hrun & Hobj & Htr & _).
    rewrite scheduler_cmd_eq in Hcmd. injection Hcmd as <-.
    eexists w', _, _, _, _. split; [exact Hrun|].
    split; [rewrite Hobj; now apply list_lookup_middle|].
    split; [reflexivity|]. split; [reflexivity|]. split; [exact Htr|].
    split; [reflexivity|]. split.
    + intros h Hh. apply worker_handles_elem in Hh as (addr & _ & Hwc & Haddr).
      rewrite worker_cmd_eq in Hwc. injection Hwc as Hwc.
      eexists. split; [|rewrite <- Hwc, Haddr; reflexivity]. reflexivity.
    + intros address. eexists _, _. split; [apply initial_stored|reflexivity].
  - intros Hbad.
    destruct (SSHCluster_bad_logdir a w Hk Hboth Hbad)
      as (w' & c & Hrun & Hq & Ht & Htr & _).
    eexists _, w'. split; [exact Hrun|]. split; [exact Hq|]. split; [exact Ht|].
    rewrite Htr. unfold launches. rewrite flat_map_app.
    unfold n_workers_notice. destruct (negb _); cbn; now rewrite app_nil_r.
Qed.

Lemma log_directory_shared_witness :
  (∃ w' c sched ws rest,
     SSHCluster logging_nodes initial_world = (Ok (length (w_objects initial_world)), w')
     ∧ w_objects w' !! length (w_objects initial_world) = Some c
     ∧ c_scheduler c = Some sched ∧ c_workers c = Some ws
     ∧ w_trace w'
       = w_trace initial_world ++ n_workers_notice (nprocs_of logging_nodes)
         ++ EvPrint (bcolors.WARNING
                     +:+ "Output will be redirected to logfiles stored locally on "
                     +:+ "individual worker nodes under " +:+ dquote
                     +:+ py_str (PStr (path_join "/var/log/dask"
                                         ("dask-ssh_" +:+ w_now initial_world)))
                     +:+ dquote +:+ "." +:+ bcolors.ENDC)
            :: map EvThreadStart rest
     ∧ cd_cmd (p_dict sched)
       = wrap_log (PStr (path_join "/var/log/dask" ("dask-ssh_" +:+ w_now initial_world)))
           (py_str (a_scheduler_addr logging_nodes) +:+ ":"
            +:+ py_str (a_scheduler_port logging_nodes))
           (scheduler_core (w_executable initial_world) (a_scheduler_port logging_nodes)
              (a_remote_python logging_nodes))
     ∧ (∀ h, h ∈ ws →
          ∃ p, logdir p = PStr (path_join "/var/log/dask"
                                  ("dask-ssh_" +:+ w_now initial_world))
               ∧ cd_cmd (p_dict h)
                 = wrap_log (PStr (path_join "/var/log/dask"
                                     ("dask-ssh_" +:+ w_now initial_world)))
                     (py_str (cd_address (p_dict h)))
                     (worker_core (w_executable initial_world) p
                      +:+ render_flags (worker_flags p)))
     ∧ (∀ address, ∃ p ssh, stored_params c address = Some (p, ssh)
                            ∧ logdir p = PStr (path_join "/var/log/dask"
                                                 ("dask-ssh_" +:+ w_now initial_world))))
  ∧ ∃ msg w', SSHCluster (logging_to (PInt 7) two_nodes) initial_world
              = (Raise (TypeError msg), w')
              ∧ w_queues w' = w_queues initial_world
              ∧ w_threads w' = w_threads initial_world
              ∧ launches (w_trace w') = launches (w_trace initial_world).
Proof.
  split.
  - apply (proj1 (log_directory_shared logging_nodes initial_world eq_refl
                    (or_introl eq_refl)) "/var/log/dask" eq_refl).
  - apply (proj2 (log_directory_shared (logging_to (PInt 7) two_nodes) initial_world
                    eq_refl (or_introl eq_refl))).
    reflexivity.
Defined.

(** X15: when the handles of a cluster refer to queues and threads that
    exist, and no two handles to the same queue or thread, [add_worker]
    keeps it so, for the new handle gets queues and a thread that did not
    exist before.  In such a cluster the input queues are pairwise distinct,
    and so are the output queues. *)
Theorem wiring_kept self w c :
  w_objects w !! self = Some c →
  wired w c →
  (∀ address p ssh,
     stored_params c address = Some (p, ssh) →
     ∃ w' c', add_worker self address w = (Ok tt, w')
              ∧ w_objects w' !! self = Some c' ∧ wired w' c')
  ∧ (∀ sched ws, c_scheduler c = Some sched → c_workers c = Some ws →
       NoDup (map input_of (sched :: ws)) ∧ NoDup (map output_of (sched :: ws))).
Proof.
  intros Hc (sched & ws & Hs & Hw & Hq & Ht & Hlt). split.
  - intros address p ssh Hp.
    destruct (add_worker_run _ _ _ _ _ _ _ Hc Hw Hp) as (cmd & _ & Hrun).
    cbn zeta in Hrun. eexists _, _. split; [exact Hrun|].
    split; [unfold set_objects, launched; cbn [w_objects];
            apply list_lookup_insert_eq; now apply lookup_lt_Some in Hc|].
    set (h := worker_handle cmd p ssh (length (w_queues w)) (length (w_threads w))).
    exists sched, (ws ++ [h]). split; [exact Hs|]. split; [reflexivity|].
    unfold set_objects, launched. cbn [w_queues w_threads].
    rewrite !length_app. cbn [length].
    change (sched :: ws ++ [h]) with ((sched :: ws) ++ [h]).
    split; [|split].
    + rewrite flat_map_app. apply NoDup_app. split; [exact Hq|]. split.
      * intros x Hx Hnew. apply queues_of_elem in Hx as (p' & Hp' & Hx).
        destruct (Hlt p' Hp') as (H1 & H2 & _).
        cbn in Hnew. apply elem_of_cons in Hnew as [->|Hnew];
          [|apply elem_of_cons in Hnew as [->|Hnew]; [|by apply elem_of_nil in Hnew]];
          destruct Hx as [Hx|Hx]; lia.
      * cbn. apply NoDup_cons. split; [|apply NoDup_singleton].
        intros H%list_elem_of_singleton. lia.
    + rewrite map_app. apply NoDup_app. split; [exact Ht|]. split.
      * intros x Hx Hnew. apply list_elem_of_fmap_1 in Hx as (p' & -> & Hp').
        destruct (Hlt p' Hp') as (_ & _ & H3).
        cbn in Hnew. apply list_elem_of_singleton in Hnew. lia.
      * apply NoDup_singleton.
    + intros h' [Hold| ->%list_elem_of_singleton]%elem_of_app.
      * destruct (Hlt h' Hold) as (H1 & H2 & H3). lia.
      * unfold input_of, output_of. cbn. lia.
  - intros sched' ws' Hs' Hw'. rewrite Hs in Hs'. rewrite Hw in Hw'.
    injection Hs' as <-. injection Hw' as <-. now apply queues_of_NoDup.
Qed.

Lemma wiring_kept_witness :
  ∃ c, w_objects running_world !! 0 = Some c
    ∧ wired running_world c
    ∧ (∀ address p ssh,
         stored_params c address = Some (p, ssh) →
         ∃ w' c', add_worker 0 address running_world = (Ok tt, w')
                  ∧ w_objects w' !! 0 = Some c' ∧ wired w' c')
    ∧ (∀ sched ws, c_scheduler c = Some sched → c_workers c = Some ws →
         NoDup (map input_of (sched :: ws)) ∧ NoDup (map output_of (sched :: ws))).
Proof.
  eexists. split; [vm_compute; reflexivity|].
  match goal with |- ?W ∧ _ => assert W as Hwired end.
  { eexists _, _. split; [vm_compute; reflexivity|]. split; [vm_compute; reflexivity|].
    split; [|split].
    - change (NoDup (seq 0 4)). apply NoDup_seq.
    - change (NoDup (seq 0 2)). apply NoDup_seq.
    - intros h Hh.
      apply elem_of_cons in Hh as [->|Hh];
        [|apply list_elem_of_singleton in Hh as ->]; vm_compute; lia. }
  split; [exact Hwired|].
  apply (wiring_kept 0 running_world); [vm_compute; reflexivity|exact Hwired].
Defined.

(** X12: whenever [monitor_remote_processes] is interrupted, it returns
    without an error, and on a cluster whose handles have output queues of
    their own the lines it has printed are the first of the lines that were
    queued, taken process after process with the scheduler first and each
    queue in its own order; the lines not printed are still in their queues,
    but for at most one line that was taken and not yet printed.  The
    monitor changes no other queue, no thread and no object. *)
Theorem monitor_relays n self w c scheduler workers :
  w_objects w !! self = Some c →
  c_scheduler c = Some scheduler → c_workers c = Some workers →
  NoDup (map output_of (scheduler :: workers)) →
  ∃ w' printed held,
    monitor_remote_processes n self w = (Ok tt, w')
    ∧ w_trace w' = w_trace w ++ map EvPrint printed
    ∧ length held ≤ 1
    ∧ printed ++ held ++ pending w' (scheduler :: workers)
      = pending w (scheduler :: workers)
    ∧ (∀ q, q ∉ map output_of (scheduler :: workers) → w_queues w' !! q = w_queues w !! q)
    ∧ w_threads w' = w_threads w ∧ w_objects w' = w_objects w.
Proof.
  intros Hc Hs Hw Hnd.
  rewrite (monitor_remote_processes_run _ _ _ _ _ _ Hc Hs Hw).
  destruct (monitor_loop_inv _ w Hnd n w _ [] (monitor_inv_start _ w))
    as (w' & pc' & printed & Hrun & Htr & Hth & Hob & Hother & visited & Hps & Hvis & Hsum).
  exists w', printed, (in_flight pc'). split; [exact Hrun|]. split; [exact Htr|].
  split; [destruct pc'; cbn; lia|]. split; [|now repeat split].
  rewrite Hps at 1. rewrite pending_app, (pending_empty _ _ Hvis). exact Hsum.
Qed.

Lemma monitor_relays_witness :
  ∃ c scheduler workers,
    w_objects chatty_world !! 0 = Some c
    ∧ c_scheduler c = Some scheduler ∧ c_workers c = Some workers
    ∧ NoDup (map output_of (scheduler :: workers))
    ∧ ∃ w' printed held,
        monitor_remote_processes 2 0 chatty_world = (Ok tt, w')
        ∧ w_trace w' = w_trace chatty_world ++ map EvPrint printed
        ∧ length held ≤ 1
        ∧ printed ++ held ++ pending w' (scheduler :: workers)
          = pending chatty_world (scheduler :: workers)
        ∧ (∀ q, q ∉ map output_of (scheduler :: workers) →
                w_queues w' !! q = w_queues chatty_world !! q)
        ∧ w_threads w' = w_threads chatty_world ∧ w_objects w' = w_objects chatty_world.
Proof.
  eexists _, _, _.
  split; [vm_compute; reflexivity|]. split; [vm_compute; reflexivity|].
  split; [vm_compute; reflexivity|].
  assert (NoDup [1; 3]) as Hnd.
  { apply NoDup_cons. split; [|apply NoDup_singleton].
    intros H%list_elem_of_singleton. discriminate. }
  split; [exact Hnd|].
  eapply monitor_relays; [vm_compute; reflexivity..|exact Hnd].
Defined.

(** X13: left alone for one sweep, that is for two steps for each queued
    line and one step for each process, [monitor_remote_processes] has
    printed every line that was queued, the lines of the scheduler first and
    then those of each worker in the order of the workers, each queue in its
    own order; the output queues are empty then, and running on changes
    nothing more. *)
Theorem monitor_drains n self w c scheduler workers :
  w_objects w !! self = Some c →
  c_scheduler c = Some scheduler → c_workers c = Some workers →
  NoDup (map output_of (scheduler :: workers)) →
  2 * length (pending w (scheduler :: workers)) + length (scheduler :: workers) ≤ n →
  ∃ w',
    monitor_remote_processes n self w = (Ok tt, w')
    ∧ w_trace w' = w_trace w ++ map EvPrint (pending w (scheduler :: workers))
    ∧ (∀ p, p ∈ scheduler :: workers → queue_items w' (output_of p) = [])
    ∧ (∀ q, q ∉ map output_of (scheduler :: workers) → w_queues w' !! q = w_queues w !! q)
    ∧ w_threads w' = w_threads w ∧ w_objects w' = w_objects w.
Proof.
  intros Hc Hs Hw Hnd Hn.
  rewrite (monitor_remote_processes_run _ _ _ _ _ _ Hc Hs Hw).
  set (ps := scheduler :: workers) in *.
  destruct (drain_sweep ps ps Hnd w (n - (2 * length (pending w ps) + length ps)))
    as (w' & Hrun & Htr & Hempty & Hother & Hth & Hob).
  replace (2 * length (pending w ps) + length ps
           + (n - (2 * length (pending w ps) + length ps))) with n in Hrun by lia.
  exists w'. split; [|now repeat split].
  rewrite Hrun. apply monitor_idle; [exact Hempty|].
  intros p Hp. by apply elem_of_nil in Hp.
Qed.

Lemma monitor_drains_witness :
  ∃ c scheduler workers,
    w_objects chatty_world !! 0 = Some c
    ∧ c_scheduler c = Some scheduler ∧ c_workers c = Some workers
    ∧ NoDup (map output_of (scheduler :: workers))
    ∧ 2 * length (pending chatty_world (scheduler :: workers))
      + length (scheduler :: workers) ≤ 8
    ∧ ∃ w',
        monitor_remote_processes 8 0 chatty_world = (Ok tt, w')
        ∧ w_trace w'
          = w_trace chatty_world ++ map EvPrint (pending chatty_world (scheduler :: workers))
        ∧ (∀ p, p ∈ scheduler :: workers → queue_items w' (output_of p) = [])
        ∧ (∀ q, q ∉ map output_of (scheduler :: workers) →
                w_queues w' !! q = w_queues chatty_world !! q)
        ∧ w_threads w' = w_threads chatty_world ∧ w_objects w' = w_objects chatty_world.
Proof.
  eexists _, _, _.
  split; [vm_compute; reflexivity|]. split; [vm_compute; reflexivity|].
  split; [vm_compute; reflexivity|].
  assert (NoDup [1; 3]) as Hnd.
  { apply NoDup_cons. split; [|apply NoDup_singleton].
    intros H%list_elem_of_singleton. discriminate. }
  split; [exact Hnd|].
  split; [vm_compute; lia|].
  eapply monitor_drains; [vm_compute; reflexivity..|exact Hnd|vm_compute; lia].
Defined.
